(** * Reading-order reconstruction pipeline (stages 4 to 9)

    A shallow embedding of the text pipeline of
    [code_reference/ImageBasedProcessing_Claude]:

    - [stage_4_merge_quadrants.py]   (Fragment Assembler)
    - [stage_5_metrics.py]           (metrics and adaptive thresholds)
    - [stage_6_horizontal_merge.py]  (Line Merger)
    - [stage_7_vertical_buckets.py]  (Block Builder)
    - [stage_8_horizontal_buckets.py] (Segment Builder, normalisation)
    - [stage_9_vertical_stacking.py] (Column-Stacking Reorderer)

    Conventions of the embedding.

    - A Python [int] is a [Z]; a Python [float] is an exact rational [Q]
      (rounding error of the binary representation is not modelled).
    - A Python dict with a fixed set of keys is a record.  A key whose value
      may be [None] is an [option] field.
    - [sorted] / [list.sort] with a key are stable; they are modelled by a
      stable insertion sort, which returns the same list as any stable sort.
    - Code that may raise returns a [result]; [while] loops take fuel and
      yield [OutOfFuel] when it is exhausted (the totality lemmas show that
      the fuel handed out by the callers is always enough).
    - The stages hand their pages over as JSON files, which keep ints,
      floats, strings and [None] as they are: the page a stage returns is
      the argument of the next one.  The [page_number], which every stage
      copies, is left out of the page records. *)

From Stdlib Require Import ZArith QArith Qround Qabs Lia String Ascii.
From stdpp Require Import base list.

(* ===================================================================== *)
(** ** Python numbers *)
(* ===================================================================== *)

Module Py.

(** [a < b] and [a <= b] on floats. *)
Definition Qltb (a b : Q) : bool := negb (Qle_bool b a).
Definition Qleb (a b : Q) : bool := Qle_bool a b.

(** Python 3 [round(x)]: nearest integer, ties to the even one. *)
Definition round (q : Q) : Z :=
  let f := Qfloor q in
  match (2 * Qnum q - 2 * f * Zpos (Qden q) ?= Zpos (Qden q))%Z with
  | Lt => f
  | Gt => (f + 1)%Z
  | Eq => if Z.even f then f else (f + 1)%Z
  end.

(** [a / b] on two ints (true division); callers guard [b <> 0]. *)
Definition div (a b : Z) : Q := (inject_Z a / inject_Z b)%Q.

(** [int(round(math.sqrt(n)))] for an int [n >= 0]: the square root of an
    integer is never half-way between two integers, so the result is the
    integer [r] with [r*r - r < n <= r*r + r]. *)
Definition round_sqrt (n : Z) : Z :=
  let s := Z.sqrt n in
  if (n <=? s * s + s)%Z then s else (s + 1)%Z.

(** [max(a, b)] on floats: the first argument wins ties. *)
Definition Qmax (a b : Q) : Q := if Qltb a b then b else a.

(** [min(key(x) for x in xs)] and [max(...)]: [None] stands for the
    [ValueError] raised on an empty sequence. *)
Definition min_Z (l : list Z) : option Z :=
  match l with
  | [] => None
  | x :: l' => Some (fold_left Z.min l' x)
  end.
Definition max_Z (l : list Z) : option Z :=
  match l with
  | [] => None
  | x :: l' => Some (fold_left Z.max l' x)
  end.
Definition min_Q (l : list Q) : option Q :=
  match l with
  | [] => None
  | x :: l' => Some (fold_left (fun acc y => if Qltb y acc then y else acc) l' x)
  end.

(** [sum(...)] of ints. *)
Definition sum_Z (l : list Z) : Z := fold_left Z.add l 0%Z.

(** Stable sort by a float key ([sorted(xs, key=...)]). *)
Section Sort.
Context {A : Type} (key : A -> Q).

Fixpoint insert_by (x : A) (l : list A) : list A :=
  match l with
  | [] => [x]
  | y :: l' =>
      if Qleb (key x) (key y) then x :: y :: l' else y :: insert_by x l'
  end.

Fixpoint sorted (l : list A) : list A :=
  match l with
  | [] => []
  | x :: l' => insert_by x (sorted l')
  end.

(** Ascending by key, adjacent elements compared. *)
Fixpoint ascending (l : list A) : bool :=
  match l with
  | [] => true
  | x :: l' =>
      match l' with
      | [] => true
      | y :: _ => Qleb (key x) (key y) && ascending l'
      end
  end.
End Sort.

(** [list.insert(k, x)]: before position [k], at the end when [k] is past it. *)
Definition list_insert_at {A} (k : nat) (x : A) (l : list A) : list A :=
  take k l ++ x :: drop k l.

End Py.

(* ===================================================================== *)
(** ** Exceptions and fuel *)
(* ===================================================================== *)

Inductive exn : Set := TypeError | IndexError | ValueError.

Inductive result (A : Type) : Type :=
| Ok (a : A)
| Raise (e : exn)
| OutOfFuel.
Arguments Ok {A} a.
Arguments Raise {A} e.
Arguments OutOfFuel {A}.

Definition bind {A B} (m : result A) (k : A -> result B) : result B :=
  match m with
  | Ok a => k a
  | Raise e => Raise e
  | OutOfFuel => OutOfFuel
  end.

Notation "x <~ m ;; k" := (bind m (fun x => k))
  (at level 100, m at next level, right associativity).

(** [for x in xs: acc = f(acc, x)] where the body may raise. *)
Fixpoint foldM {A B} (f : B -> A -> result B) (l : list A) (acc : B) : result B :=
  match l with
  | [] => Ok acc
  | x :: l' => acc' <~ f acc x ;; foldM f l' acc'
  end.

Fixpoint mapM {A B} (f : A -> result B) (l : list A) : result (list B) :=
  match l with
  | [] => Ok []
  | x :: l' => y <~ f x ;; ys <~ mapM f l' ;; Ok (y :: ys)
  end.

Definition of_option {A} (e : exn) (o : option A) : result A :=
  match o with
  | Some a => Ok a
  | None => Raise e
  end.

(* ===================================================================== *)
(** ** Data model *)
(* ===================================================================== *)

(** A text block (the dict produced by stage 3 and enriched by the later
    stages): a Fragment before stage 6, a Line after it.  [width],
    [character_width] and the [prev_*] fields are missing from the stage 3
    output and are read with [.get], hence [None] there. *)
Record Block : Type := mkBlock {
  text : string;
  start_x : Z;
  end_x : Z;
  start_y : Z;
  end_y : Z;
  mid_x : Z;
  mid_y : Z;
  mid_y_x : Q;
  height : Z;
  confidence : Q;
  char_count : Z;
  word_count : Z;
  source_quadrant : string;
  width : option Z;
  character_width : option Z;
  prev_mid_y_diff : option Z;
  prev_horizontal_gap : option Z;
  prev_vertical_gap : option Z;
  prev_overlap_x : option Z;
  prev_overlap_y : option Z;
  prev_distance : option Z
}.

(** The [adaptive_thresholds] dict of stage 5. *)
Record ThresholdMetadata : Type := mkThresholdMetadata {
  median_height : Q;
  median_vertical_spacing : Q;
  median_char_width : Q;
  line_spacing_ratio : Q;
  total_blocks_analyzed : nat;
  used_defaults : bool
}.

Record Thresholds : Type := mkThresholds {
  vertical_merge_tolerance : Q;
  horizontal_merge_gap : Q;
  vertical_bucket_tolerance : Q;
  horizontal_bucket_tolerance : Q;
  metadata : ThresholdMetadata
}.

(** A vertical bucket of stage 7 (a Block of the specification). *)
Record VBucket : Type := mkVBucket {
  bucket_id : nat;
  num_blocks : nat;
  vb_start_x : Z;
  vb_end_x : Z;
  vb_start_y : Z;
  vb_end_y : Z;
  vb_mid_y : Q;
  vb_mid_x : Q;
  vb_min_mid_y : Z;
  vb_min_mid_y_x : Q;
  vb_width : Z;
  vb_height : Z;
  blocks : list Block
}.

(** A horizontal bucket of stage 8 before normalisation. *)
Record HBucketInfo : Type := mkHBucketInfo {
  horizontal_bucket_id : nat;
  num_vertical_buckets : nat;
  num_text_blocks : nat;
  hb_start_x : Z;
  hb_end_x : Z;
  hb_start_y : Z;
  hb_end_y : Z;
  hb_mid_x : Q;
  hb_mid_y : Q;
  hb_min_mid_y_x : Q;
  hb_width : Z;
  hb_height : Z;
  vertical_buckets : list VBucket
}.

(** A horizontal bucket with its normalised edges (a Segment of the
    specification): what stage 8 writes and stage 9 reads. *)
Record HBucket : Type := mkHBucket {
  hb_info : HBucketInfo;
  left_edge : Z;
  right_edge : Z;
  top_edge : Z;
  bottom_edge : Z
}.

(** Input of stage 4: one page of OCR output, tile by tile. *)
Record Quadrant : Type := mkQuadrant {
  quadrant_name : string;
  quadrant_blocks : list Block
}.

(* ===================================================================== *)
(** ** Stage 4: merge quadrants *)
(* ===================================================================== *)

Module Stage4.

Definition set_source_quadrant (name : string) (b : Block) : Block :=
  mkBlock (text b) (start_x b) (end_x b) (start_y b) (end_y b) (mid_x b)
    (mid_y b) (mid_y_x b) (height b) (confidence b) (char_count b)
    (word_count b) name (width b) (character_width b)
    (prev_mid_y_diff b) (prev_horizontal_gap b) (prev_vertical_gap b)
    (prev_overlap_x b) (prev_overlap_y b) (prev_distance b).

(** One iteration of the loop body of [scale_coordinates_to_original]. *)
Definition scale_block (b : Block) : Block :=
  let sx := Py.round (Py.div (start_x b) 2) in
  let my := Py.round (Py.div (mid_y b) 2) in
  mkBlock (text b) sx
    (Py.round (Py.div (end_x b) 2))
    (Py.round (Py.div (start_y b) 2))
    (Py.round (Py.div (end_y b) 2))
    (Py.round (Py.div (mid_x b) 2))
    my
    (inject_Z my + Py.div sx 50)%Q
    (Py.round (Py.div (height b) 2))
    (confidence b) (char_count b) (word_count b) (source_quadrant b)
    (width b) (character_width b)
    (prev_mid_y_diff b) (prev_horizontal_gap b) (prev_vertical_gap b)
    (prev_overlap_x b) (prev_overlap_y b) (prev_distance b).

Definition scale_coordinates_to_original (blocks : list Block) : list Block :=
  map scale_block blocks.

(** The blocks of one quadrant that pass [confidence >= min_confidence],
    tagged with the quadrant name. *)
Definition filtered_blocks (min_confidence : Q) (q : Quadrant) : list Block :=
  filter (fun b => Py.Qleb min_confidence (confidence b) = true)
    (map (set_source_quadrant (quadrant_name q)) (quadrant_blocks q)).

Record MergedPage : Type := mkMergedPage {
  total_blocks : nat;
  merged_blocks : list Block;
  blocks_filtered : nat
}.

Definition merge_page_quadrants (quadrants : list Quadrant) (min_confidence : Q)
  : MergedPage :=
  let all_blocks := flat_map (filtered_blocks min_confidence) quadrants in
  let total_before := length (flat_map quadrant_blocks quadrants) in
  let all_sorted := Py.sorted mid_y_x all_blocks in
  let all_scaled := scale_coordinates_to_original all_sorted in
  mkMergedPage (length all_scaled) all_scaled (total_before - length all_blocks).

Definition default_min_confidence : Q := 3 # 10.

End Stage4.

(* ===================================================================== *)
(** ** Stage 5: spatial metrics and adaptive thresholds *)
(* ===================================================================== *)

Module Stage5.

(** [np.median] of a list of ints ([None] on the empty list, which the
    callers exclude). *)
Definition np_median (l : list Z) : option Q :=
  let s := Py.sorted inject_Z l in
  let n := length s in
  if Nat.even n
  then match s !! (n / 2 - 1), s !! (n / 2) with
       | Some a, Some b => Some ((inject_Z a + inject_Z b) / 2)%Q
       | _, _ => None
       end
  else option_map inject_Z (s !! (n / 2)).

(** [np.percentile(l, 25)] with the default linear interpolation: the
    virtual index is [(n - 1) / 4]. *)
Definition np_percentile_25 (l : list Z) : option Q :=
  let s := Py.sorted inject_Z l in
  let n := length s in
  let lo := (n - 1) / 4 in
  let rem := (n - 1) mod 4 in
  match s !! lo with
  | None => None
  | Some a =>
      match s !! (lo + 1) with
      | Some b =>
          Some (inject_Z a + (Z.of_nat rem # 4) * (inject_Z b - inject_Z a))%Q
      | None => Some (inject_Z a)
      end
  end.

Definition default_thresholds (n : nat) : Thresholds :=
  mkThresholds 50 100 70 50
    (mkThresholdMetadata 50 75 50 (3 # 2) n true).

Definition positive_values (l : list (option Z)) : list Z :=
  omap (fun o => match o with
                 | Some v => if (0 <? v)%Z then Some v else None
                 | None => None
                 end) l.

Definition calculate_adaptive_thresholds (blocks : list Block) : Thresholds :=
  if length blocks <? 10 then default_thresholds (length blocks)
  else
    let vertical_diffs := positive_values (map prev_mid_y_diff blocks) in
    let heights := positive_values (map (fun b => Some (height b)) blocks) in
    let char_widths := positive_values (map character_width blocks) in
    let median_height := default 50%Q (np_median heights) in
    let p25_vertical_spacing :=
      default median_height (np_percentile_25 vertical_diffs) in
    let median_vertical_spacing :=
      default (median_height * (3 # 2))%Q (np_median vertical_diffs) in
    let median_char_width := default 50%Q (np_median char_widths) in
    let line_spacing_ratio :=
      if Py.Qltb 0 median_height
      then (median_vertical_spacing / median_height)%Q else (3 # 2)%Q in
    mkThresholds
      (Py.Qmax (p25_vertical_spacing * (8 # 10)) (median_height * (5 # 10)))%Q
      (median_char_width * (25 # 10))%Q
      (Py.Qmax (median_vertical_spacing * (12 # 10)) (median_height * (14 # 10)))%Q
      (median_char_width * (15 # 10))%Q
      (mkThresholdMetadata median_height median_vertical_spacing
         median_char_width line_spacing_ratio (length blocks) false).

(** The body of the loop of [calculate_block_metrics] for one block;
    [prev] is the block before it in the list ([None] for the first). *)
Definition block_metrics (prev : option Block) (b : Block) : Block :=
  let w := (end_x b - start_x b)%Z in
  let cw := if (0 <? char_count b)%Z
            then Some (Py.round (Py.div w (char_count b))) else None in
  let rel (f : Block -> Z) : option Z := option_map f prev in
  mkBlock (text b) (start_x b) (end_x b) (start_y b) (end_y b) (mid_x b)
    (mid_y b) (inject_Z (Py.round (mid_y_x b))) (height b) (confidence b)
    (char_count b) (word_count b) (source_quadrant b)
    (Some w) cw
    (rel (fun p => mid_y b - mid_y p)%Z)
    (rel (fun p => start_x b - end_x p)%Z)
    (rel (fun p => start_y b - end_y p)%Z)
    (rel (fun p => Z.min (end_x b) (end_x p) - Z.max (start_x b) (start_x p))%Z)
    (rel (fun p => Z.min (end_y b) (end_y p) - Z.max (start_y b) (start_y p))%Z)
    (rel (fun p => Py.round_sqrt ((mid_x b - mid_x p) ^ 2 + (mid_y b - mid_y p) ^ 2))%Z).

(** The blocks are updated in place from first to last, so the
    predecessor a block is compared with has already been updated. *)
Fixpoint metrics_from (prev : option Block) (blocks : list Block) : list Block :=
  match blocks with
  | [] => []
  | b :: rest =>
      let b' := block_metrics prev b in
      b' :: metrics_from (Some b') rest
  end.

Definition calculate_block_metrics (blocks : list Block) : list Block :=
  metrics_from None blocks.

Record MetricsPage : Type := mkMetricsPage {
  total_blocks : nat;
  adaptive_thresholds : option Thresholds;
  metrics_blocks : list Block
}.

Definition calculate_metrics_for_page (page : Stage4.MergedPage) : MetricsPage :=
  let enhanced := calculate_block_metrics (Stage4.merged_blocks page) in
  mkMetricsPage (Stage4.total_blocks page)
    (Some (calculate_adaptive_thresholds enhanced)) enhanced.

End Stage5.

(* ===================================================================== *)
(** ** Stage 6: horizontal merge (Line Merger) *)
(* ===================================================================== *)

Module Stage6.

(** [first_block], [second_block] of [merge_two_blocks]: ordered by
    [start_x], the first argument first on a tie. *)
Definition first_block (block1 block2 : Block) : Block :=
  if (start_x block1 <=? start_x block2)%Z then block1 else block2.
Definition second_block (block1 block2 : Block) : Block :=
  if (start_x block1 <=? start_x block2)%Z then block2 else block1.

(** [a or b] on two optional ints: [a] unless it is [None] or [0]. *)
Definition py_or (a b : option Z) : option Z :=
  match a with
  | Some v => if (v =? 0)%Z then b else a
  | None => b
  end.

Definition merge_two_blocks (block1 block2 : Block) : Block :=
  let fb := first_block block1 block2 in
  let sb := second_block block1 block2 in
  let merged_text := (text fb ++ " " ++ text sb)%string in
  let new_start_x := Z.min (start_x fb) (start_x sb) in
  let new_end_x := Z.max (end_x fb) (end_x sb) in
  let new_start_y := Z.min (start_y fb) (start_y sb) in
  let new_end_y := Z.max (end_y fb) (end_y sb) in
  let new_mid_x := Py.div (new_start_x + new_end_x) 2 in
  let new_mid_y := Py.div (new_start_y + new_end_y) 2 in
  let new_mid_y_x := (new_mid_y + Py.div new_start_x 50)%Q in
  let new_width := (new_end_x - new_start_x)%Z in
  let new_height := (new_end_y - new_start_y)%Z in
  let new_char_count := (char_count fb + char_count sb + 1)%Z in
  let new_word_count := (word_count fb + word_count sb)%Z in
  let new_character_width :=
    if (0 <? new_char_count)%Z
    then Some (Py.round (Py.div new_width new_char_count))
    else py_or (character_width fb) (character_width sb) in
  let new_confidence := Py.Qmax (confidence fb) (confidence sb) in
  mkBlock merged_text new_start_x new_end_x new_start_y new_end_y
    (Py.round new_mid_x) (Py.round new_mid_y)
    (inject_Z (Py.round new_mid_y_x)) new_height new_confidence
    new_char_count new_word_count (source_quadrant fb)
    (Some new_width) new_character_width
    None None None None None None.

(** The character width used by [should_merge_blocks]: the fallback
    replaces [None] and [0]. *)
Definition char_width_or (fallback : Z) (b : Block) : Z :=
  match character_width b with
  | Some w => if (w =? 0)%Z then fallback else w
  | None => fallback
  end.

(** The horizontal gap of [should_merge_blocks]. *)
Definition horizontal_gap (ref_block current_block : Block) : Z :=
  if (start_x current_block <? start_x ref_block)%Z
  then (start_x ref_block - end_x current_block)%Z
  else (start_x current_block - end_x ref_block)%Z.

Definition should_merge_blocks (ref_block current_block : Block)
    (thresholds : option Thresholds) : bool * option Z :=
  let '(vertical_tolerance, horizontal_gap_threshold) :=
    match thresholds with
    | Some th =>
        let ref_char_width := char_width_or 36 ref_block in
        let current_char_width := char_width_or 36 current_block in
        let local_median_char_width :=
          Py.div (ref_char_width + current_char_width) 2 in
        (vertical_merge_tolerance th, (local_median_char_width * 3)%Q)
    | None =>
        let ref_char_width := char_width_or 50 ref_block in
        let current_char_width := char_width_or 50 current_block in
        (inject_Z (Z.min ref_char_width current_char_width),
         inject_Z (2 * Z.min ref_char_width current_char_width))
    end in
  let mid_y_diff := Z.abs (mid_y current_block - mid_y ref_block) in
  if Py.Qleb vertical_tolerance (inject_Z mid_y_diff) then (false, None)
  else
    let gap := horizontal_gap ref_block current_block in
    if Py.Qltb (inject_Z gap) horizontal_gap_threshold
    then (true, Some gap)
    else (false, None).

Definition max_lookahead : nat := 20.

(** The [for j in range(start, start + count)] scan of the lookahead
    window: the first position whose block merges with the reference. *)
Fixpoint scan_lookahead (thresholds : option Thresholds) (ref_block : Block)
    (merged_blocks : list Block) (j count : nat) : option (nat * Block) :=
  match count with
  | 0 => None
  | S count' =>
      match merged_blocks !! j with
      | None => None
      | Some current_block =>
          if (should_merge_blocks ref_block current_block thresholds).1
          then Some (j, current_block)
          else scan_lookahead thresholds ref_block merged_blocks (S j) count'
      end
  end.

(** The bounds of [range(i + 1, min(i + 1 + max_lookahead, len))]. *)
Definition window_count (i len : nat) : nat :=
  Nat.min (i + 1 + max_lookahead) len - (i + 1).

(** The state of the loops: the list and a ghost counter of the merges
    performed so far (the counter is not in the source). *)
Definition MergeState : Type := list Block * nat.

(** [while merge_found]: merge into position [i] until the window holds no
    candidate. *)
Fixpoint merge_at_reference (fuel : nat) (thresholds : option Thresholds)
    (merged_blocks : list Block) (merges : nat) (i : nat) (ref_block : Block)
  : result MergeState :=
  match fuel with
  | 0 => OutOfFuel
  | S fuel' =>
      match scan_lookahead thresholds ref_block merged_blocks (i + 1)
              (window_count i (length merged_blocks)) with
      | Some (j, current_block) =>
          let merged_block := merge_two_blocks ref_block current_block in
          merge_at_reference fuel' thresholds
            (delete j (<[i:=merged_block]> merged_blocks)) (S merges)
            i merged_block
      | None => Ok (merged_blocks, merges)
      end
  end.

(** [while i < len(merged_blocks)]. *)
Fixpoint merge_loop (fuel : nat) (thresholds : option Thresholds)
    (merged_blocks : list Block) (merges : nat) (i : nat) : result MergeState :=
  match fuel with
  | 0 => OutOfFuel
  | S fuel' =>
      match merged_blocks !! i with
      | None => Ok (merged_blocks, merges)
      | Some ref_block =>
          st <~ merge_at_reference (length merged_blocks) thresholds
                  merged_blocks merges i ref_block ;;
          merge_loop fuel' thresholds st.1 st.2 (S i)
      end
  end.

(** [merge_blocks_recursive] with the ghost counter. *)
Definition merge_blocks_counted (blocks : list Block)
    (thresholds : option Thresholds) : result MergeState :=
  if length blocks <? 2 then Ok (blocks, 0)
  else merge_loop (S (length blocks)) thresholds blocks 0 0.

Definition merge_blocks_recursive (blocks : list Block)
    (thresholds : option Thresholds) : result (list Block) :=
  st <~ merge_blocks_counted blocks thresholds ;; Ok st.1.

Record HorizontalPage : Type := mkHorizontalPage {
  total_blocks : nat;
  adaptive_thresholds : option Thresholds;
  line_blocks : list Block
}.

(** [merge_horizontal_for_page] on the blocks and thresholds of a page;
    the second component is the ghost merge count. *)
Definition merge_horizontal_counted (blocks : list Block)
    (thresholds : option Thresholds) : result (HorizontalPage * nat) :=
  let blocks := Py.sorted mid_y_x blocks in
  st <~ merge_blocks_counted blocks thresholds ;;
  let merged_blocks := Py.sorted mid_y_x st.1 in
  let merged_blocks := Stage5.calculate_block_metrics merged_blocks in
  Ok (mkHorizontalPage (length merged_blocks) thresholds merged_blocks, st.2).

Definition merge_horizontal_for_page (page : Stage5.MetricsPage)
  : result HorizontalPage :=
  r <~ merge_horizontal_counted (Stage5.metrics_blocks page)
         (Stage5.adaptive_thresholds page) ;;
  Ok r.1.

End Stage6.

(* ===================================================================== *)
(** ** Stage 7: vertical buckets (Block Builder) *)
(* ===================================================================== *)

Module Stage7.

(** [x if x > 0 else 50] of the legacy branch. *)
Definition positive_or_50 (v : Z) : Z := if (v <=? 0)%Z then 50%Z else v.

(** The vertical and horizontal thresholds of [should_add_to_bucket].
    In the legacy branch a [character_width] of [None] makes the
    comparison [char_width <= 0] raise [TypeError]. *)
Definition bucket_thresholds (bucket_last_element current_element : Block)
    (thresholds : option Thresholds) : result (Q * Q) :=
  match thresholds with
  | Some th => Ok (vertical_bucket_tolerance th, horizontal_bucket_tolerance th)
  | None =>
      let height_ref := positive_or_50 (height bucket_last_element) in
      let height_current := positive_or_50 (height current_element) in
      char_width_ref <~ of_option TypeError (character_width bucket_last_element) ;;
      char_width_current <~ of_option TypeError (character_width current_element) ;;
      let char_width_ref := positive_or_50 char_width_ref in
      let char_width_current := positive_or_50 char_width_current in
      Ok (((14 # 10) * inject_Z (Z.min height_ref height_current))%Q,
          inject_Z (Z.min char_width_ref char_width_current))
  end.

Definition should_add_to_bucket (bucket_last_element current_element : Block)
    (thresholds : option Thresholds) : result bool :=
  t <~ bucket_thresholds bucket_last_element current_element thresholds ;;
  let vertical_threshold := t.1 in
  let horizontal_threshold := t.2 in
  let mid_y_distance := Z.abs (mid_y current_element - mid_y bucket_last_element) in
  if Py.Qleb vertical_threshold (inject_Z mid_y_distance) then Ok false
  else
    let start_x_diff := Z.abs (start_x current_element - start_x bucket_last_element) in
    if Py.Qltb (inject_Z start_x_diff) (2 * horizontal_threshold)%Q then Ok true
    else
      let mid_x_diff := Z.abs (mid_x current_element - mid_x bucket_last_element) in
      if Py.Qltb (inject_Z mid_x_diff) horizontal_threshold then Ok true
      else
        let end_x_diff := Z.abs (end_x current_element - end_x bucket_last_element) in
        if Py.Qltb (inject_Z end_x_diff) horizontal_threshold then Ok true
        else Ok false.

(** [for bucket in buckets]: append [current_element] to the first bucket
    whose last element accepts it; [None] when no bucket does.
    [bucket[-1]] raises [IndexError] on an empty bucket. *)
Fixpoint add_to_first_bucket (thresholds : option Thresholds)
    (buckets : list (list Block)) (current_element : Block)
  : result (option (list (list Block))) :=
  match buckets with
  | [] => Ok None
  | bucket :: rest =>
      bucket_last <~ of_option IndexError (last bucket) ;;
      ok <~ should_add_to_bucket bucket_last current_element thresholds ;;
      if ok : bool then Ok (Some ((bucket ++ [current_element]) :: rest))
      else
        r <~ add_to_first_bucket thresholds rest current_element ;;
        Ok (option_map (cons bucket) r)
  end.

(** The body of [for i in range(1, len(blocks))]. *)
Definition place_element (thresholds : option Thresholds)
    (buckets : list (list Block)) (current_element : Block)
  : result (list (list Block)) :=
  r <~ add_to_first_bucket thresholds buckets current_element ;;
  match r with
  | Some buckets' => Ok buckets'
  | None => Ok (buckets ++ [[current_element]])
  end.

Definition create_buckets (blocks : list Block) (thresholds : option Thresholds)
  : result (list (list Block)) :=
  match blocks with
  | [] => Ok []
  | first :: rest => foldM (place_element thresholds) rest [[first]]
  end.

Definition bucket_info (idx : nat) (bucket : list Block) : result VBucket :=
  bucket_start_x <~ of_option ValueError (Py.min_Z (map start_x bucket)) ;;
  bucket_end_x <~ of_option ValueError (Py.max_Z (map end_x bucket)) ;;
  bucket_start_y <~ of_option ValueError (Py.min_Z (map start_y bucket)) ;;
  bucket_end_y <~ of_option ValueError (Py.max_Z (map end_y bucket)) ;;
  let bucket_mid_x := Py.div (bucket_start_x + bucket_end_x) 2 in
  let bucket_mid_y := Py.div (bucket_start_y + bucket_end_y) 2 in
  bucket_min_mid_y <~ of_option ValueError (Py.min_Z (map mid_y bucket)) ;;
  bucket_min_mid_y_x <~ of_option ValueError (Py.min_Q (map mid_y_x bucket)) ;;
  Ok (mkVBucket idx (length bucket) bucket_start_x bucket_end_x
        bucket_start_y bucket_end_y bucket_mid_y bucket_mid_x
        bucket_min_mid_y bucket_min_mid_y_x
        (bucket_end_x - bucket_start_x) (bucket_end_y - bucket_start_y)
        bucket).

(** [for idx, x in enumerate(xs)] with a body that may raise. *)
Fixpoint mapM_enumerate {A B} (f : nat -> A -> result B) (idx : nat) (l : list A)
  : result (list B) :=
  match l with
  | [] => Ok []
  | x :: l' => y <~ f idx x ;; ys <~ mapM_enumerate f (S idx) l' ;; Ok (y :: ys)
  end.

Record BucketPage : Type := mkBucketPage {
  total_blocks : nat;
  total_buckets : nat;
  buckets : list VBucket;
  adaptive_thresholds : option Thresholds
}.

Definition process_page_buckets (page : Stage6.HorizontalPage) : result BucketPage :=
  let thresholds := Stage6.adaptive_thresholds page in
  let blocks := Py.sorted mid_y_x (Stage6.line_blocks page) in
  buckets <~ create_buckets blocks thresholds ;;
  bucket_data <~ mapM_enumerate bucket_info 0 buckets ;;
  let bucket_data := Py.sorted vb_min_mid_y_x bucket_data in
  Ok (mkBucketPage (length blocks) (length buckets) bucket_data thresholds).

End Stage7.

(* ===================================================================== *)
(** ** Stage 8: horizontal buckets (Segment Builder) *)
(* ===================================================================== *)

Module Stage8.

Definition calculate_avg_block_height (vertical_bucket : VBucket) : Q :=
  match blocks vertical_bucket with
  | [] => 50%Q
  | bs => Py.div (Py.sum_Z (map height bs)) (Z.of_nat (length bs))
  end.

(** [sum] raises [TypeError] on a [character_width] of [None]. *)
Definition calculate_avg_char_width (vertical_bucket : VBucket) : result Q :=
  match blocks vertical_bucket with
  | [] => Ok 20%Q
  | bs =>
      widths <~ mapM (fun b => of_option TypeError (character_width b)) bs ;;
      Ok (Py.div (Py.sum_Z widths) (Z.of_nat (length bs)))
  end.

Definition Qabs_diff (a b : Q) : Q := Qabs (a - b).

Definition should_add_to_horizontal_bucket (horizontal_bucket : list VBucket)
    (current_vb : VBucket) : result bool :=
  ref_vb <~ of_option IndexError (last horizontal_bucket) ;;
  let avg_height_ref := calculate_avg_block_height ref_vb in
  let avg_height_current := calculate_avg_block_height current_vb in
  let height_threshold := ((avg_height_ref + avg_height_current) / 2)%Q in
  let vertical_gap := (vb_start_y current_vb - vb_end_y ref_vb)%Z in
  if Py.Qleb height_threshold (inject_Z vertical_gap) then Ok false
  else
    avg_char_width_ref <~ calculate_avg_char_width ref_vb ;;
    avg_char_width_current <~ calculate_avg_char_width current_vb ;;
    let char_width_threshold :=
      ((avg_char_width_ref + avg_char_width_current) / 2)%Q in
    let start_x_diff := Z.abs (vb_start_x current_vb - vb_start_x ref_vb) in
    if Py.Qltb (inject_Z start_x_diff) char_width_threshold then Ok true
    else
      let mid_x_diff := Qabs_diff (vb_mid_x current_vb) (vb_mid_x ref_vb) in
      if Py.Qltb mid_x_diff char_width_threshold then Ok true
      else
        let end_x_diff := Z.abs (vb_end_x current_vb - vb_end_x ref_vb) in
        if Py.Qltb (inject_Z end_x_diff) char_width_threshold then Ok true
        else Ok false.

Fixpoint add_to_first_horizontal_bucket (horizontal_buckets : list (list VBucket))
    (current_vb : VBucket) : result (option (list (list VBucket))) :=
  match horizontal_buckets with
  | [] => Ok None
  | h_bucket :: rest =>
      ok <~ should_add_to_horizontal_bucket h_bucket current_vb ;;
      if ok : bool then Ok (Some ((h_bucket ++ [current_vb]) :: rest))
      else
        r <~ add_to_first_horizontal_bucket rest current_vb ;;
        Ok (option_map (cons h_bucket) r)
  end.

Definition place_vertical_bucket (horizontal_buckets : list (list VBucket))
    (current_vb : VBucket) : result (list (list VBucket)) :=
  r <~ add_to_first_horizontal_bucket horizontal_buckets current_vb ;;
  match r with
  | Some buckets' => Ok buckets'
  | None => Ok (horizontal_buckets ++ [[current_vb]])
  end.

Definition create_horizontal_buckets (vertical_buckets : list VBucket)
  : result (list (list VBucket)) :=
  match vertical_buckets with
  | [] => Ok []
  | first :: rest => foldM place_vertical_bucket rest [[first]]
  end.

Definition default_page_width : Z := 2550.
Definition default_page_height : Z := 3300.

(** [int(round((coordinate / page_dimension) * 100))]. *)
Definition normalize_coordinate (coordinate page_dimension : Z) : Z :=
  Py.round (Py.div coordinate page_dimension * 100)%Q.

Definition normalize_bucket_coordinates (bucket_data : list HBucketInfo)
    (page_width page_height : Z) : list HBucket :=
  let page_width := if (page_width =? 0)%Z then 2550%Z else page_width in
  let page_height := if (page_height =? 0)%Z then 3300%Z else page_height in
  map (fun bucket =>
         mkHBucket bucket
           (normalize_coordinate (hb_start_x bucket) page_width)
           (normalize_coordinate (hb_end_x bucket) page_width)
           (normalize_coordinate (hb_start_y bucket) page_height)
           (normalize_coordinate (hb_end_y bucket) page_height))
      bucket_data.

Definition h_bucket_info (idx : nat) (h_bucket : list VBucket) : result HBucketInfo :=
  let num_vertical_buckets := length h_bucket in
  let num_text_blocks := sum_list (map num_blocks h_bucket) in
  bucket_start_x <~ of_option ValueError (Py.min_Z (map vb_start_x h_bucket)) ;;
  bucket_end_x <~ of_option ValueError (Py.max_Z (map vb_end_x h_bucket)) ;;
  bucket_start_y <~ of_option ValueError (Py.min_Z (map vb_start_y h_bucket)) ;;
  bucket_end_y <~ of_option ValueError (Py.max_Z (map vb_end_y h_bucket)) ;;
  let bucket_mid_x := Py.div (bucket_start_x + bucket_end_x) 2 in
  let bucket_mid_y := Py.div (bucket_start_y + bucket_end_y) 2 in
  bucket_min_mid_y_x <~ of_option ValueError (Py.min_Q (map vb_min_mid_y_x h_bucket)) ;;
  Ok (mkHBucketInfo idx num_vertical_buckets num_text_blocks
        bucket_start_x bucket_end_x bucket_start_y bucket_end_y
        bucket_mid_x bucket_mid_y bucket_min_mid_y_x
        (bucket_end_x - bucket_start_x) (bucket_end_y - bucket_start_y)
        h_bucket).

Record HorizontalBucketPage : Type := mkHorizontalBucketPage {
  total_text_blocks : nat;
  total_vertical_buckets : nat;
  total_horizontal_buckets : nat;
  horizontal_buckets : list HBucket;
  adaptive_thresholds : option Thresholds
}.

Definition process_page_horizontal_buckets (page : Stage7.BucketPage)
  : result HorizontalBucketPage :=
  let vertical_buckets := Stage7.buckets page in
  horizontal_buckets <~ create_horizontal_buckets vertical_buckets ;;
  bucket_data <~ Stage7.mapM_enumerate h_bucket_info 0 horizontal_buckets ;;
  let total_vertical_buckets := sum_list (map num_vertical_buckets bucket_data) in
  let total_text_blocks := sum_list (map num_text_blocks bucket_data) in
  let bucket_data := Py.sorted hb_min_mid_y_x bucket_data in
  let bucket_data :=
    normalize_bucket_coordinates bucket_data default_page_width default_page_height in
  Ok (mkHorizontalBucketPage total_text_blocks total_vertical_buckets
        (length horizontal_buckets) bucket_data (Stage7.adaptive_thresholds page)).

End Stage8.

(* ===================================================================== *)
(** ** Stage 9: vertical column stacking (Reorderer) *)
(* ===================================================================== *)

Module Stage9.

Definition default_threshold : Q := 3.

Definition is_vertically_aligned (ref_bucket current_bucket : HBucket)
    (threshold : Q) : bool :=
  let left_diff := Z.abs (left_edge current_bucket - left_edge ref_bucket) in
  let right_diff := Z.abs (right_edge current_bucket - right_edge ref_bucket) in
  Py.Qleb (inject_Z left_diff) threshold || Py.Qleb (inject_Z right_diff) threshold.

Definition is_vertically_close (ref_bucket current_bucket : HBucket)
    (threshold : Q) : bool :=
  let vertical_gap := (top_edge current_bucket - bottom_edge ref_bucket)%Z in
  Py.Qleb (inject_Z vertical_gap) threshold.

(** The condition of the [if] in the inner loop. *)
Definition stacks_under (ref_bucket current_bucket : HBucket) : bool :=
  is_vertically_aligned ref_bucket current_bucket default_threshold
  && is_vertically_close ref_bucket current_bucket default_threshold.

(** [while current_index < len(buckets)]; returns the list and the final
    [ref_index]. *)
Fixpoint stack_scan (fuel : nat) (buckets : list HBucket) (ref_index : nat)
    (ref_bucket : HBucket) (current_index : nat) : result (list HBucket * nat) :=
  match fuel with
  | 0 => OutOfFuel
  | S fuel' =>
      match buckets !! current_index with
      | None => Ok (buckets, ref_index)
      | Some current_bucket =>
          if stacks_under ref_bucket current_bucket then
            let buckets := delete current_index buckets in
            let buckets := Py.list_insert_at (ref_index + 1) current_bucket buckets in
            let ref_index := ref_index + 1 in
            match buckets !! ref_index with
            | None => Raise IndexError
            | Some ref_bucket =>
                stack_scan fuel' buckets ref_index ref_bucket (ref_index + 1)
            end
          else stack_scan fuel' buckets ref_index ref_bucket (current_index + 1)
      end
  end.

Definition scan_fuel (len : nat) : nat := S len * S len.

(** [while ref_index < len(buckets)]. *)
Fixpoint stack_loop (fuel : nat) (buckets : list HBucket) (ref_index : nat)
  : result (list HBucket) :=
  match fuel with
  | 0 => OutOfFuel
  | S fuel' =>
      match buckets !! ref_index with
      | None => Ok buckets
      | Some ref_bucket =>
          st <~ stack_scan (scan_fuel (length buckets)) buckets ref_index
                  ref_bucket (ref_index + 1) ;;
          stack_loop fuel' st.1 (st.2 + 1)
      end
  end.

Definition vertical_column_stack_sort (horizontal_buckets : list HBucket)
  : result (list HBucket) :=
  match horizontal_buckets with
  | [] => Ok []
  | _ => stack_loop (S (length horizontal_buckets)) horizontal_buckets 0
  end.

Definition set_horizontal_bucket_id (idx : nat) (bucket : HBucket) : HBucket :=
  let i := hb_info bucket in
  mkHBucket
    (mkHBucketInfo idx (num_vertical_buckets i) (num_text_blocks i)
       (hb_start_x i) (hb_end_x i) (hb_start_y i) (hb_end_y i)
       (hb_mid_x i) (hb_mid_y i) (hb_min_mid_y_x i) (hb_width i) (hb_height i)
       (vertical_buckets i))
    (left_edge bucket) (right_edge bucket) (top_edge bucket) (bottom_edge bucket).

Definition process_page (page : Stage8.HorizontalBucketPage)
  : result Stage8.HorizontalBucketPage :=
  reordered_buckets <~ vertical_column_stack_sort (Stage8.horizontal_buckets page) ;;
  let reordered_buckets := imap set_horizontal_bucket_id reordered_buckets in
  Ok (Stage8.mkHorizontalBucketPage
        (Stage8.total_text_blocks page) (Stage8.total_vertical_buckets page)
        (Stage8.total_horizontal_buckets page) reordered_buckets
        (Stage8.adaptive_thresholds page)).

End Stage9.

(* ===================================================================== *)
(** ** The pipeline of one page *)
(* ===================================================================== *)

Module Pipeline.

(** Stages 4 to 9 on one page; the second component is the ghost count
    of the merges of stage 6. *)
Definition run_counted (quadrants : list Quadrant) (min_confidence : Q)
  : result (Stage8.HorizontalBucketPage * nat) :=
  let merged := Stage4.merge_page_quadrants quadrants min_confidence in
  let metrics := Stage5.calculate_metrics_for_page merged in
  lines <~ Stage6.merge_horizontal_counted (Stage5.metrics_blocks metrics)
             (Stage5.adaptive_thresholds metrics) ;;
  vertical <~ Stage7.process_page_buckets lines.1 ;;
  horizontal <~ Stage8.process_page_horizontal_buckets vertical ;;
  stacked <~ Stage9.process_page horizontal ;;
  Ok (stacked, lines.2).

Definition run (quadrants : list Quadrant) (min_confidence : Q)
  : result Stage8.HorizontalBucketPage :=
  r <~ run_counted quadrants min_confidence ;; Ok r.1.

(** The confidence-surviving fragments of a page, in input order. *)
Definition surviving (quadrants : list Quadrant) (min_confidence : Q) : list Block :=
  flat_map (Stage4.filtered_blocks min_confidence) quadrants.

(** The characters of the text fields. *)
Definition block_chars (b : Block) : list ascii := list_ascii_of_string (text b).
Definition blocks_chars (l : list Block) : list ascii := flat_map block_chars l.
Definition vbucket_chars (v : VBucket) : list ascii := blocks_chars (blocks v).
Definition hbucket_chars (h : HBucket) : list ascii :=
  flat_map vbucket_chars (vertical_buckets (hb_info h)).
Definition segments_chars (l : list HBucket) : list ascii := flat_map hbucket_chars l.

End Pipeline.

(* ===================================================================== *)
(** ** The rules of the specification, in its own words *)
(* ===================================================================== *)

Module Spec.

(** §4.3: a character width, "replaced by 36 when undefined or zero". *)
Definition char_width_36 (b : Block) : Z :=
  match character_width b with
  | None => 36
  | Some w => if decide (w = 0%Z) then 36%Z else w
  end.

(** §4.3: the horizontal gap, "whichever box is further left having its
    right edge measured against the other's left edge". *)
Definition gap (reference candidate : Block) : Z :=
  if decide (start_x candidate < start_x reference)%Z
  then (start_x reference - end_x candidate)%Z
  else (start_x candidate - end_x reference)%Z.

(** §4.3: the merge rule when adaptive thresholds are present. *)
Definition merges (th : Thresholds) (reference candidate : Block) : Prop :=
  (inject_Z (Z.abs (mid_y candidate - mid_y reference))
     < vertical_merge_tolerance th)%Q
  /\ (inject_Z (gap reference candidate)
        < 3 * ((inject_Z (char_width_36 reference)
                + inject_Z (char_width_36 candidate)) / 2))%Q.

(** §4.4: the membership test of the Block Builder against the last Line
    of a Block. *)
Definition block_accepts (th : Thresholds) (last_line line : Block) : Prop :=
  (inject_Z (Z.abs (mid_y line - mid_y last_line))
     < vertical_bucket_tolerance th)%Q
  /\ ((inject_Z (Z.abs (start_x line - start_x last_line))
         < 2 * horizontal_bucket_tolerance th)%Q
      \/ (inject_Z (Z.abs (mid_x line - mid_x last_line))
            < horizontal_bucket_tolerance th)%Q
      \/ (inject_Z (Z.abs (end_x line - end_x last_line))
            < horizontal_bucket_tolerance th)%Q).

(** The last member of group [g] does not accept [x]. *)
Definition rejects {A} (accepts : A -> A -> Prop) (x : A) (g : list A) : Prop :=
  forall m, last g = Some m -> ~ accepts m x.

(** First-fit placement of [x]: it joins the first group, in creation
    order, whose last member accepts it; otherwise it starts a new group. *)
Definition first_fit_step {A} (accepts : A -> A -> Prop)
    (groups : list (list A)) (x : A) (groups' : list (list A)) : Prop :=
  (exists pre g last_member post,
      groups = pre ++ g :: post
      /\ last g = Some last_member
      /\ accepts last_member x
      /\ Forall (rejects accepts x) pre
      /\ groups' = pre ++ (g ++ [x]) :: post)
  \/ (Forall (rejects accepts x) groups
      /\ groups' = groups ++ [[x]]).

(** §4.5: the averages of a Block over its Lines. *)
Definition avg_height (v : VBucket) : Q :=
  match blocks v with
  | [] => 50%Q
  | bs => (inject_Z (Py.sum_Z (map height bs)) / inject_Z (Z.of_nat (length bs)))%Q
  end.

Definition avg_char_width (v : VBucket) : Q :=
  match blocks v with
  | [] => 20%Q
  | bs =>
      (inject_Z (Py.sum_Z (map (fun b => default 0%Z (character_width b)) bs))
       / inject_Z (Z.of_nat (length bs)))%Q
  end.

(** §4.5 with the three horizontal tests of §4.4; [start_factor] is the
    factor on the tolerance of the [start_x] test (2 in §4.4). *)
Definition segment_accepts (start_factor : Q) (last_block block : VBucket) : Prop :=
  let tolerance := ((avg_char_width last_block + avg_char_width block) / 2)%Q in
  (inject_Z (vb_start_y block - vb_end_y last_block)
     < (avg_height last_block + avg_height block) / 2)%Q
  /\ ((inject_Z (Z.abs (vb_start_x block - vb_start_x last_block))
         < start_factor * tolerance)%Q
      \/ (Qabs (vb_mid_x block - vb_mid_x last_block) < tolerance)%Q
      \/ (inject_Z (Z.abs (vb_end_x block - vb_end_x last_block)) < tolerance)%Q).

(** §4.6: the two tests of the Reorderer. *)
Definition column_aligned (ref current : HBucket) : Prop :=
  (Z.abs (left_edge current - left_edge ref) <= 3)%Z
  \/ (Z.abs (right_edge current - right_edge ref) <= 3)%Z.

Definition vertically_close (ref current : HBucket) : Prop :=
  (top_edge current - bottom_edge ref <= 3)%Z.

Definition stacks (ref current : HBucket) : Prop :=
  column_aligned ref current /\ vertically_close ref current.

(** The normalised edges of a Segment: left, right, top, bottom. *)
Definition edges (h : HBucket) : Z * Z * Z * Z :=
  (left_edge h, right_edge h, top_edge h, bottom_edge h).

(** The ids of a list of Segments, in order. *)
Definition segment_ids (l : list HBucket) : list nat :=
  map (fun h => horizontal_bucket_id (hb_info h)) l.

(** A fragment with a text of at least one character, and a Line with
    a character width. *)
Definition has_text (b : Block) : Prop := (0 < char_count b)%Z.
Definition has_width (b : Block) : Prop := character_width b <> None.

(** Every Line of a Block has a character width. *)
Definition widths_defined (v : VBucket) : Prop :=
  Forall has_width (blocks v).

End Spec.

(* ===================================================================== *)
(** ** First-fit grouping, once for both builders *)
(* ===================================================================== *)

(** [Stage7.create_buckets] and [Stage8.create_horizontal_buckets] are
    the same loop over two membership tests; this is the loop over an
    arbitrary test, to reason about both at once. *)
Module FirstFit.

Section Generic.
Context {A : Type} (test : list A -> A -> result bool).

Fixpoint add_to_first (groups : list (list A)) (x : A)
  : result (option (list (list A))) :=
  match groups with
  | [] => Ok None
  | g :: rest =>
      ok <~ test g x ;;
      if ok : bool then Ok (Some ((g ++ [x]) :: rest))
      else
        r <~ add_to_first rest x ;;
        Ok (option_map (cons g) r)
  end.

Definition place (groups : list (list A)) (x : A) : result (list (list A)) :=
  r <~ add_to_first groups x ;;
  match r with
  | Some groups' => Ok groups'
  | None => Ok (groups ++ [[x]])
  end.

Definition build (l : list A) : result (list (list A)) :=
  match l with
  | [] => Ok []
  | first :: rest => foldM place rest [[first]]
  end.
End Generic.

(** The two tests. *)
Definition bucket_test (thresholds : option Thresholds)
    (bucket : list Block) (current_element : Block) : result bool :=
  bucket_last <~ of_option IndexError (last bucket) ;;
  Stage7.should_add_to_bucket bucket_last current_element thresholds.

Definition horizontal_bucket_test (h_bucket : list VBucket) (current_vb : VBucket)
  : result bool :=
  Stage8.should_add_to_horizontal_bucket h_bucket current_vb.

End FirstFit.

(* ===================================================================== *)
(** ** Concrete pages *)
(* ===================================================================== *)

Module Examples.

(** A block as [run_easyocr_on_quadrant] of stage 3 builds it from a
    bounding box, a text and a confidence. *)
Definition ocr_block (t : string) (words : Z) (sx ex sy ey : Z) (conf : Q) : Block :=
  let my := Py.round (Py.div (sy + ey) 2) in
  mkBlock t sx ex sy ey (Py.round (Py.div (sx + ex) 2)) my
    (inject_Z my + Py.div sx 50)%Q (ey - sy) conf
    (Z.of_nat (String.length t)) words ""
    None None None None None None None None.

(** Scenario A on a whole page: two words of one line in two tiles, and
    a low-confidence detection. *)
Definition hello_page : list Quadrant :=
  [ mkQuadrant "top_left"
      [ ocr_block "Hello" 1 200 400 100 140 (9 # 10);
        ocr_block "~" 1 10 20 10 20 (1 # 10) ];
    mkQuadrant "top_right"
      [ ocr_block "World" 1 420 600 104 144 (8 # 10) ] ].

(** Two detections without text on one line, far apart. *)
Definition blank_page : list Quadrant :=
  [ mkQuadrant "top_left"
      [ ocr_block "" 0 0 100 0 40 (9 # 10);
        ocr_block "" 0 2000 2100 0 40 (9 # 10) ] ].

(** A page whose only detection is below the confidence floor. *)
Definition noise_page : list Quadrant :=
  [ mkQuadrant "top_left" [ ocr_block "~" 1 10 20 10 20 (1 # 10) ] ].

(** Two fragments whose order by [mid_y_x] is lost by the rounding of
    the halved coordinates. *)
Definition jitter_page : list Quadrant :=
  [ mkQuadrant "top_left"
      [ ocr_block "A" 1 0 40 93 113 (9 # 10);
        ocr_block "B" 1 60 100 92 112 (9 # 10) ] ].

(** Three lines as stage 5 hands them to the Line Merger: the last two
    merge, and only the merged line is close enough to the first. *)
Definition restart_lines : list Block :=
  Stage5.calculate_block_metrics
    [ ocr_block "AAAAA" 1 0 100 0 40 (9 # 10);
      ocr_block "CCCC" 1 170 190 0 60 (9 # 10);
      ocr_block "BBBB" 1 200 1000 69 71 (9 # 10) ].

Definition restart_thresholds : option Thresholds :=
  Some (Stage5.calculate_adaptive_thresholds restart_lines).

(** The second of them, the reference at position 1. *)
Definition restart_reference : Block :=
  Stage5.block_metrics (Some (ocr_block "AAAAA" 1 0 100 0 40 (9 # 10)))
    (ocr_block "CCCC" 1 170 190 0 60 (9 # 10)).

(** The third of them, the candidate at position 2. *)
Definition restart_candidate : Block :=
  Stage5.block_metrics (Some (ocr_block "CCCC" 1 170 190 0 60 (9 # 10)))
    (ocr_block "BBBB" 1 200 1000 69 71 (9 # 10)).

(** A line of stage 6 with the given box, for the buckets below. *)
Definition line (t : string) (sx ex sy ey : Z) : Block :=
  Stage5.block_metrics None (ocr_block t 1 sx ex sy ey (9 # 10)).

(** Two Blocks, the second indented by 15 pixels under the first, with
    an average character width of 10. *)
Definition indent_upper : VBucket :=
  mkVBucket 0 1 100 300 100 120 110 200 110 112 200 20
    [ line "aaaaaaaaaaaaaaaaaaaa" 100 300 100 120 ].
Definition indent_lower : VBucket :=
  mkVBucket 1 1 115 505 125 145 135 310 135 (137 # 1) 390 20
    [ line "bbbbbbbbbbbbbbbbbbbbbbbbbbbbbbbbbbbbbbb" 115 505 125 145 ].

(** A Block that reaches below the reference page height of 3300. *)
Definition tall_page : Stage7.BucketPage :=
  Stage7.mkBucketPage 1 1
    [ mkVBucket 0 1 100 300 3380 3400 3390 200 3390 3392 200 20
        [ line "footer text" 100 300 3380 3400 ] ]
    None.

(** A Segment with the given normalised edges. *)
Definition segment (id : nat) (l r t b : Z) : HBucket :=
  mkHBucket (mkHBucketInfo id 0 0 0 0 0 0 0 0 0 0 0 []) l r t b.

(** Scenario C. *)
Definition column_top : HBucket := segment 0 10 45 10 30.
Definition column_bottom : HBucket := segment 2 11 44 32 50.
(** A narrow inset beside the top of the column, whose right edge is
    aligned with the column's. *)
Definition inset : HBucket := segment 1 30 46 15 20.
(** A Segment of another column. *)
Definition other_column : HBucket := segment 1 55 90 10 50.
(** A centred header that matches nothing below it. *)
Definition header : HBucket := segment 0 30 70 2 5.
(** A Segment that lies above [column_top] and is aligned with it. *)
Definition above_top : HBucket := segment 2 10 45 2 8.

End Examples.

(* ===================================================================== *)
(** ** Stage 3: the detections and their place on the canvas *)
(* ===================================================================== *)

(** [stage_3_easyocr_extraction.py] without the OCR itself: the
    detections of the reader are an input.  Stage 4 reads the quadrants
    that stage 3 writes. *)
Module Stage3.

(** [int(x)] on a float: truncation towards zero. *)
Definition py_int (q : Q) : Z := if Py.Qltb q 0 then Qceiling q else Qfloor q.

(** The body of the loop of [run_easyocr_on_quadrant] for one detection
    [(bbox, text, confidence)] of the reader; [words] stands for
    [len(text.split())].  [min] and [max] raise [ValueError] on a
    bounding box without points. *)
Definition format_detection (bbox : list (Q * Q)) (t : string) (words : Z)
    (conf : Q) : result Block :=
  let bbox_clean := map (fun p => (py_int p.1, py_int p.2)) bbox in
  start_x <~ of_option ValueError (Py.min_Z (map fst bbox_clean)) ;;
  end_x <~ of_option ValueError (Py.max_Z (map fst bbox_clean)) ;;
  start_y <~ of_option ValueError (Py.min_Z (map snd bbox_clean)) ;;
  end_y <~ of_option ValueError (Py.max_Z (map snd bbox_clean)) ;;
  let mid_x := Py.div (start_x + end_x) 2 in
  let mid_y := Py.div (start_y + end_y) 2 in
  let height := (end_y - start_y)%Z in
  let mid_y_rounded := Py.round mid_y in
  let start_x_rounded := start_x in
  let mid_y_x := (inject_Z mid_y_rounded + Py.div start_x_rounded 50)%Q in
  Ok (mkBlock t start_x_rounded end_x start_y end_y (Py.round mid_x)
        mid_y_rounded mid_y_x height conf (Z.of_nat (String.length t)) words ""
        None None None None None None None None).

(** The updates of one block in [adjust_right_quadrant_x_coordinates]
    and in [adjust_bottom_quadrant_y_coordinates]. *)
Definition shift_x (left_quadrant_width : Z) (b : Block) : Block :=
  let sx := (start_x b + left_quadrant_width)%Z in
  mkBlock (text b) sx (end_x b + left_quadrant_width) (start_y b) (end_y b)
    (mid_x b + left_quadrant_width) (mid_y b)
    (inject_Z (mid_y b) + Py.div sx 50)%Q
    (height b) (confidence b) (char_count b) (word_count b) (source_quadrant b)
    (width b) (character_width b)
    (prev_mid_y_diff b) (prev_horizontal_gap b) (prev_vertical_gap b)
    (prev_overlap_x b) (prev_overlap_y b) (prev_distance b).

Definition shift_y (top_quadrant_height : Z) (b : Block) : Block :=
  let my := (mid_y b + top_quadrant_height)%Z in
  mkBlock (text b) (start_x b) (end_x b)
    (start_y b + top_quadrant_height) (end_y b + top_quadrant_height)
    (mid_x b) my
    (inject_Z my + Py.div (start_x b) 50)%Q
    (height b) (confidence b) (char_count b) (word_count b) (source_quadrant b)
    (width b) (character_width b)
    (prev_mid_y_diff b) (prev_horizontal_gap b) (prev_vertical_gap b)
    (prev_overlap_x b) (prev_overlap_y b) (prev_distance b).

(** The dict that stage 3 keeps for one tile (its copies of the tile
    metadata are left out). *)
Record QuadrantResult : Type := mkQuadrantResult {
  qr_name : string;
  min_x : option Z;
  max_x : option Z;
  min_y : option Z;
  max_y : option Z;
  qr_blocks : list Block
}.

(** [a += w] on the two bounds, guarded by [if a is not None]; the
    second bound raises [TypeError] when it is [None]. *)
Definition shift_bounds (w : Z) (lo hi : option Z) : result (option Z * option Z) :=
  match lo with
  | None => Ok (lo, hi)
  | Some l => h <~ of_option TypeError hi ;; Ok (Some (l + w)%Z, Some (h + w)%Z)
  end.

Definition adjust_right_quadrant_x_coordinates (quadrant_result : QuadrantResult)
    (left_quadrant_width : Z) : result QuadrantResult :=
  let blocks := map (shift_x left_quadrant_width) (qr_blocks quadrant_result) in
  b <~ shift_bounds left_quadrant_width (min_x quadrant_result)
         (max_x quadrant_result) ;;
  Ok (mkQuadrantResult (qr_name quadrant_result) b.1 b.2
        (min_y quadrant_result) (max_y quadrant_result) blocks).

Definition adjust_bottom_quadrant_y_coordinates (quadrant_result : QuadrantResult)
    (top_quadrant_height : Z) : result QuadrantResult :=
  let blocks := map (shift_y top_quadrant_height) (qr_blocks quadrant_result) in
  b <~ shift_bounds top_quadrant_height (min_y quadrant_result)
         (max_y quadrant_result) ;;
  Ok (mkQuadrantResult (qr_name quadrant_result)
        (min_x quadrant_result) (max_x quadrant_result) b.1 b.2 blocks).

(** One tile as the loop of [extract_all_quadrants] sees it: its name
    and size from the metadata of stage 2, and the blocks that
    [run_easyocr_on_quadrant] returns for its image (tiles whose image
    is missing are skipped by the loop and are not in the list). *)
Record QuadrantScan : Type := mkQuadrantScan {
  scan_name : string;
  width_px : Z;
  height_px : Z;
  ocr_blocks : list Block
}.

(** The state of the loop over the tiles of a page. *)
Record GridState : Type := mkGridState {
  left_quadrant_width : option Z;
  top_quadrant_height : option Z;
  placed : list QuadrantResult
}.

(** [name in [a, b]]. *)
Definition name_in (name : string) (names : list string) : bool :=
  existsb (String.eqb name) names.

(** The value of [x] when [x] is truthy: neither [None] nor [0]. *)
Definition truthy (x : option Z) : option Z :=
  match x with
  | Some v => if (v =? 0)%Z then None else Some v
  | None => None
  end.

(** The body of [for quadrant_info in quadrants]. *)
Definition place_quadrant (st : GridState) (q : QuadrantScan) : result GridState :=
  let quadrant_name := scan_name q in
  let quadrant_result :=
    mkQuadrantResult quadrant_name
      (Py.min_Z (map start_x (ocr_blocks q))) (Py.max_Z (map end_x (ocr_blocks q)))
      (Py.min_Z (map start_y (ocr_blocks q))) (Py.max_Z (map end_y (ocr_blocks q)))
      (ocr_blocks q) in
  let left_quadrant_width :=
    if name_in quadrant_name ["top_left"; "bottom_left"]%string
    then Some (width_px q) else left_quadrant_width st in
  let top_quadrant_height :=
    if name_in quadrant_name ["top_left"; "top_right"]%string
    then Some (height_px q) else top_quadrant_height st in
  quadrant_result <~
    (match name_in quadrant_name ["top_right"; "bottom_right"]%string,
           truthy left_quadrant_width with
     | true, Some w => adjust_right_quadrant_x_coordinates quadrant_result w
     | _, _ => Ok quadrant_result
     end) ;;
  quadrant_result <~
    (match name_in quadrant_name ["bottom_left"; "bottom_right"]%string,
           truthy top_quadrant_height with
     | true, Some h => adjust_bottom_quadrant_y_coordinates quadrant_result h
     | _, _ => Ok quadrant_result
     end) ;;
  Ok (mkGridState left_quadrant_width top_quadrant_height
        (placed st ++ [quadrant_result])).

(** The quadrants of one page of [extract_all_quadrants]. *)
Definition place_quadrants (quadrants : list QuadrantScan)
  : result (list QuadrantResult) :=
  st <~ foldM place_quadrant quadrants (mkGridState None None []) ;;
  Ok (placed st).

(** The page as stage 4 reads it. *)
Definition to_quadrant (r : QuadrantResult) : Quadrant :=
  mkQuadrant (qr_name r) (qr_blocks r).

End Stage3.

(* ===================================================================== *)
(** ** Stage 10: rows and categories of the Segments *)
(* ===================================================================== *)

(** The helpers of [stage_10_llm_context_chunks.py] that read the edges
    of the Segments of stage 9. *)
Module Stage10.

Definition derive_position (left_edge right_edge : Z) : string :=
  let mid_x := Py.div (left_edge + right_edge) 2 in
  if Py.Qltb mid_x 33 then "left"
  else if Py.Qltb mid_x 67 then "center"
  else "right".

Definition derive_width_category (left_edge right_edge : Z) : string :=
  let width := (right_edge - left_edge)%Z in
  if (width <? 40)%Z then "narrow"
  else if (width <? 70)%Z then "medium"
  else "wide".

(** The state of the loop of [calculate_y_groups]: the dict (its items
    in insertion order; the keys are the distinct indices of the
    buckets), the current group id and the [top_edge] that opened the
    current group. *)
Definition RowState : Type := list (nat * nat) * nat * option Z.

(** The body of [for idx in sorted_indices], on the index and its bucket. *)
Definition assign_row (tolerance : Z) (st : RowState) (item : nat * HBucket)
  : RowState :=
  let '(y_groups, current_group_id, current_group_y) := st in
  let idx := item.1 in
  let bucket_y := top_edge item.2 in
  match current_group_y with
  | None => (y_groups ++ [(idx, current_group_id)], current_group_id, Some bucket_y)
  | Some y =>
      if (Z.abs (bucket_y - y) <=? tolerance)%Z
      then (y_groups ++ [(idx, current_group_id)], current_group_id, Some y)
      else (y_groups ++ [(idx, current_group_id + 1)], current_group_id + 1,
            Some bucket_y)
  end.

(** [sorted(range(len(buckets)), key=lambda i: buckets[i]['top_edge'])],
    each index with its bucket. *)
Definition sorted_indices (horizontal_buckets : list HBucket) : list (nat * HBucket) :=
  Py.sorted (fun item => inject_Z (top_edge item.2)) (imap pair horizontal_buckets).

Definition calculate_y_groups (horizontal_buckets : list HBucket) (tolerance : Z)
  : list (nat * nat) :=
  match horizontal_buckets with
  | [] => []
  | _ => (fold_left (assign_row tolerance) (sorted_indices horizontal_buckets)
            ([], 0, None)).1.1
  end.

Definition default_tolerance : Z := 5.

(** [y_group_mapping.get(idx, 0)]. *)
Definition y_group_of (y_groups : list (nat * nat)) (idx : nat) : nat :=
  match list_find (fun item => item.1 = idx) y_groups with
  | Some (_, item) => item.2
  | None => 0
  end.

End Stage10.

(* ===================================================================== *)
(** ** Geometry of the boxes *)
(* ===================================================================== *)

(** Properties of the boxes that the stages are expected to keep; none
    of them is checked by the code. *)
Module Box.

(** The left edge is not right of the right edge, the top edge not
    below the bottom edge. *)
Definition ordered (b : Block) : Prop :=
  (start_x b <= end_x b)%Z /\ (start_y b <= end_y b)%Z.

(** The box lies on a canvas of [w] by [h] pixels. *)
Definition inside (w h : Z) (b : Block) : Prop :=
  (0 <= start_x b)%Z /\ (start_x b <= end_x b)%Z /\ (end_x b <= w)%Z
  /\ (0 <= start_y b)%Z /\ (start_y b <= end_y b)%Z /\ (end_y b <= h)%Z.

(** The sort key is the one of the coordinates, as stage 3 computes it:
    [mid_y + start_x / 50]. *)
Definition keyed (b : Block) : Prop :=
  (mid_y_x b == inject_Z (mid_y b) + Py.div (start_x b) 50)%Q.

(** The two coordinates of the key are even. *)
Definition even_key (b : Block) : Prop :=
  Z.even (mid_y b) = true /\ Z.even (start_x b) = true.

(** [char_count] is the length of the text, as stage 3 sets it. *)
Definition counted (b : Block) : Prop :=
  char_count b = Z.of_nat (String.length (text b)).

(** What stage 5 leaves alone. *)
Definition payload (b : Block)
  : string * (Z * Z * Z * Z) * (Z * Z) * Z * Q * (Z * Z) * string :=
  (text b, (start_x b, end_x b, start_y b, end_y b), (mid_x b, mid_y b),
   height b, confidence b, (char_count b, word_count b), source_quadrant b).

(** Two predecessors with the same box and centre (stage 5 reads
    nothing else of the predecessor). *)
Definition same_box (p q : option Block) : Prop :=
  option_map (fun b => (start_x b, end_x b, start_y b, end_y b, mid_x b, mid_y b)) p
  = option_map (fun b => (start_x b, end_x b, start_y b, end_y b, mid_x b, mid_y b)) q.

(** The Line at position [k] has no candidate in its lookahead window. *)
Definition quiet (thresholds : option Thresholds) (l : list Block) (k : nat) : Prop :=
  forall ref, l !! k = Some ref ->
    Stage6.scan_lookahead thresholds ref l (k + 1)
      (Stage6.window_count k (length l)) = None.

(** [inside] for the boxes of the Blocks and of the Segments. *)
Definition v_inside (w h : Z) (v : VBucket) : Prop :=
  (0 <= vb_start_x v)%Z /\ (vb_start_x v <= vb_end_x v)%Z /\ (vb_end_x v <= w)%Z
  /\ (0 <= vb_start_y v)%Z /\ (vb_start_y v <= vb_end_y v)%Z /\ (vb_end_y v <= h)%Z.

Definition h_inside (w h : Z) (i : HBucketInfo) : Prop :=
  (0 <= hb_start_x i)%Z /\ (hb_start_x i <= hb_end_x i)%Z /\ (hb_end_x i <= w)%Z
  /\ (0 <= hb_start_y i)%Z /\ (hb_start_y i <= hb_end_y i)%Z /\ (hb_end_y i <= h)%Z.

(** The normalised edges of a Segment are ordered percentages. *)
Definition percent (s : HBucket) : Prop :=
  (0 <= left_edge s)%Z /\ (left_edge s <= right_edge s)%Z /\ (right_edge s <= 100)%Z
  /\ (0 <= top_edge s)%Z /\ (top_edge s <= bottom_edge s)%Z /\ (bottom_edge s <= 100)%Z.

(** A Segment without its id. *)
Definition content (s : HBucket)
  : (nat * nat) * (Z * Z * Z * Z) * (Q * Q * Q) * (Z * Z) * list VBucket
    * (Z * Z * Z * Z) :=
  ((num_vertical_buckets (hb_info s), num_text_blocks (hb_info s)),
   (hb_start_x (hb_info s), hb_end_x (hb_info s),
    hb_start_y (hb_info s), hb_end_y (hb_info s)),
   (hb_mid_x (hb_info s), hb_mid_y (hb_info s), hb_min_mid_y_x (hb_info s)),
   (hb_width (hb_info s), hb_height (hb_info s)),
   vertical_buckets (hb_info s),
   Spec.edges s).

(** The box of a Block covers the Line [b]. *)
Definition covers (v : VBucket) (b : Block) : Prop :=
  (vb_start_x v <= start_x b)%Z /\ (end_x b <= vb_end_x v)%Z
  /\ (vb_start_y v <= start_y b)%Z /\ (end_y b <= vb_end_y v)%Z.

(** The box of a Segment covers the Block [v]. *)
Definition h_covers (i : HBucketInfo) (v : VBucket) : Prop :=
  (hb_start_x i <= vb_start_x v)%Z /\ (vb_end_x v <= hb_end_x i)%Z
  /\ (hb_start_y i <= vb_start_y v)%Z /\ (vb_end_y v <= hb_end_y i)%Z.

(** The box of the Block [v] is the bounding box of its Lines: it covers
    each of them and each of its sides is a side of one of them. *)
Definition bounding (v : VBucket) : Prop :=
  blocks v <> [] /\ num_blocks v = length (blocks v)
  /\ Forall (covers v) (blocks v)
  /\ (exists b, b ∈ blocks v /\ start_x b = vb_start_x v)
  /\ (exists b, b ∈ blocks v /\ end_x b = vb_end_x v)
  /\ (exists b, b ∈ blocks v /\ start_y b = vb_start_y v)
  /\ (exists b, b ∈ blocks v /\ end_y b = vb_end_y v).

(** The same for the box of a Segment and its Blocks, with its counts. *)
Definition h_bounding (i : HBucketInfo) : Prop :=
  vertical_buckets i <> []
  /\ num_vertical_buckets i = length (vertical_buckets i)
  /\ num_text_blocks i = sum_list (map num_blocks (vertical_buckets i))
  /\ Forall (h_covers i) (vertical_buckets i)
  /\ (exists v, v ∈ vertical_buckets i /\ vb_start_x v = hb_start_x i)
  /\ (exists v, v ∈ vertical_buckets i /\ vb_end_x v = hb_end_x i)
  /\ (exists v, v ∈ vertical_buckets i /\ vb_start_y v = hb_start_y i)
  /\ (exists v, v ∈ vertical_buckets i /\ vb_end_y v = hb_end_y i).

(** The edges of a Segment are the corners of its box, normalised
    against a page of [w] by [h] pixels. *)
Definition normalised (w h : Z) (s : HBucket) : Prop :=
  left_edge s = Stage8.normalize_coordinate (hb_start_x (hb_info s)) w
  /\ right_edge s = Stage8.normalize_coordinate (hb_end_x (hb_info s)) w
  /\ top_edge s = Stage8.normalize_coordinate (hb_start_y (hb_info s)) h
  /\ bottom_edge s = Stage8.normalize_coordinate (hb_end_y (hb_info s)) h.

End Box.

(* ===================================================================== *)
(** ** Rows of Segments *)
(* ===================================================================== *)

(** Notions to state what [Stage10.calculate_y_groups] computes. *)
Module Rows.

Definition top_of (item : nat * HBucket) : Z := top_edge item.2.

(** [row] is the entry that the loop wrote for [item]: they stand at
    the same position of the dict and of the sorted list. *)
Definition paired (y_groups : list (nat * nat)) (items : list (nat * HBucket))
    (row : nat * nat) (item : nat * HBucket) : Prop :=
  exists p, y_groups !! p = Some row /\ items !! p = Some item.

Definition sorted_by_top (items : list (nat * HBucket)) : Prop :=
  forall p q a b, p <= q -> items !! p = Some a -> items !! q = Some b ->
                  (top_of a <= top_of b)%Z.

(** Two Segments of one row are at most [tolerance] apart, and a
    Segment of an earlier row lies above a Segment of a later row. *)
Definition rows_ok (tolerance : Z) (y_groups : list (nat * nat))
    (items : list (nat * HBucket)) : Prop :=
  forall r1 i1 r2 i2,
    paired y_groups items r1 i1 -> paired y_groups items r2 i2 ->
    (r1.2 = r2.2 -> (Z.abs (top_of i1 - top_of i2) <= tolerance)%Z)
    /\ (r1.2 < r2.2 -> (top_of i1 < top_of i2)%Z).

(** The state of the loop after the items [items]. *)
Definition state_ok (tolerance : Z) (items : list (nat * HBucket))
    (st : Stage10.RowState) : Prop :=
  let '(y_groups, current_group_id, current_group_y) := st in
  Forall2 (fun row item => row.1 = item.1) y_groups items
  /\ rows_ok tolerance y_groups items
  /\ (forall g, g <= current_group_id -> items <> [] ->
        exists row item, paired y_groups items row item /\ row.2 = g)
  /\ match current_group_y with
     | None => items = [] /\ current_group_id = 0
     | Some y =>
         (exists item, item ∈ items /\ top_of item = y)
         /\ forall row item, paired y_groups items row item ->
              row.2 <= current_group_id
              /\ (row.2 = current_group_id ->
                  (y <= top_of item <= y + tolerance)%Z)
              /\ (row.2 < current_group_id -> (top_of item < y)%Z)
     end.

End Rows.

(* ===================================================================== *)
(** ** More concrete pages *)
(* ===================================================================== *)

Module Cases.

(** The three Lines of [Examples.restart_lines] as a page of stage 6. *)
Definition three_lines_page : Stage6.HorizontalPage :=
  Stage6.mkHorizontalPage 3 Examples.restart_thresholds Examples.restart_lines.

(** The two Blocks of [Examples], as a page of stage 7. *)
Definition indent_page : Stage7.BucketPage :=
  Stage7.mkBucketPage 2 2 [Examples.indent_upper; Examples.indent_lower] None.

(** The Segment box of these two Blocks, as stage 8 computes it. *)
Definition indent_infos : list HBucketInfo :=
  match Stage8.h_bucket_info 0 [Examples.indent_upper; Examples.indent_lower] with
  | Ok info => [info]
  | _ => []
  end.

(** Four tiles of 2550 by 3300 pixels in the order of stage 2, with
    one detection in each of the two tiles on the right. *)
Definition word (t : string) (sx ex sy ey : Q) : list Block :=
  match Stage3.format_detection [(sx, sy); (ex, sy); (ex, ey); (sx, ey)] t 1 (9 # 10)
  with
  | Ok b => [b]
  | _ => []
  end.

Definition empty_tile (name : string) : Stage3.QuadrantScan :=
  Stage3.mkQuadrantScan name 2550 3300 [].
Definition north_east : Stage3.QuadrantScan :=
  Stage3.mkQuadrantScan "top_right" 2550 3300 (word "North" 100 400 200 260).
Definition south_east : Stage3.QuadrantScan :=
  Stage3.mkQuadrantScan "bottom_right" 2550 3300 (word "South" 100 400 200 260).

Definition scanned_page : list Stage3.QuadrantScan :=
  [ empty_tile "top_left"; north_east; empty_tile "bottom_left"; south_east ].

(** Three Segments in two rows. *)
Definition three_rows : list HBucket :=
  [ Examples.segment 0 10 45 10 30; Examples.segment 1 55 90 12 50;
    Examples.segment 2 10 90 60 80 ].

(** Two Segments that do not stack. *)
Definition two_columns : list HBucket :=
  [Examples.column_top; Examples.other_column].

End Cases.

(* ===================================================================== *)
(** ** Basic facts: comparisons, the result monad, sorting *)
(* ===================================================================== *)

Section Basics.

Lemma Qleb_le (a b : Q) : Py.Qleb a b = true <-> (a <= b)%Q.
Proof. apply Qle_bool_iff. Qed.

Lemma Qleb_gt (a b : Q) : Py.Qleb a b = false <-> (b < a)%Q.
Proof.
  unfold Py.Qleb. split; intros H.
  - apply Qnot_le_lt. intros Hle. apply Qle_bool_iff in Hle. congruence.
  - destruct (Qle_bool a b) eqn:E; [|done].
    apply Qle_bool_iff in E. exfalso. by apply (Qlt_not_le b a).
Qed.

Lemma Qltb_lt (a b : Q) : Py.Qltb a b = true <-> (a < b)%Q.
Proof.
  unfold Py.Qltb. rewrite negb_true_iff. apply (Qleb_gt b a).
Qed.

Lemma Qltb_ge (a b : Q) : Py.Qltb a b = false <-> (b <= a)%Q.
Proof.
  unfold Py.Qltb. rewrite negb_false_iff. apply Qle_bool_iff.
Qed.

Lemma bind_Ok {A B} (m : result A) (k : A -> result B) (b : B) :
  bind m k = Ok b <-> exists a, m = Ok a /\ k a = Ok b.
Proof.
  destruct m; simpl; split; try (intros (? & ? & ?)); try done; eauto.
  by simplify_eq.
Qed.

Context {A : Type} (key : A -> Q).

Lemma insert_by_Permutation (x : A) (l : list A) :
  Py.insert_by key x l ≡ₚ x :: l.
Proof.
  induction l as [|y l IH]; simpl; [done|].
  destruct (Py.Qleb _ _); [done|].
  rewrite IH. apply Permutation_swap.
Qed.

Lemma sorted_Permutation (l : list A) : Py.sorted key l ≡ₚ l.
Proof.
  induction l as [|x l IH]; simpl; [done|].
  by rewrite insert_by_Permutation, IH.
Qed.

End Basics.

Section ListFacts.

Context {A : Type}.

Lemma take_delete_le (l : list A) (i j : nat) :
  i <= j -> take i (delete j l) = take i l.
Proof.
  revert i j. induction l as [|x l IH]; intros [|i] [|j] Hij; simpl; try done.
  - lia.
  - f_equal. apply IH. lia.
Qed.

End ListFacts.

Ltac inv_bind H :=
  let a := fresh "r" in
  let Ha := fresh "H" a in
  apply bind_Ok in H; destruct H as (a & Ha & H).

(* ===================================================================== *)
(** ** Stage 6: the merge rule *)
(* ===================================================================== *)

Section MergeRule.

Lemma char_width_or_36 (b : Block) :
  Stage6.char_width_or 36 b = Spec.char_width_36 b.
Proof.
  unfold Stage6.char_width_or, Spec.char_width_36.
  destruct (character_width b) as [w|]; [|done].
  destruct (Z.eqb_spec w 0); by case_decide.
Qed.

Lemma horizontal_gap_spec (ref cur : Block) :
  Stage6.horizontal_gap ref cur = Spec.gap ref cur.
Proof.
  unfold Stage6.horizontal_gap, Spec.gap.
  destruct (Z.ltb_spec (start_x cur) (start_x ref)); case_decide; done || lia.
Qed.

Lemma adaptive_gap_threshold (a b : Z) :
  (Py.div (a + b) 2 * 3 == 3 * ((inject_Z a + inject_Z b) / 2))%Q.
Proof. unfold Py.div. rewrite inject_Z_plus. field. Qed.

Lemma should_merge_adaptive_iff (th : Thresholds) (ref cur : Block) :
  (Stage6.should_merge_blocks ref cur (Some th)).1 = true
  <-> Spec.merges th ref cur.
Proof.
  unfold Stage6.should_merge_blocks, Spec.merges.
  rewrite !char_width_or_36, horizontal_gap_spec.
  rewrite <- adaptive_gap_threshold.
  destruct (Py.Qleb _ _) eqn:Ev; simpl.
  - apply Qleb_le in Ev. split; [done|]. intros [Hv _].
    exfalso. by apply (Qlt_not_le _ _ Hv).
  - apply Qleb_gt in Ev.
    destruct (Py.Qltb _ _) eqn:Eh; simpl.
    + apply Qltb_lt in Eh. done.
    + apply Qltb_ge in Eh. split; [done|]. intros [_ Hh].
      exfalso. by apply (Qlt_not_le _ _ Hh).
Qed.

Lemma Qmax_cases (a b : Q) :
  (a <= Py.Qmax a b)%Q /\ (b <= Py.Qmax a b)%Q
  /\ (Py.Qmax a b = a \/ Py.Qmax a b = b).
Proof.
  unfold Py.Qmax. destruct (Py.Qltb a b) eqn:E.
  - apply Qltb_lt in E. split; [by apply Qlt_le_weak|].
    split; [apply Qle_refl|by right].
  - apply Qltb_ge in E. split; [apply Qle_refl|]. split; [done|by left].
Qed.

End MergeRule.

(* ===================================================================== *)
(** ** Stage 6: the lookahead scan and the loops *)
(* ===================================================================== *)

Section MergeLoop.

Variable thresholds : option Thresholds.

Lemma scan_lookahead_Some ref l j count j' cur :
  Stage6.scan_lookahead thresholds ref l j count = Some (j', cur) ->
  l !! j' = Some cur /\ j <= j' < j + count
  /\ (Stage6.should_merge_blocks ref cur thresholds).1 = true.
Proof.
  revert j. induction count as [|count IH]; intros j; simpl; [done|].
  destruct (l !! j) as [c|] eqn:El; [|done].
  destruct (Stage6.should_merge_blocks ref c thresholds).1 eqn:Em.
  - intros [= <- <-]. repeat split; [done|lia..|done].
  - intros H. apply IH in H as (? & ? & ?). repeat split; [done|lia..|done].
Qed.

Lemma scan_lookahead_None ref l j count :
  Stage6.scan_lookahead thresholds ref l j count = None ->
  forall k cur, j <= k < j + count -> l !! k = Some cur ->
    (Stage6.should_merge_blocks ref cur thresholds).1 = false.
Proof.
  revert j. induction count as [|count IH]; intros j; simpl; [lia|].
  destruct (l !! j) as [c|] eqn:El.
  - destruct (Stage6.should_merge_blocks ref c thresholds).1 eqn:Em; [done|].
    intros H k cur Hk Hl. destruct (decide (k = j)) as [->|].
    + congruence.
    + apply (IH (S j) H k cur); [lia|done].
  - intros _ k cur Hk Hl.
    assert (length l <= j) by by apply lookup_ge_None.
    apply lookup_lt_Some in Hl. lia.
Qed.

Lemma scan_lookahead_first ref l j0 count j cand :
  l !! j = Some cand -> j0 <= j < j0 + count ->
  (Stage6.should_merge_blocks ref cand thresholds).1 = true ->
  (forall k c, j0 <= k < j -> l !! k = Some c ->
               (Stage6.should_merge_blocks ref c thresholds).1 = false) ->
  Stage6.scan_lookahead thresholds ref l j0 count = Some (j, cand).
Proof.
  intros Hj. revert j0. induction count as [|count IH]; intros j0 Hr Hm Hno; [lia|].
  simpl. destruct (decide (j0 = j)) as [->|Hne].
  - by rewrite Hj, Hm.
  - destruct (lookup_lt_is_Some_2 l j0) as [c Hc].
    { apply lookup_lt_Some in Hj. lia. }
    rewrite Hc, (Hno j0 c) by (lia || done).
    apply IH; [lia|done|]. intros k c' Hk. apply Hno. lia.
Qed.

Lemma scan_lookahead_none ref l j0 count :
  (forall k c, j0 <= k < j0 + count -> l !! k = Some c ->
               (Stage6.should_merge_blocks ref c thresholds).1 = false) ->
  Stage6.scan_lookahead thresholds ref l j0 count = None.
Proof.
  revert j0. induction count as [|count IH]; intros j0 Hno; [done|].
  simpl. destruct (l !! j0) as [c|] eqn:Hc; [|done].
  rewrite (Hno j0 c) by (lia || done).
  apply IH. intros k c' Hk. apply Hno. lia.
Qed.

Lemma window_count_range (i len k : nat) :
  i + 1 <= k < i + 1 + Stage6.window_count i len
  <-> i < k < Nat.min (i + 1 + 20) len.
Proof. unfold Stage6.window_count, Stage6.max_lookahead. lia. Qed.

(** One merge: the reference is replaced, the candidate removed. *)
Lemma merge_step_lookup (l : list Block) i j (m : Block) :
  i < j -> j < length l ->
  delete j (<[i:=m]> l) !! i = Some m
  /\ length (delete j (<[i:=m]> l)) = length l - 1
  /\ take i (delete j (<[i:=m]> l)) = take i l.
Proof.
  intros Hij Hj. split; [|split].
  - rewrite list_lookup_delete_lt by done. apply list_lookup_insert_eq. lia.
  - rewrite length_delete; [by rewrite length_insert|].
    apply lookup_lt_is_Some. by rewrite length_insert.
  - rewrite take_delete_le by lia. rewrite take_insert_ge by lia. done.
Qed.

(** With fuel for every remaining element the inner loop ends, and it
    ends on a window without candidate. *)
Lemma merge_at_reference_ends fuel l m i ref :
  l !! i = Some ref -> length l - i <= fuel ->
  exists l' m' ref',
    Stage6.merge_at_reference fuel thresholds l m i ref = Ok (l', m')
    /\ l' !! i = Some ref'
    /\ length l' + (m' - m) = length l /\ m <= m'
    /\ take i l' = take i l
    /\ Stage6.scan_lookahead thresholds ref' l' (i + 1)
         (Stage6.window_count i (length l')) = None.
Proof.
  revert l m ref. induction fuel as [|fuel IH]; intros l m ref Hi Hfuel.
  { apply lookup_lt_Some in Hi. lia. }
  simpl.
  destruct (Stage6.scan_lookahead _ _ _ _ _) as [[j cur]|] eqn:Es.
  - apply scan_lookahead_Some in Es as (Hj & Hrange & _).
    assert (j < length l) by by eapply lookup_lt_Some.
    destruct (merge_step_lookup l i j (Stage6.merge_two_blocks ref cur))
      as (H1 & H2 & H3); [lia|done|].
    destruct (IH _ (S m) _ H1) as (l' & m' & ref' & -> & ? & ? & ? & ? & ?);
      [lia|].
    exists l', m', ref'. repeat split; [done|lia|lia|congruence|done].
  - exists l, m, ref. repeat split; [done|lia|lia|done].
Qed.

Lemma merge_loop_ends fuel l m i :
  length l - i < fuel ->
  exists l' m', Stage6.merge_loop fuel thresholds l m i = Ok (l', m')
    /\ length l' + (m' - m) = length l /\ m <= m'.
Proof.
  revert l m i. induction fuel as [|fuel IH]; intros l m i Hfuel; [lia|].
  simpl. destruct (l !! i) as [ref|] eqn:Ei.
  - destruct (merge_at_reference_ends (length l) l m i ref Ei)
      as (l1 & m1 & ref1 & -> & Hi1 & ? & ? & _); [lia|].
    simpl. apply lookup_lt_Some in Hi1.
    destruct (IH l1 m1 (S i)) as (l' & m' & -> & ? & ?); [lia|].
    exists l', m'. split; [done|lia].
  - exists l, m. split; [done|lia].
Qed.

Lemma merge_blocks_counted_total (blocks : list Block) :
  exists l' m', Stage6.merge_blocks_counted blocks thresholds = Ok (l', m')
    /\ length l' + m' = length blocks.
Proof.
  unfold Stage6.merge_blocks_counted. case_match.
  - exists blocks, 0. split; [done|lia].
  - destruct (merge_loop_ends (S (length blocks)) blocks 0 0)
      as (l' & m' & -> & ? & ?); [lia|].
    exists l', m'. split; [done|lia].
Qed.

End MergeLoop.

(* ===================================================================== *)
(** ** Text conservation, stage by stage *)
(* ===================================================================== *)

Section Chars.

Import Pipeline.

Lemma list_ascii_of_string_app (s t : string) :
  list_ascii_of_string (s ++ t) = list_ascii_of_string s ++ list_ascii_of_string t.
Proof. induction s as [|c s IH]; simpl; [done|]. by rewrite IH. Qed.

Lemma delete_insert_same {A} (l : list A) (i : nat) (x : A) :
  delete i (<[i:=x]> l) = delete i l.
Proof.
  revert i. induction l as [|y l IH]; intros [|i]; simpl; try done.
  f_equal. apply IH.
Qed.

Lemma blocks_chars_cons (b : Block) (l : list Block) :
  blocks_chars (b :: l) = block_chars b ++ blocks_chars l.
Proof. done. Qed.

Lemma blocks_chars_Permutation (l1 l2 : list Block) :
  l1 ≡ₚ l2 -> blocks_chars l1 ≡ₚ blocks_chars l2.
Proof. apply Permutation_flat_map. Qed.

Lemma blocks_chars_map_text (l1 l2 : list Block) :
  map text l1 = map text l2 -> blocks_chars l1 = blocks_chars l2.
Proof.
  revert l2. induction l1 as [|a l1 IH]; intros [|b l2]; simpl; try done.
  intros [= Ht Hl]. unfold blocks_chars in *. simpl.
  unfold block_chars at 1 3. rewrite Ht. f_equal. by apply IH.
Qed.

Lemma merge_two_blocks_chars (a b : Block) :
  block_chars (Stage6.merge_two_blocks a b)
  ≡ₚ block_chars a ++ block_chars b ++ [" "%char].
Proof.
  unfold block_chars, Stage6.merge_two_blocks,
    Stage6.first_block, Stage6.second_block; simpl.
  destruct (start_x a <=? start_x b)%Z;
    rewrite !list_ascii_of_string_app; simpl;
    generalize (list_ascii_of_string (text a)) (list_ascii_of_string (text b));
    intros A B; solve_Permutation.
Qed.

(** A merge adds one space and nothing else. *)
Lemma merge_step_chars (l : list Block) (i j : nat) (ref cur : Block) :
  l !! i = Some ref -> l !! j = Some cur -> i < j ->
  blocks_chars (delete j (<[i:=Stage6.merge_two_blocks ref cur]> l))
  ≡ₚ blocks_chars l ++ [" "%char].
Proof.
  intros Hi Hj Hij.
  set (m := Stage6.merge_two_blocks ref cur).
  assert (Hj' : <[i:=m]> l !! j = Some cur).
  { rewrite list_lookup_insert_ne by lia. done. }
  assert (Hi' : <[i:=m]> l !! i = Some m).
  { apply list_lookup_insert_eq. by eapply lookup_lt_Some. }
  apply (Permutation_app_inv_l (block_chars cur)).
  rewrite <- blocks_chars_cons.
  rewrite <- (blocks_chars_Permutation _ _ (delete_Permutation _ _ _ Hj')).
  rewrite (blocks_chars_Permutation _ _ (delete_Permutation _ _ _ Hi')).
  rewrite delete_insert_same.
  rewrite (blocks_chars_Permutation l _ (delete_Permutation _ _ _ Hi)).
  rewrite !blocks_chars_cons. unfold m. rewrite merge_two_blocks_chars.
  set (R := block_chars ref). set (C := block_chars cur).
  set (D := blocks_chars (delete i l)).
  clearbody R C D. solve_Permutation.
Qed.

Variable thresholds : option Thresholds.

Lemma merge_at_reference_chars fuel l m i ref l' m' :
  l !! i = Some ref ->
  Stage6.merge_at_reference fuel thresholds l m i ref = Ok (l', m') ->
  m <= m' /\ blocks_chars l' ≡ₚ blocks_chars l ++ replicate (m' - m) " "%char.
Proof.
  revert l m ref. induction fuel as [|fuel IH]; intros l m ref Hi; simpl; [done|].
  destruct (Stage6.scan_lookahead _ _ _ _ _) as [[j cur]|] eqn:Es.
  - apply scan_lookahead_Some in Es as (Hj & Hrange & _).
    assert (j < length l) by by eapply lookup_lt_Some.
    intros Hrun.
    destruct (merge_step_lookup l i j (Stage6.merge_two_blocks ref cur))
      as (H1 & _); [lia|done|].
    apply (IH _ _ _ H1) in Hrun as [Hm Hp]. split; [lia|].
    rewrite Hp, merge_step_chars by (done || lia).
    replace (m' - m) with (S (m' - S m)) by lia.
    rewrite <- (assoc_L app). done.
  - intros [= <- <-]. split; [done|].
    rewrite Nat.sub_diag. simpl. by rewrite app_nil_r.
Qed.

Lemma merge_loop_chars fuel l m i l' m' :
  Stage6.merge_loop fuel thresholds l m i = Ok (l', m') ->
  m <= m' /\ blocks_chars l' ≡ₚ blocks_chars l ++ replicate (m' - m) " "%char.
Proof.
  revert l m i. induction fuel as [|fuel IH]; intros l m i; simpl; [done|].
  destruct (l !! i) as [ref|] eqn:Ei.
  - intros H. inv_bind H. destruct r as [l1 m1]. simpl in H.
    apply (merge_at_reference_chars _ _ _ _ _ _ _ Ei) in Hr as [Hm1 Hp1].
    apply IH in H as [Hm' Hp']. split; [lia|].
    rewrite Hp', Hp1, <- (assoc_L app), <- replicate_add.
    by replace (m1 - m + (m' - m1)) with (m' - m) by lia.
  - intros [= <- <-]. split; [done|].
    rewrite Nat.sub_diag. simpl. by rewrite app_nil_r.
Qed.

Lemma merge_blocks_counted_chars blocks l' m' :
  Stage6.merge_blocks_counted blocks thresholds = Ok (l', m') ->
  blocks_chars l' ≡ₚ blocks_chars blocks ++ replicate m' " "%char.
Proof.
  unfold Stage6.merge_blocks_counted. destruct (_ <? _).
  - intros [= <- <-]. simpl. by rewrite app_nil_r.
  - intros H. apply merge_loop_chars in H as [_ H].
    by rewrite Nat.sub_0_r in H.
Qed.

Lemma metrics_from_text prev l :
  map text (Stage5.metrics_from prev l) = map text l.
Proof.
  revert prev. induction l as [|b l IH]; intros prev; simpl; [done|].
  by rewrite IH.
Qed.

Lemma calculate_block_metrics_chars l :
  blocks_chars (Stage5.calculate_block_metrics l) = blocks_chars l.
Proof. apply blocks_chars_map_text, metrics_from_text. Qed.

Lemma merge_horizontal_counted_chars blocks page merges :
  Stage6.merge_horizontal_counted blocks thresholds = Ok (page, merges) ->
  blocks_chars (Stage6.line_blocks page)
  ≡ₚ blocks_chars blocks ++ replicate merges " "%char.
Proof.
  unfold Stage6.merge_horizontal_counted. intros H. inv_bind H.
  destruct r as [l' m']. simpl in H. injection H as <- <-. simpl.
  rewrite calculate_block_metrics_chars.
  rewrite (blocks_chars_Permutation _ _ (sorted_Permutation _ _)).
  rewrite (merge_blocks_counted_chars _ _ _ Hr).
  by rewrite (blocks_chars_Permutation _ _ (sorted_Permutation _ _)).
Qed.

(** Stage 4 keeps the text of every surviving fragment. *)
Lemma merge_page_quadrants_chars quadrants min_confidence :
  blocks_chars (Stage4.merged_blocks
                  (Stage4.merge_page_quadrants quadrants min_confidence))
  ≡ₚ blocks_chars (surviving quadrants min_confidence).
Proof.
  unfold Stage4.merge_page_quadrants, surviving; simpl.
  unfold Stage4.scale_coordinates_to_original.
  rewrite (blocks_chars_map_text _ (Py.sorted mid_y_x
    (flat_map (Stage4.filtered_blocks min_confidence) quadrants))).
  - apply blocks_chars_Permutation, sorted_Permutation.
  - rewrite map_map. done.
Qed.

End Chars.

(* ===================================================================== *)
(** ** First-fit grouping *)
(* ===================================================================== *)

Section FirstFitFacts.

Context {A : Type} (test : list A -> A -> result bool).

Lemma foldM_app {B} (f : B -> A -> result B) (l1 l2 : list A) (acc : B) :
  foldM f (l1 ++ l2) acc = (acc' <~ foldM f l1 acc ;; foldM f l2 acc').
Proof.
  revert acc. induction l1 as [|x l1 IH]; intros acc; simpl; [done|].
  destruct (f acc x); simpl; [apply IH|done..].
Qed.

Lemma add_to_first_groups groups x groups' :
  FirstFit.add_to_first test groups x = Ok (Some groups') ->
  concat groups' ≡ₚ x :: concat groups
  /\ (Forall (fun g => g <> []) groups -> Forall (fun g => g <> []) groups').
Proof.
  revert groups'. induction groups as [|g rest IH]; intros groups'; simpl; [done|].
  intros H. inv_bind H. destruct r.
  - injection H as <-. simpl. split.
    + rewrite <- (assoc_L app). simpl.
      rewrite <- Permutation_middle. done.
    + intros Hne. inversion_clear Hne. constructor; [|done].
      by destruct g.
  - inv_bind H. destruct r as [rest'|]; [|done]. injection H as <-.
    destruct (IH _ Hr0) as [Hp Hn]. simpl. split.
    + rewrite Hp. by rewrite Permutation_middle.
    + intros Hne. inversion_clear Hne. constructor; auto.
Qed.

Lemma place_groups groups x groups' :
  FirstFit.place test groups x = Ok groups' ->
  concat groups' ≡ₚ x :: concat groups
  /\ (Forall (fun g => g <> []) groups -> Forall (fun g => g <> []) groups').
Proof.
  unfold FirstFit.place. intros H. inv_bind H. destruct r as [gs|].
  - injection H as <-. by apply add_to_first_groups.
  - injection H as <-. split.
    + rewrite concat_app. simpl. rewrite ?app_nil_r.
      by rewrite <- Permutation_cons_append.
    + intros Hne. apply Forall_app. split; [done|]. by constructor.
Qed.

Lemma foldM_place_groups l groups groups' :
  foldM (FirstFit.place test) l groups = Ok groups' ->
  concat groups' ≡ₚ concat groups ++ l
  /\ (Forall (fun g => g <> []) groups -> Forall (fun g => g <> []) groups').
Proof.
  revert groups. induction l as [|x l IH]; intros groups; simpl.
  - intros [= <-]. by rewrite app_nil_r.
  - intros H. inv_bind H. apply place_groups in Hr as [Hp Hn].
    apply IH in H as [Hp' Hn']. split; [|auto].
    rewrite Hp', Hp. by rewrite <- Permutation_middle.
Qed.

(** The groups partition the input, and none is empty. *)
Lemma build_groups l groups :
  FirstFit.build test l = Ok groups ->
  concat groups ≡ₚ l /\ Forall (fun g => g <> []) groups.
Proof.
  destruct l as [|first rest]; simpl.
  - intros [= <-]. by split.
  - intros H. apply foldM_place_groups in H as [Hp Hn]. split; [done|].
    apply Hn. by constructor.
Qed.

(** *** The first-fit rule *)

Context (accepts : A -> A -> Prop) (good : A -> Prop).

Hypothesis test_decides : forall g m x,
  Forall good g -> good x -> last g = Some m ->
  exists b, test g x = Ok b /\ (b = true <-> accepts m x).

Lemma add_to_first_rule groups x :
  Forall (Forall good) groups -> Forall (fun g => g <> []) groups -> good x ->
  exists r, FirstFit.add_to_first test groups x = Ok r /\
    match r with
    | Some groups' =>
        exists pre g last_member post,
          groups = pre ++ g :: post /\ last g = Some last_member
          /\ accepts last_member x /\ Forall (Spec.rejects accepts x) pre
          /\ groups' = pre ++ (g ++ [x]) :: post
    | None => Forall (Spec.rejects accepts x) groups
    end.
Proof.
  intros Hgood Hne Hx.
  induction groups as [|g rest IH]; simpl.
  { exists None. by split. }
  inversion_clear Hgood as [|? ? Hg Hrest]. inversion_clear Hne as [|? ? Hgne Hrne].
  destruct (last g) as [m|] eqn:Hlast; [|by apply last_None in Hlast].
  destruct (test_decides g m x Hg Hx Hlast) as (b & -> & Hb). simpl.
  destruct b.
  - eexists. split; [done|]. exists [], g, m, rest. simpl.
    repeat split; [done|by apply Hb|by constructor].
  - destruct (IH Hrest Hrne) as (r & -> & Hr). simpl.
    assert (Spec.rejects accepts x g).
    { intros m' Hm' Hacc. assert (m' = m) as -> by congruence.
      apply Hb in Hacc. done. }
    eexists. split; [done|]. destruct r as [rest'|]; simpl.
    + destruct Hr as (pre & g' & m' & post & -> & ? & ? & ? & ->).
      exists (g :: pre), g', m', post. repeat split; try done.
      by constructor.
    + by constructor.
Qed.

Lemma place_rule groups x :
  Forall (Forall good) groups -> Forall (fun g => g <> []) groups -> good x ->
  exists groups', FirstFit.place test groups x = Ok groups'
    /\ Spec.first_fit_step accepts groups x groups'.
Proof.
  intros Hgood Hne Hx. unfold FirstFit.place.
  destruct (add_to_first_rule groups x Hgood Hne Hx) as (r & -> & Hr). simpl.
  destruct r as [groups'|].
  - exists groups'. split; [done|]. left.
    destruct Hr as (pre & g & m & post & ?). by exists pre, g, m, post.
  - eexists. split; [done|]. right. by split.
Qed.

Lemma place_good groups x groups' :
  FirstFit.place test groups x = Ok groups' ->
  Forall (Forall good) groups -> good x -> Forall (Forall good) groups'.
Proof.
  intros H Hgood Hx.
  assert (Forall good (concat groups')) as Hc.
  { apply place_groups in H as [-> _]. constructor; [done|].
    by apply Forall_concat. }
  by apply Forall_concat.
Qed.

Lemma foldM_place_total l groups :
  Forall (Forall good) groups -> Forall (fun g => g <> []) groups ->
  Forall good l ->
  exists groups', foldM (FirstFit.place test) l groups = Ok groups'
    /\ Forall (Forall good) groups' /\ Forall (fun g => g <> []) groups'.
Proof.
  revert groups. induction l as [|x l IH]; intros groups Hgood Hne Hl; simpl.
  - by exists groups.
  - inversion_clear Hl as [|? ? Hx Hl'].
    destruct (place_rule groups x Hgood Hne Hx) as (g1 & Hp & _).
    rewrite Hp. simpl. apply IH; [|by apply (place_groups _ _ _ Hp)|done].
    by apply (place_good _ _ _ Hp).
Qed.

Lemma place_seed groups x groups' first :
  FirstFit.place test groups x = Ok groups' ->
  (exists g groups0, groups = (first :: g) :: groups0) ->
  exists g groups0, groups' = (first :: g) :: groups0.
Proof.
  intros H (g & groups0 & ->). unfold FirstFit.place in H. simpl in H.
  destruct (test (first :: g) x) as [[|]| |]; simpl in H; try done.
  - injection H as <-. by eexists _, _.
  - destruct (FirstFit.add_to_first test groups0 x) as [[r|]| |];
      simpl in H; try done; injection H as <-; by eexists _, _.
Qed.

(** The builder seeds the first group with the first element, and the
    element that comes last was placed by the first-fit rule into the
    groups built from the elements before it. *)
Lemma build_rule first rest :
  good first -> Forall good rest ->
  exists groups,
    FirstFit.build test (first :: rest) = Ok groups
    /\ (exists g groups0, groups = (first :: g) :: groups0)
    /\ forall x, good x ->
         exists groups', FirstFit.build test (first :: rest ++ [x]) = Ok groups'
           /\ Spec.first_fit_step accepts groups x groups'.
Proof.
  intros Hfirst Hrest. simpl.
  assert (Forall (Forall good) [[first]]) as H0 by by repeat constructor.
  assert (Forall (fun g => g <> []) [[first]]) as H1 by by repeat constructor.
  destruct (foldM_place_total rest _ H0 H1 Hrest) as (groups & Hf & Hg & Hn).
  exists groups. split; [done|]. split.
  - clear Hg Hn H0 H1 Hrest.
    assert (exists g groups0, [[first]] = (first :: g) :: groups0) as Hseed
        by by exists [], [].
    revert Hf Hseed. generalize [[first]].
    induction rest as [|y rest IH]; intros gs; simpl.
    + by intros [= <-].
    + intros H Hseed. inv_bind H. apply (IH _ H). clear IH H.
      by apply (place_seed _ _ _ _ Hr).
  - intros x Hx. rewrite foldM_app, Hf. simpl.
    destruct (place_rule groups x Hg Hn Hx) as (groups' & -> & Hstep).
    by exists groups'.
Qed.

End FirstFitFacts.

(* ===================================================================== *)
(** ** Stage 7: the Block Builder is the first-fit loop *)
(* ===================================================================== *)

Section BlockBuilder.

Variable thresholds : option Thresholds.

Lemma add_to_first_bucket_generic buckets x :
  Stage7.add_to_first_bucket thresholds buckets x
  = FirstFit.add_to_first (FirstFit.bucket_test thresholds) buckets x.
Proof.
  induction buckets as [|b rest IH]; simpl; [done|].
  unfold FirstFit.bucket_test at 1.
  destruct (last b) as [m|]; simpl; [|done].
  destruct (Stage7.should_add_to_bucket m x thresholds) as [[|]| |]; simpl;
    first [done | by rewrite IH].
Qed.

Lemma place_element_generic buckets x :
  Stage7.place_element thresholds buckets x
  = FirstFit.place (FirstFit.bucket_test thresholds) buckets x.
Proof.
  unfold Stage7.place_element, FirstFit.place.
  by rewrite add_to_first_bucket_generic.
Qed.

Lemma foldM_place_element_generic l buckets :
  foldM (Stage7.place_element thresholds) l buckets
  = foldM (FirstFit.place (FirstFit.bucket_test thresholds)) l buckets.
Proof.
  revert buckets. induction l as [|x l IH]; intros buckets; simpl; [done|].
  rewrite place_element_generic.
  destruct (FirstFit.place _ _ _); simpl; [apply IH|done..].
Qed.

Lemma create_buckets_generic blocks :
  Stage7.create_buckets blocks thresholds
  = FirstFit.build (FirstFit.bucket_test thresholds) blocks.
Proof.
  destruct blocks as [|first rest]; simpl; [done|].
  apply foldM_place_element_generic.
Qed.

End BlockBuilder.

Section BlockRule.

Variable th : Thresholds.

Lemma should_add_to_bucket_adaptive (last_line line : Block) :
  exists b, Stage7.should_add_to_bucket last_line line (Some th) = Ok b
    /\ (b = true <-> Spec.block_accepts th last_line line).
Proof.
  unfold Stage7.should_add_to_bucket, Spec.block_accepts. simpl.
  destruct (Py.Qleb _ _) eqn:Ev.
  { apply Qleb_le in Ev. exists false. split; [done|]. split; [done|].
    intros [Hv _]. exfalso. by apply (Qlt_not_le _ _ Hv). }
  apply Qleb_gt in Ev.
  destruct (Py.Qltb _ (2 * _)%Q) eqn:Es.
  { apply Qltb_lt in Es. exists true. split; [done|]. split; [|done]. auto. }
  apply Qltb_ge in Es.
  destruct (Py.Qltb (inject_Z (Z.abs (mid_x _ - _))) _) eqn:Em.
  { apply Qltb_lt in Em. exists true. split; [done|]. split; [|done]. auto. }
  apply Qltb_ge in Em.
  destruct (Py.Qltb _ _) eqn:Ee.
  { apply Qltb_lt in Ee. exists true. split; [done|]. split; [|done]. auto. }
  apply Qltb_ge in Ee.
  exists false. split; [done|]. split; [done|].
  intros [_ [H|[H|H]]]; exfalso; by apply (Qlt_not_le _ _ H).
Qed.

Lemma bucket_test_decides (g : list Block) (m x : Block) :
  Forall (fun _ => True) g -> True -> last g = Some m ->
  exists b, FirstFit.bucket_test (Some th) g x = Ok b
    /\ (b = true <-> Spec.block_accepts th m x).
Proof.
  intros _ _ Hlast. unfold FirstFit.bucket_test. rewrite Hlast. simpl.
  apply should_add_to_bucket_adaptive.
Qed.

End BlockRule.

(* ===================================================================== *)
(** ** Stage 8: the Segment Builder is the first-fit loop *)
(* ===================================================================== *)

Section SegmentBuilder.

Lemma add_to_first_horizontal_bucket_generic buckets x :
  Stage8.add_to_first_horizontal_bucket buckets x
  = FirstFit.add_to_first FirstFit.horizontal_bucket_test buckets x.
Proof.
  induction buckets as [|b rest IH]; simpl; [done|].
  unfold FirstFit.horizontal_bucket_test at 1.
  destruct (Stage8.should_add_to_horizontal_bucket b x) as [[|]| |]; simpl;
    first [done | by rewrite IH].
Qed.

Lemma place_vertical_bucket_generic buckets x :
  Stage8.place_vertical_bucket buckets x
  = FirstFit.place FirstFit.horizontal_bucket_test buckets x.
Proof.
  unfold Stage8.place_vertical_bucket, FirstFit.place.
  by rewrite add_to_first_horizontal_bucket_generic.
Qed.

Lemma create_horizontal_buckets_generic vbs :
  Stage8.create_horizontal_buckets vbs
  = FirstFit.build FirstFit.horizontal_bucket_test vbs.
Proof.
  destruct vbs as [|first rest]; simpl; [done|].
  generalize [[first]]. induction rest as [|x l IH]; intros buckets; simpl; [done|].
  rewrite place_vertical_bucket_generic.
  destruct (FirstFit.place _ _ _); simpl; [apply IH|done..].
Qed.

Lemma calculate_avg_block_height_spec (v : VBucket) :
  Stage8.calculate_avg_block_height v = Spec.avg_height v.
Proof. done. Qed.

Lemma mapM_widths (bs : list Block) :
  Forall (fun b => character_width b <> None) bs ->
  mapM (fun b => of_option TypeError (character_width b)) bs
  = Ok (map (fun b => default 0%Z (character_width b)) bs).
Proof.
  induction 1 as [|b bs Hb _ IH]; simpl; [done|].
  destruct (character_width b) as [w|]; [|done]. simpl. by rewrite IH.
Qed.

Lemma calculate_avg_char_width_spec (v : VBucket) :
  Spec.widths_defined v ->
  Stage8.calculate_avg_char_width v = Ok (Spec.avg_char_width v).
Proof.
  unfold Spec.widths_defined, Stage8.calculate_avg_char_width, Spec.avg_char_width.
  intros H. destruct (blocks v) as [|b bs]; [done|].
  by rewrite (mapM_widths _ H).
Qed.

Lemma should_add_to_horizontal_bucket_decides (g : list VBucket) (m x : VBucket) :
  Forall Spec.widths_defined g -> Spec.widths_defined x -> last g = Some m ->
  exists b, FirstFit.horizontal_bucket_test g x = Ok b
    /\ (b = true <-> Spec.segment_accepts 1 m x).
Proof.
  intros Hg Hx Hlast.
  assert (Spec.widths_defined m) as Hm.
  { apply last_Some in Hlast as [l' ->].
    apply Forall_app in Hg as [_ Hg]. by inversion Hg. }
  unfold FirstFit.horizontal_bucket_test, Stage8.should_add_to_horizontal_bucket.
  rewrite Hlast. simpl. unfold Spec.segment_accepts.
  rewrite !calculate_avg_block_height_spec.
  destruct (Py.Qleb _ _) eqn:Ev.
  { apply Qleb_le in Ev. exists false. split; [done|]. split; [done|].
    intros [Hv _]. exfalso. by apply (Qlt_not_le _ _ Hv). }
  apply Qleb_gt in Ev.
  rewrite (calculate_avg_char_width_spec _ Hm), (calculate_avg_char_width_spec _ Hx).
  simpl. unfold Stage8.Qabs_diff.
  set (tol := ((Spec.avg_char_width m + Spec.avg_char_width x) / 2)%Q).
  assert (Htol : (1 * tol == tol)%Q) by apply Qmult_1_l.
  destruct (Py.Qltb (inject_Z (Z.abs (vb_start_x _ - _))) _) eqn:Es.
  { apply Qltb_lt in Es. exists true. split; [done|]. split; [|done].
    intros _. split; [done|]. left. by rewrite Htol. }
  apply Qltb_ge in Es.
  destruct (Py.Qltb (Qabs _) _) eqn:Em.
  { apply Qltb_lt in Em. exists true. split; [done|]. split; [|done]. auto. }
  apply Qltb_ge in Em.
  destruct (Py.Qltb _ _) eqn:Ee.
  { apply Qltb_lt in Ee. exists true. split; [done|]. split; [|done]. auto. }
  apply Qltb_ge in Ee.
  exists false. split; [done|]. split; [done|].
  intros [_ [H|[H|H]]]; exfalso.
  - rewrite Htol in H. by apply (Qlt_not_le _ _ H).
  - by apply (Qlt_not_le _ _ H).
  - by apply (Qlt_not_le _ _ H).
Qed.

End SegmentBuilder.

(* ===================================================================== *)
(** ** Text conservation in stages 7, 8 and 9 *)
(* ===================================================================== *)

Section GroupChars.

Import Pipeline.

Lemma flat_map_concat {A B} (f : A -> list B) (L : list (list A)) :
  flat_map f (concat L) = flat_map (flat_map f) L.
Proof.
  induction L as [|l L IH]; simpl; [done|].
  by rewrite flat_map_app, IH.
Qed.

Lemma flat_map_Permutation {A B} (f : A -> list B) (l1 l2 : list A) :
  l1 ≡ₚ l2 -> flat_map f l1 ≡ₚ flat_map f l2.
Proof. apply Permutation_flat_map. Qed.

Lemma flat_map_map {A B C} (f : B -> list C) (g : A -> B) (l : list A) :
  flat_map f (map g l) = flat_map (fun x => f (g x)) l.
Proof. induction l as [|x l IH]; simpl; [done|]. by rewrite IH. Qed.

Lemma mapM_enumerate_proj {A B} (f : nat -> A -> result B) (proj : B -> A)
    (idx : nat) (l : list A) (ys : list B) :
  (forall i x y, f i x = Ok y -> proj y = x) ->
  Stage7.mapM_enumerate f idx l = Ok ys -> map proj ys = l.
Proof.
  intros Hf. revert idx ys. induction l as [|x l IH]; intros idx ys; simpl.
  - by intros [= <-].
  - intros H. inv_bind H. inv_bind H. injection H as <-. simpl.
    f_equal; [by eapply Hf|by eapply IH].
Qed.

Lemma bucket_info_blocks idx bucket v :
  Stage7.bucket_info idx bucket = Ok v -> blocks v = bucket.
Proof.
  unfold Stage7.bucket_info. intros H.
  repeat inv_bind H. by injection H as <-.
Qed.

Lemma h_bucket_info_vertical_buckets idx h_bucket info :
  Stage8.h_bucket_info idx h_bucket = Ok info -> vertical_buckets info = h_bucket.
Proof.
  unfold Stage8.h_bucket_info. intros H.
  repeat inv_bind H. by injection H as <-.
Qed.

Lemma process_page_buckets_chars page page' :
  Stage7.process_page_buckets page = Ok page' ->
  flat_map vbucket_chars (Stage7.buckets page')
  ≡ₚ blocks_chars (Stage6.line_blocks page).
Proof.
  unfold Stage7.process_page_buckets. intros H.
  inv_bind H. inv_bind H. injection H as <-. simpl.
  rewrite (flat_map_Permutation _ _ _ (sorted_Permutation _ _)).
  rewrite create_buckets_generic in Hr.
  apply build_groups in Hr as [Hp _].
  apply (mapM_enumerate_proj _ blocks) in Hr0; [|apply bucket_info_blocks].
  rewrite <- (blocks_chars_Permutation _ _ (sorted_Permutation mid_y_x _)).
  rewrite <- (blocks_chars_Permutation _ _ Hp).
  unfold blocks_chars at 1. rewrite flat_map_concat, <- Hr0.
  by rewrite flat_map_map.
Qed.

Lemma normalize_bucket_coordinates_info data w h :
  map hb_info (Stage8.normalize_bucket_coordinates data w h) = data.
Proof.
  unfold Stage8.normalize_bucket_coordinates. rewrite map_map. simpl.
  apply map_id.
Qed.

Lemma process_page_horizontal_buckets_chars page page' :
  Stage8.process_page_horizontal_buckets page = Ok page' ->
  segments_chars (Stage8.horizontal_buckets page')
  ≡ₚ flat_map vbucket_chars (Stage7.buckets page).
Proof.
  unfold Stage8.process_page_horizontal_buckets. intros H.
  inv_bind H. inv_bind H. injection H as <-. simpl.
  unfold segments_chars, hbucket_chars.
  rewrite <- (flat_map_map (fun i => flat_map vbucket_chars (vertical_buckets i)) hb_info).
  rewrite normalize_bucket_coordinates_info.
  rewrite (flat_map_Permutation _ _ _ (sorted_Permutation _ _)).
  rewrite create_horizontal_buckets_generic in Hr.
  apply build_groups in Hr as [Hp _].
  apply (mapM_enumerate_proj _ vertical_buckets) in Hr0;
    [|apply h_bucket_info_vertical_buckets].
  rewrite <- (flat_map_Permutation _ _ _ Hp).
  rewrite flat_map_concat, <- Hr0. by rewrite flat_map_map.
Qed.

End GroupChars.

(* ===================================================================== *)
(** ** Lists as arrays: [pop] and [insert] *)
(* ===================================================================== *)

Section PopInsert.

Context {A : Type}.
Implicit Types (l : list A) (x : A).

Lemma list_insert_at_Permutation k x l : Py.list_insert_at k x l ≡ₚ x :: l.
Proof.
  unfold Py.list_insert_at. rewrite <- Permutation_middle.
  by rewrite take_drop.
Qed.

Lemma list_insert_at_take k k' x l :
  k' <= k -> k <= length l ->
  take k' (Py.list_insert_at k x l) = take k' l.
Proof.
  intros Hk Hl. unfold Py.list_insert_at.
  rewrite take_app_le by (rewrite length_take; lia).
  rewrite take_take. f_equal. lia.
Qed.

Lemma list_insert_at_lookup k x l :
  k <= length l -> Py.list_insert_at k x l !! k = Some x.
Proof.
  intros Hl. unfold Py.list_insert_at.
  rewrite lookup_app_r by (rewrite length_take; lia).
  rewrite length_take. by replace (k - k `min` length l) with 0 by lia.
Qed.

Lemma list_insert_at_app k x l1 l2 :
  k <= length l1 ->
  Py.list_insert_at k x (l1 ++ l2) = Py.list_insert_at k x l1 ++ l2.
Proof.
  intros Hk. unfold Py.list_insert_at.
  rewrite take_app_le, drop_app_le by done.
  by rewrite <- (assoc_L app).
Qed.

Lemma delete_app_l i l1 l2 :
  i < length l1 -> delete i (l1 ++ l2) = delete i l1 ++ l2.
Proof.
  revert i. induction l1 as [|y l1 IH]; intros [|i] Hi; simpl in *; try lia; [done|].
  f_equal. apply IH. lia.
Qed.

(** Moving the element at [c] to position [k <= c]. *)
Lemma move_Permutation k c x l :
  l !! c = Some x -> Py.list_insert_at k x (delete c l) ≡ₚ l.
Proof.
  intros Hc. rewrite list_insert_at_Permutation.
  symmetry. by apply delete_Permutation.
Qed.

Lemma move_length k c x l :
  l !! c = Some x -> length (Py.list_insert_at k x (delete c l)) = length l.
Proof. intros Hc. by rewrite move_Permutation. Qed.

Lemma move_take k k' c x l :
  k' <= k -> k <= c -> l !! c = Some x ->
  take k' (Py.list_insert_at k x (delete c l)) = take k' l.
Proof.
  intros Hk Hkc Hc. assert (c < length l) by by eapply lookup_lt_Some.
  rewrite list_insert_at_take; [|done|].
  - apply take_delete_le. lia.
  - rewrite length_delete by eauto. lia.
Qed.

Lemma move_lookup k c x l :
  k <= c -> l !! c = Some x ->
  Py.list_insert_at k x (delete c l) !! k = Some x.
Proof.
  intros Hkc Hc. assert (c < length l) by by eapply lookup_lt_Some.
  apply list_insert_at_lookup. rewrite length_delete by eauto. lia.
Qed.

Lemma take_eq_le n m l1 l2 :
  n <= m -> take m l1 = take m l2 -> take n l1 = take n l2.
Proof.
  intros Hnm H. replace n with (n `min` m) by lia.
  by rewrite <- !take_take, H.
Qed.

(** The element after [mid] moves to the front of [mid]. *)
Lemma move_middle l1 mid x l2 :
  Py.list_insert_at (length l1) x (delete (length l1 + length mid) (l1 ++ mid ++ x :: l2))
  = l1 ++ x :: mid ++ l2.
Proof.
  replace (l1 ++ mid ++ x :: l2) with ((l1 ++ mid) ++ x :: l2)
    by by rewrite <- (assoc_L app).
  rewrite <- length_app, delete_middle, <- (assoc_L app).
  unfold Py.list_insert_at. by rewrite take_app_length, drop_app_length.
Qed.

End PopInsert.

(* ===================================================================== *)
(** ** Stage 9: the tests *)
(* ===================================================================== *)

Section StackTests.

Lemma Qleb_inject_Z_3 (z : Z) :
  Py.Qleb (inject_Z z) Stage9.default_threshold = true <-> (z <= 3)%Z.
Proof.
  rewrite Qleb_le. change Stage9.default_threshold with (inject_Z 3).
  by rewrite <- Zle_Qle.
Qed.

Lemma is_vertically_aligned_spec (ref cur : HBucket) :
  Stage9.is_vertically_aligned ref cur Stage9.default_threshold = true
  <-> Spec.column_aligned ref cur.
Proof.
  unfold Stage9.is_vertically_aligned, Spec.column_aligned.
  by rewrite orb_true_iff, !Qleb_inject_Z_3.
Qed.

Lemma is_vertically_close_spec (ref cur : HBucket) :
  Stage9.is_vertically_close ref cur Stage9.default_threshold = true
  <-> Spec.vertically_close ref cur.
Proof. apply Qleb_inject_Z_3. Qed.

Lemma stacks_under_spec (ref cur : HBucket) :
  Stage9.stacks_under ref cur = true <-> Spec.stacks ref cur.
Proof.
  unfold Stage9.stacks_under, Spec.stacks.
  by rewrite andb_true_iff, is_vertically_aligned_spec, is_vertically_close_spec.
Qed.

Lemma stacks_under_false (ref cur : HBucket) :
  Stage9.stacks_under ref cur = false <-> ~ Spec.stacks ref cur.
Proof.
  rewrite <- stacks_under_spec. by destruct (Stage9.stacks_under ref cur).
Qed.

End StackTests.

(* ===================================================================== *)
(** ** Stage 9: the loops *)
(* ===================================================================== *)

Section StackLoops.

Implicit Types (b : list HBucket) (ref cur : HBucket).

(** One unfolding of the inner loop on a match. *)
Lemma stack_scan_match fuel b r ref c cur :
  r < c -> b !! c = Some cur -> Stage9.stacks_under ref cur = true ->
  Stage9.stack_scan (S fuel) b r ref c
  = Stage9.stack_scan fuel (Py.list_insert_at (r + 1) cur (delete c b))
      (r + 1) cur (r + 1 + 1).
Proof.
  intros Hrc Hc Hm. simpl. rewrite Hc, Hm.
  by rewrite (move_lookup (r + 1) c cur b) by (lia || done).
Qed.

Lemma stack_scan_skip fuel b r ref c cur :
  b !! c = Some cur -> Stage9.stacks_under ref cur = false ->
  Stage9.stack_scan (S fuel) b r ref c = Stage9.stack_scan fuel b r ref (c + 1).
Proof. intros Hc Hm. simpl. by rewrite Hc, Hm. Qed.

Lemma stack_scan_end fuel b r ref c :
  b !! c = None -> Stage9.stack_scan (S fuel) b r ref c = Ok (b, r).
Proof. intros Hc. simpl. by rewrite Hc. Qed.

(** The inner loop permutes the list, keeps everything up to the
    reference in place and only moves the reference forward. *)
Lemma stack_scan_result fuel b r ref c b' r' :
  r < c ->
  Stage9.stack_scan fuel b r ref c = Ok (b', r') ->
  b' ≡ₚ b /\ take (r + 1) b' = take (r + 1) b /\ r <= r'
  /\ (r < length b -> r' < length b).
Proof.
  revert b r ref c. induction fuel as [|fuel IH]; intros b r ref c Hrc; [done|].
  destruct (b !! c) as [cur|] eqn:Hc.
  - destruct (Stage9.stacks_under ref cur) eqn:Hm.
    + rewrite (stack_scan_match _ _ _ _ _ _ Hrc Hc Hm). intros H.
      apply IH in H as (Hp & Ht & Hr & Hl); [|lia].
      assert (c < length b) by by eapply lookup_lt_Some.
      rewrite (move_length _ _ _ _ Hc) in Hl.
      split; [by rewrite Hp, (move_Permutation _ _ _ _ Hc)|].
      split; [|split; [lia|intros; apply Hl; lia]].
      rewrite <- (move_take (r + 1) (r + 1) c cur b) by (lia || done).
      apply (take_eq_le _ (r + 1 + 1)); [lia|done].
    + rewrite (stack_scan_skip _ _ _ _ _ _ Hc Hm). intros H.
      apply IH in H; [done|lia].
  - rewrite (stack_scan_end _ _ _ _ _ Hc). intros [= <- <-]. done.
Qed.

(** The inner loop ends within [scan_fuel]. *)
Lemma stack_scan_ends fuel b r ref c :
  r < c -> r < length b ->
  (length b - r) * S (length b) + (length b - c) < fuel ->
  exists b' r', Stage9.stack_scan fuel b r ref c = Ok (b', r').
Proof.
  revert b r ref c. induction fuel as [|fuel IH]; intros b r ref c Hrc Hr Hf;
    [by apply Nat.nlt_0_r in Hf|].
  destruct (b !! c) as [cur|] eqn:Hc.
  - assert (c < length b) by by eapply lookup_lt_Some.
    destruct (Stage9.stacks_under ref cur) eqn:Hm.
    + rewrite (stack_scan_match _ _ _ _ _ _ Hrc Hc Hm).
      apply IH; rewrite ?(move_length _ _ _ _ Hc); [lia|lia|].
      replace (length b - r) with (S (length b - (r + 1))) in Hf by lia.
      rewrite Nat.mul_succ_l in Hf.
      set (p := (length b - (r + 1)) * S (length b)) in *. clearbody p. lia.
    + rewrite (stack_scan_skip _ _ _ _ _ _ Hc Hm). apply IH; [lia|done|].
      set (p := (length b - r) * S (length b)) in *. clearbody p. lia.
  - rewrite (stack_scan_end _ _ _ _ _ Hc). by eexists _, _.
Qed.

Lemma scan_fuel_enough b r :
  r < length b ->
  (length b - r) * S (length b) + (length b - (r + 1))
  < Stage9.scan_fuel (length b).
Proof.
  intros Hr. unfold Stage9.scan_fuel.
  assert ((length b - r) * S (length b) <= length b * S (length b)) as H2
    by (apply Nat.mul_le_mono_r; lia).
  rewrite Nat.mul_succ_l.
  set (p := (length b - r) * S (length b)) in *.
  set (q := length b * S (length b)) in *. clearbody p q. lia.
Qed.

Lemma stack_loop_unfold fuel b r :
  Stage9.stack_loop (S fuel) b r
  = match b !! r with
    | None => Ok b
    | Some ref =>
        st <~ Stage9.stack_scan (Stage9.scan_fuel (length b)) b r ref (r + 1) ;;
        Stage9.stack_loop fuel st.1 (st.2 + 1)
    end.
Proof. done. Qed.

Lemma stack_loop_result fuel b r b' :
  Stage9.stack_loop fuel b r = Ok b' ->
  b' ≡ₚ b /\ take r b' = take r b.
Proof.
  revert b r. induction fuel as [|fuel IH]; intros b r; [done|].
  rewrite stack_loop_unfold. destruct (b !! r) as [ref|] eqn:Hr.
  - intros H. inv_bind H. destruct r0 as [b1 r1]. simpl in H.
    apply stack_scan_result in Hr0 as (Hp1 & Ht1 & Hr1 & _); [|lia].
    apply IH in H as [Hp Ht]. split; [by rewrite Hp|].
    transitivity (take r b1).
    + apply (take_eq_le _ (r1 + 1)); [lia|done].
    + apply (take_eq_le _ (r + 1)); [lia|done].
  - by intros [= <-].
Qed.

Lemma stack_loop_ends fuel b r :
  length b - r < fuel -> exists b', Stage9.stack_loop fuel b r = Ok b'.
Proof.
  revert b r. induction fuel as [|fuel IH]; intros b r Hf; [lia|].
  rewrite stack_loop_unfold.
  destruct (b !! r) as [ref|] eqn:Hr; [|by eexists].
  assert (r < length b) as Hrl by by eapply lookup_lt_Some.
  destruct (stack_scan_ends (Stage9.scan_fuel (length b)) b r ref (r + 1))
    as (b1 & r1 & Hs); [lia|done|by apply scan_fuel_enough|].
  rewrite Hs. simpl.
  apply stack_scan_result in Hs as (Hp1 & _ & Hr1 & _); [|lia].
  apply IH. rewrite Hp1. lia.
Qed.

Lemma vertical_column_stack_sort_total b :
  exists b', Stage9.vertical_column_stack_sort b = Ok b' /\ b' ≡ₚ b.
Proof.
  unfold Stage9.vertical_column_stack_sort. destruct b as [|x b]; [by exists []|].
  destruct (stack_loop_ends (S (length (x :: b))) (x :: b) 0) as [b' Hb']; [lia|].
  exists b'. split; [done|]. by apply stack_loop_result in Hb' as [? _].
Qed.

End StackLoops.

(* ===================================================================== *)
(** ** Stage 9: what a match does to the order *)
(* ===================================================================== *)

Section StackSplice.

Implicit Types (b : list HBucket) (ref cur : HBucket).

Lemma stack_scan_Ok_fuel fuel b r ref c res :
  Stage9.stack_scan fuel b r ref c = Ok res -> exists fuel', fuel = S fuel'.
Proof. destruct fuel; [done|]. by eexists. Qed.

(** The scan walks over a run of buckets that do not match. *)
Lemma stack_scan_skip_many n fuel b r ref c res :
  (forall k x, c <= k < c + n -> b !! k = Some x ->
               Stage9.stacks_under ref x = false) ->
  c + n <= length b ->
  Stage9.stack_scan fuel b r ref c = Ok res ->
  exists fuel', Stage9.stack_scan fuel' b r ref (c + n) = Ok res.
Proof.
  revert fuel c. induction n as [|n IH]; intros fuel c Hno Hlen Hs.
  - exists fuel. by rewrite Nat.add_0_r.
  - destruct (stack_scan_Ok_fuel _ _ _ _ _ _ Hs) as [fuel' ->].
    destruct (lookup_lt_is_Some_2 b c) as [x Hx]; [lia|].
    rewrite (stack_scan_skip _ _ _ _ _ _ Hx) in Hs by (apply (Hno c); [lia|done]).
    destruct (IH fuel' (c + 1)) as [f Hf]; [|lia|done|].
    + intros k y Hk. apply Hno. lia.
    + exists f. by replace (c + S n) with (c + 1 + n) by lia.
Qed.

(** The first bucket after the reference that matches it becomes its
    successor, and the new reference. *)
Lemma stack_scan_first_match fuel L ref mid cur post b' r' :
  Forall (fun x => Stage9.stacks_under ref x = false) mid ->
  Stage9.stacks_under ref cur = true ->
  Stage9.stack_scan fuel (L ++ ref :: mid ++ cur :: post) (length L) ref
    (length L + 1) = Ok (b', r') ->
  take (length L + 1 + 1) b' = L ++ [ref; cur] /\ length L + 1 <= r'.
Proof.
  intros Hmid Hcur Hs.
  set (b := L ++ ref :: mid ++ cur :: post) in *.
  assert (Hb : b = (L ++ [ref]) ++ mid ++ cur :: post)
    by (unfold b; by rewrite <- (assoc_L app)).
  assert (Hl1 : length (L ++ [ref]) = length L + 1)
    by (rewrite length_app; simpl; lia).
  apply (stack_scan_skip_many (length mid)) in Hs as [fuel1 Hs].
  - destruct (stack_scan_Ok_fuel _ _ _ _ _ _ Hs) as [fuel2 ->].
    assert (Hc : b !! (length L + 1 + length mid) = Some cur).
    { rewrite Hb, (assoc_L app), <- Hl1, <- length_app.
      by rewrite list_lookup_middle. }
    rewrite (stack_scan_match _ _ _ _ _ cur) in Hs by (lia || done).
    rewrite Hb, <- Hl1, move_middle in Hs.
    apply stack_scan_result in Hs as (_ & Ht & Hr & _); [|lia].
    rewrite Hl1 in Ht, Hr.
    split; [|lia]. rewrite Ht.
    rewrite <- (assoc_L app). simpl.
    replace (length L + 1 + 1) with (length (L ++ [ref; cur]))
      by (rewrite length_app; simpl; lia).
    replace (L ++ ref :: cur :: mid ++ post) with ((L ++ [ref; cur]) ++ mid ++ post)
      by by rewrite <- (assoc_L app).
    by rewrite take_app_length.
  - intros k x Hk Hx. rewrite Hb in Hx.
    rewrite lookup_app_r in Hx by lia.
    rewrite lookup_app_l in Hx by lia.
    rewrite Forall_forall in Hmid. apply Hmid. by eapply list_elem_of_lookup_2.
  - unfold b. rewrite !length_app. simpl. rewrite length_app. simpl. lia.
Qed.

Lemma stack_loop_first_match fuel L ref mid cur post out :
  Forall (fun x => Stage9.stacks_under ref x = false) mid ->
  Stage9.stacks_under ref cur = true ->
  Stage9.stack_loop fuel (L ++ ref :: mid ++ cur :: post) (length L) = Ok out ->
  take (length L + 1 + 1) out = L ++ [ref; cur].
Proof.
  intros Hmid Hcur. destruct fuel as [|fuel]; [done|].
  rewrite stack_loop_unfold, list_lookup_middle by done.
  intros H. inv_bind H. destruct r as [b1 r1]. simpl in H.
  apply stack_scan_first_match in Hr as [Ht Hr1]; [|done..].
  apply stack_loop_result in H as [_ H].
  rewrite <- Ht. apply (take_eq_le _ (r1 + 1)); [lia|done].
Qed.

(** A reference that matches nothing outside a prefix [P] reorders [P]
    only. *)
Lemma stack_scan_within fuel P T r ref c b' r' :
  (forall x y, x ∈ P -> y ∈ T -> Stage9.stacks_under x y = false) ->
  ref ∈ P -> r < c -> r < length P ->
  Stage9.stack_scan fuel (P ++ T) r ref c = Ok (b', r') ->
  exists P', P' ≡ₚ P /\ b' = P' ++ T /\ r' < length P.
Proof.
  revert P r ref c. induction fuel as [|fuel IH]; intros P r ref c Hno Href Hrc Hr;
    [done|].
  destruct ((P ++ T) !! c) as [cur|] eqn:Hc.
  - destruct (Stage9.stacks_under ref cur) eqn:Hm.
    + assert (c < length P) as HcP.
      { destruct (decide (c < length P)); [done|]. exfalso.
        rewrite lookup_app_r in Hc by lia.
        rewrite (Hno ref cur) in Hm; [done|done|]. by eapply list_elem_of_lookup_2. }
      rewrite (stack_scan_match _ _ _ _ _ cur) by (lia || done).
      rewrite lookup_app_l in Hc by done.
      rewrite delete_app_l by done.
      rewrite list_insert_at_app by (rewrite length_delete by eauto; lia).
      set (P1 := Py.list_insert_at (r + 1) cur (delete c P)).
      assert (P1 ≡ₚ P) as HP1 by by apply move_Permutation.
      intros H. apply IH in H as (P' & HP' & -> & Hr'); [| |rewrite HP1|lia|].
      * exists P'. rewrite HP1 in HP', Hr'. done.
      * intros x y Hx. apply Hno. by rewrite <- HP1.
      * by eapply list_elem_of_lookup_2.
      * rewrite HP1. lia.
    + rewrite (stack_scan_skip _ _ _ _ _ cur) by done.
      intros H. apply IH in H; [done..|lia|done].
  - rewrite stack_scan_end by done. intros [= <- <-]. by exists P.
Qed.

Lemma stack_loop_within fuel P T r out :
  (forall x y, x ∈ P -> y ∈ T -> Stage9.stacks_under x y = false) ->
  r <= length P ->
  Stage9.stack_loop fuel (P ++ T) r = Ok out ->
  exists P' fuel', P' ≡ₚ P
    /\ Stage9.stack_loop fuel' (P' ++ T) (length P') = Ok out.
Proof.
  revert P r. induction fuel as [|fuel IH]; intros P r Hno Hr; [done|].
  destruct (decide (r = length P)) as [->|Hne].
  { intros H. by exists P, (S fuel). }
  rewrite stack_loop_unfold.
  destruct (lookup_lt_is_Some_2 P r) as [ref Href]; [lia|].
  rewrite (lookup_app_l_Some _ _ _ _ Href).
  intros H. inv_bind H. destruct r0 as [b1 r1]. simpl in H.
  apply stack_scan_within in Hr0 as (P1 & HP1 & -> & Hr1);
    [|done|by eapply list_elem_of_lookup_2|lia|lia].
  apply IH in H as (P' & fuel' & HP' & H).
  - exists P', fuel'. split; [by rewrite HP'|done].
  - intros x y Hx. apply Hno. by rewrite <- HP1.
  - rewrite HP1. lia.
Qed.

Lemma vertical_column_stack_sort_loop b :
  Stage9.vertical_column_stack_sort b = Stage9.stack_loop (S (length b)) b 0.
Proof. by destruct b. Qed.

(** The splice, on the whole function. *)
Lemma stack_sort_splice pre ref mid cur post :
  (forall x y, x ∈ pre -> y ∈ ref :: mid ++ cur :: post -> ~ Spec.stacks x y) ->
  Forall (fun x => ~ Spec.stacks ref x) mid ->
  Spec.stacks ref cur ->
  exists pre' rest,
    Stage9.vertical_column_stack_sort (pre ++ ref :: mid ++ cur :: post)
    = Ok (pre' ++ ref :: cur :: rest)
    /\ pre' ≡ₚ pre /\ rest ≡ₚ mid ++ post.
Proof.
  intros Hpre Hmid Hcur.
  destruct (vertical_column_stack_sort_total (pre ++ ref :: mid ++ cur :: post))
    as (out & Hout & Hperm).
  rewrite Hout. rewrite vertical_column_stack_sort_loop in Hout.
  apply stack_loop_within in Hout as (pre' & fuel' & Hpre' & Hloop); [| |lia].
  - apply stack_loop_first_match in Hloop.
    + assert (Hsplit : out = pre' ++ ref :: cur :: drop (length pre' + 1 + 1) out).
      { rewrite <- (take_drop (length pre' + 1 + 1) out) at 1.
        by rewrite Hloop, <- (assoc_L app). }
      set (rest := drop _ out) in Hsplit. clearbody rest. subst out.
      exists pre', rest. split; [done|]. split; [done|].
      rewrite Hpre' in Hperm.
      apply Permutation_app_inv_l, Permutation_cons_inv in Hperm.
      rewrite <- Permutation_middle in Hperm.
      by apply Permutation_cons_inv in Hperm.
    + eapply Forall_impl; [exact Hmid|]. intros x. by rewrite stacks_under_false.
    + by apply stacks_under_spec.
  - intros x y Hx Hy. apply stacks_under_false. by apply Hpre.
Qed.

(** Renumbering. *)
Lemma imap_set_id_ids (l : list HBucket) :
  map (fun h => horizontal_bucket_id (hb_info h))
    (imap Stage9.set_horizontal_bucket_id l) = seq 0 (length l).
Proof.
  apply list_eq. intros i.
  rewrite list_lookup_fmap, list_lookup_imap.
  destruct (l !! i) as [x|] eqn:Hi; simpl.
  - symmetry. apply lookup_seq. split; [done|]. by eapply lookup_lt_Some.
  - symmetry. apply lookup_seq_ge. by apply lookup_ge_None.
Qed.

End StackSplice.

(* ===================================================================== *)
(** ** The Line Merger (claims C2 and C3) *)
(* ===================================================================== *)

(** C2. With adaptive thresholds present, a reference and a candidate merge
    exactly when their [mid_y] differ by less than the vertical merge
    tolerance and their horizontal gap is less than three times the average
    of their character widths (36 for an undefined or zero width).  The
    merged Line joins the two texts with one space, the text of the box
    that starts further left first; its box is the union of the boxes, its
    character count the sum plus one, its word count the sum and its
    confidence the greater of the two.  In the loop, the first candidate of
    the lookahead window that satisfies the rule is merged into the
    reference and removed; when none does, the list is left as it is. *)
Theorem line_merge_rule (th : Thresholds) (reference candidate : Block) :
  ((Stage6.should_merge_blocks reference candidate (Some th)).1 = true
   <-> Spec.merges th reference candidate)
  /\ (let merged := Stage6.merge_two_blocks reference candidate in
      text merged
      = (if decide (start_x reference <= start_x candidate)%Z
         then text reference ++ " " ++ text candidate
         else text candidate ++ " " ++ text reference)%string
      /\ start_x merged = Z.min (start_x reference) (start_x candidate)
      /\ end_x merged = Z.max (end_x reference) (end_x candidate)
      /\ start_y merged = Z.min (start_y reference) (start_y candidate)
      /\ end_y merged = Z.max (end_y reference) (end_y candidate)
      /\ char_count merged = (char_count reference + char_count candidate + 1)%Z
      /\ word_count merged = (word_count reference + word_count candidate)%Z
      /\ (confidence reference <= confidence merged)%Q
      /\ (confidence candidate <= confidence merged)%Q
      /\ (confidence merged = confidence reference
          \/ confidence merged = confidence candidate))
  /\ (forall fuel merged_blocks merges i j,
         merged_blocks !! j = Some candidate ->
         i < j < Nat.min (i + 1 + 20) (length merged_blocks) ->
         Spec.merges th reference candidate ->
         (forall k c, i < k < j -> merged_blocks !! k = Some c ->
                      ~ Spec.merges th reference c) ->
         Stage6.merge_at_reference (S fuel) (Some th) merged_blocks merges i reference
         = Stage6.merge_at_reference fuel (Some th)
             (delete j (<[i:=Stage6.merge_two_blocks reference candidate]>
                          merged_blocks))
             (S merges) i (Stage6.merge_two_blocks reference candidate))
  /\ (forall fuel merged_blocks merges i,
         (forall k c, i < k < Nat.min (i + 1 + 20) (length merged_blocks) ->
                      merged_blocks !! k = Some c ->
                      ~ Spec.merges th reference c) ->
         Stage6.merge_at_reference (S fuel) (Some th) merged_blocks merges i reference
         = Ok (merged_blocks, merges)).
Proof.
  assert (Hfalse : forall c, ~ Spec.merges th reference c ->
            (Stage6.should_merge_blocks reference c (Some th)).1 = false).
  { intros c Hc. destruct (Stage6.should_merge_blocks reference c (Some th)).1 eqn:E;
      [|done]. by apply should_merge_adaptive_iff in E. }
  split; [apply should_merge_adaptive_iff|]. split; [|split].
  - unfold Stage6.merge_two_blocks, Stage6.first_block, Stage6.second_block.
    cbv zeta. simpl.
    destruct (Z.leb_spec (start_x reference) (start_x candidate)) as [Hle|Hlt];
      case_decide; try lia.
    + destruct (Qmax_cases (confidence reference) (confidence candidate))
        as (? & ? & ?).
      repeat split; done.
    + destruct (Qmax_cases (confidence candidate) (confidence reference))
        as (? & ? & Hc).
      repeat split; try done; try lia. by destruct Hc; [right|left].
  - intros fuel l merges i j Hj Hr Hm Hno. simpl.
    rewrite (scan_lookahead_first (Some th) reference l (i + 1) _ j candidate);
      [done|done| |by apply should_merge_adaptive_iff|].
    + apply window_count_range. lia.
    + intros k c Hk Hc. apply Hfalse. apply (Hno k c); [lia|done].
  - intros fuel l merges i Hno. simpl.
    rewrite scan_lookahead_none; [done|].
    intros k c Hk Hc. apply Hfalse. apply (Hno k c); [|done].
    by apply window_count_range.
Qed.

Lemma line_merge_rule_witness :
  Spec.merges (Stage5.default_thresholds 3) Examples.restart_reference
    Examples.restart_candidate
  /\ Stage6.merge_at_reference 3 Examples.restart_thresholds Examples.restart_lines
       0 1 Examples.restart_reference
     = Stage6.merge_at_reference 2 Examples.restart_thresholds
         (delete 2 (<[1:=Stage6.merge_two_blocks Examples.restart_reference
                           Examples.restart_candidate]> Examples.restart_lines))
         1 1
         (Stage6.merge_two_blocks Examples.restart_reference
            Examples.restart_candidate).
Proof.
  assert (Hm : Spec.merges (Stage5.default_thresholds 3) Examples.restart_reference
                 Examples.restart_candidate)
    by (split; vm_compute; reflexivity).
  split; [exact Hm|].
  destruct (line_merge_rule (Stage5.default_thresholds 3) Examples.restart_reference
              Examples.restart_candidate) as (_ & _ & Hstep & _).
  apply (Hstep 2 Examples.restart_lines 0 1 2).
  - vm_compute. reflexivity.
  - vm_compute. lia.
  - exact Hm.
  - intros k c Hk. lia.
Defined.

(** C3, counterexample.  On three Lines of which the last two merge, the
    merged Line is not tested against the first one; a second run of the
    merger on the output of the first merges them. *)
Lemma line_merger_second_run_merges :
  exists page1 page2,
    Stage6.merge_horizontal_counted Examples.restart_lines
      Examples.restart_thresholds = Ok (page1, 1)
    /\ map text (Stage6.line_blocks page1) = ["AAAAA"; "CCCC BBBB"]%string
    /\ Stage6.merge_horizontal_counted (Stage6.line_blocks page1)
         Examples.restart_thresholds = Ok (page2, 1)
    /\ map text (Stage6.line_blocks page2) = ["AAAAA CCCC BBBB"]%string.
Proof.
  eexists _, _. split; [vm_compute; reflexivity|].
  split; [vm_compute; reflexivity|].
  split; vm_compute; reflexivity.
Qed.

(** C3, amended.  When the merger has finished with the reference at
    position [i], the Line at that position merges with none of the Lines
    within the 20 positions after it in the list as it is at that moment
    (and the inner loop always reaches that point). *)
Theorem line_merger_reference_stable (thresholds : option Thresholds)
    (merged_blocks : list Block) (merges i : nat) (ref_block : Block) :
  merged_blocks !! i = Some ref_block ->
  exists merged_blocks' merges' ref_block',
    Stage6.merge_at_reference (length merged_blocks) thresholds
      merged_blocks merges i ref_block = Ok (merged_blocks', merges')
    /\ merged_blocks' !! i = Some ref_block'
    /\ forall j current_block,
         i < j < Nat.min (i + 1 + 20) (length merged_blocks') ->
         merged_blocks' !! j = Some current_block ->
         (Stage6.should_merge_blocks ref_block' current_block thresholds).1 = false.
Proof.
  intros Hi.
  destruct (merge_at_reference_ends thresholds (length merged_blocks)
              merged_blocks merges i ref_block Hi)
    as (l' & m' & ref' & Hrun & Hi' & _ & _ & _ & Hscan); [lia|].
  exists l', m', ref'. split; [done|]. split; [done|].
  intros j cur Hj Hcur.
  apply (scan_lookahead_None _ _ _ _ _ Hscan j cur); [|done].
  by apply window_count_range.
Qed.

Lemma line_merger_reference_stable_witness :
  Examples.restart_lines !! 1 = Some Examples.restart_reference
  /\ exists merged_blocks' merges' ref_block',
       Stage6.merge_at_reference (length Examples.restart_lines)
         Examples.restart_thresholds Examples.restart_lines 0 1
         Examples.restart_reference = Ok (merged_blocks', merges')
       /\ merged_blocks' !! 1 = Some ref_block'
       /\ forall j current_block,
            1 < j < Nat.min (1 + 1 + 20) (length merged_blocks') ->
            merged_blocks' !! j = Some current_block ->
            (Stage6.should_merge_blocks ref_block' current_block
               Examples.restart_thresholds).1 = false.
Proof.
  split; [vm_compute; reflexivity|].
  apply (line_merger_reference_stable Examples.restart_thresholds
           Examples.restart_lines 0 1 Examples.restart_reference).
  vm_compute; reflexivity.
Defined.

(* ===================================================================== *)
(** ** The Block Builder and the Segment Builder (claims C4 and C5) *)
(* ===================================================================== *)

(** The first-fit rule leaves no choice: the groups before the accepting
    one all reject the element, so the accepting group is the first one. *)
Lemma first_fit_split {A} (accepts : A -> A -> Prop) (x : A)
    (pre1 pre2 : list (list A)) (g1 g2 : list A) (post1 post2 : list (list A))
    (m1 m2 : A) :
  pre1 ++ g1 :: post1 = pre2 ++ g2 :: post2 ->
  last g1 = Some m1 -> accepts m1 x -> Forall (Spec.rejects accepts x) pre1 ->
  last g2 = Some m2 -> accepts m2 x -> Forall (Spec.rejects accepts x) pre2 ->
  pre1 = pre2 /\ g1 = g2 /\ post1 = post2.
Proof.
  revert pre2. induction pre1 as [|h1 pre1 IH]; intros [|h2 pre2]; simpl;
    intros Heq Hl1 Ha1 Hr1 Hl2 Ha2 Hr2.
  - by injection Heq as -> ->.
  - injection Heq as -> _. inversion_clear Hr2 as [|? ? Hh _].
    by destruct (Hh m1 Hl1).
  - injection Heq as -> _. inversion_clear Hr1 as [|? ? Hh _].
    by destruct (Hh m2 Hl2).
  - injection Heq as -> Heq. inversion_clear Hr1. inversion_clear Hr2.
    destruct (IH pre2 Heq) as (-> & -> & ->); done.
Qed.

Lemma first_fit_step_functional {A} (accepts : A -> A -> Prop)
    (groups : list (list A)) (x : A) (groups1 groups2 : list (list A)) :
  Spec.first_fit_step accepts groups x groups1 ->
  Spec.first_fit_step accepts groups x groups2 ->
  groups1 = groups2.
Proof.
  intros [(pre1 & g1 & m1 & post1 & E1 & Hl1 & Ha1 & Hr1 & ->)|[Hn1 ->]]
         [(pre2 & g2 & m2 & post2 & E2 & Hl2 & Ha2 & Hr2 & ->)|[Hn2 ->]].
  - rewrite E1 in E2.
    by destruct (first_fit_split accepts x _ _ _ _ _ _ _ _ E2 Hl1 Ha1 Hr1 Hl2 Ha2 Hr2)
      as (-> & -> & ->).
  - rewrite E1 in Hn2. apply Forall_app in Hn2 as [_ Hn2].
    inversion_clear Hn2 as [|? ? Hg _]. by destruct (Hg m1 Hl1).
  - rewrite E2 in Hn1. apply Forall_app in Hn1 as [_ Hn1].
    inversion_clear Hn1 as [|? ? Hg _]. by destruct (Hg m2 Hl2).
  - done.
Qed.

(** C4.  With adaptive thresholds, the Block Builder returns no Block for
    no Line and one Block holding the Line for a single Line.  For more
    Lines it always returns: the first Block starts with the first Line,
    and a Line that comes after the Lines placed so far joins the first
    Block, in creation order, whose last Line accepts it (vertical
    tolerance on [mid_y], and one of the three horizontal tests, the one on
    [start_x] with twice the tolerance); when no Block accepts it, it
    starts a new Block at the end.  The rule allows no other result, so
    the Blocks are determined by the Lines and their order. *)
Theorem block_builder_first_fit (th : Thresholds) (first : Block) (rest : list Block) :
  Stage7.create_buckets [] (Some th) = Ok []
  /\ Stage7.create_buckets [first] (Some th) = Ok [[first]]
  /\ exists groups,
       Stage7.create_buckets (first :: rest) (Some th) = Ok groups
       /\ (exists g groups0, groups = (first :: g) :: groups0)
       /\ forall line,
            exists groups',
              Stage7.create_buckets (first :: rest ++ [line]) (Some th) = Ok groups'
              /\ Spec.first_fit_step (Spec.block_accepts th) groups line groups'
              /\ forall other,
                   Spec.first_fit_step (Spec.block_accepts th) groups line other ->
                   other = groups'.
Proof.
  split; [reflexivity|]. split; [reflexivity|].
  destruct (build_rule (FirstFit.bucket_test (Some th)) (Spec.block_accepts th)
              (fun _ => True) (bucket_test_decides th) first rest)
    as (groups & Hb & Hseed & Hstep); [done|by apply Forall_true|].
  exists groups. rewrite create_buckets_generic. split; [done|]. split; [done|].
  intros line. destruct (Hstep line I) as (groups' & Hb' & Hs).
  exists groups'. rewrite (create_buckets_generic _ (first :: rest ++ [line])).
  split; [done|]. split; [done|].
  intros other Ho. exact (first_fit_step_functional _ _ _ _ _ Ho Hs).
Qed.

(** C5, counterexample.  The [start_x] test of the Segment Builder uses
    the tolerance itself, not twice the tolerance: a Block indented by 15
    under a Block, with an average character width of 10 and no other
    alignment, passes the test of §4.4 with the doubled tolerance and
    still starts a Segment of its own. *)
Lemma segment_builder_start_x_not_doubled :
  Spec.segment_accepts 2 Examples.indent_upper Examples.indent_lower
  /\ Stage8.create_horizontal_buckets [Examples.indent_upper; Examples.indent_lower]
     = Ok [[Examples.indent_upper]; [Examples.indent_lower]].
Proof.
  split; [|vm_compute; reflexivity].
  split; [vm_compute; reflexivity|].
  left. vm_compute. reflexivity.
Qed.

(** C5, amended.  For Blocks whose Lines all have a character width, the
    Segment Builder is the same first-fit loop one level up: no Segment for
    no Block, one Segment holding the Block for a single Block, and after
    that a Block joins the first Segment whose last Block [b] has
    [start_y - b.end_y < average of the two average heights] and passes one
    of the three horizontal tests against the average of the two average
    character widths, all three with that same tolerance; when no Segment
    accepts it, it starts a new Segment at the end.  The rule allows no
    other result. *)
Theorem segment_builder_first_fit (first : VBucket) (rest : list VBucket) :
  Spec.widths_defined first -> Forall Spec.widths_defined rest ->
  Stage8.create_horizontal_buckets [] = Ok []
  /\ Stage8.create_horizontal_buckets [first] = Ok [[first]]
  /\ exists groups,
       Stage8.create_horizontal_buckets (first :: rest) = Ok groups
       /\ (exists g groups0, groups = (first :: g) :: groups0)
       /\ forall block, Spec.widths_defined block ->
            exists groups',
              Stage8.create_horizontal_buckets (first :: rest ++ [block]) = Ok groups'
              /\ Spec.first_fit_step (Spec.segment_accepts 1) groups block groups'
              /\ forall other,
                   Spec.first_fit_step (Spec.segment_accepts 1) groups block other ->
                   other = groups'.
Proof.
  intros Hfirst Hrest.
  split; [reflexivity|]. split; [reflexivity|].
  destruct (build_rule FirstFit.horizontal_bucket_test (Spec.segment_accepts 1)
              Spec.widths_defined should_add_to_horizontal_bucket_decides
              first rest Hfirst Hrest)
    as (groups & Hb & Hseed & Hstep).
  exists groups. rewrite create_horizontal_buckets_generic.
  split; [done|]. split; [done|].
  intros block Hblock. destruct (Hstep block Hblock) as (groups' & Hb' & Hs).
  exists groups'. rewrite (create_horizontal_buckets_generic (first :: rest ++ [block])).
  split; [done|]. split; [done|].
  intros other Ho. exact (first_fit_step_functional _ _ _ _ _ Ho Hs).
Qed.

Lemma segment_builder_first_fit_witness :
  Spec.widths_defined Examples.indent_upper
  /\ Forall Spec.widths_defined [Examples.indent_lower]
  /\ Stage8.create_horizontal_buckets [] = Ok []
  /\ Stage8.create_horizontal_buckets [Examples.indent_upper]
     = Ok [[Examples.indent_upper]]
  /\ exists groups,
       Stage8.create_horizontal_buckets [Examples.indent_upper; Examples.indent_lower]
       = Ok groups
       /\ (exists g groups0, groups = (Examples.indent_upper :: g) :: groups0)
       /\ forall block, Spec.widths_defined block ->
            exists groups',
              Stage8.create_horizontal_buckets
                (Examples.indent_upper :: [Examples.indent_lower] ++ [block])
              = Ok groups'
              /\ Spec.first_fit_step (Spec.segment_accepts 1) groups block groups'
              /\ forall other,
                   Spec.first_fit_step (Spec.segment_accepts 1) groups block other ->
                   other = groups'.
Proof.
  assert (H1 : Spec.widths_defined Examples.indent_upper)
    by (repeat constructor; vm_compute; discriminate).
  assert (H2 : Forall Spec.widths_defined [Examples.indent_lower])
    by (repeat constructor; vm_compute; discriminate).
  split; [exact H1|]. split; [exact H2|].
  exact (segment_builder_first_fit Examples.indent_upper [Examples.indent_lower] H1 H2).
Defined.

(* ===================================================================== *)
(** ** The Reorderer (claims C6 and C10) *)
(* ===================================================================== *)

Lemma process_page_result (page : Stage8.HorizontalBucketPage) :
  exists reordered,
    Stage9.vertical_column_stack_sort (Stage8.horizontal_buckets page) = Ok reordered
    /\ reordered ≡ₚ Stage8.horizontal_buckets page
    /\ Stage9.process_page page
       = Ok (Stage8.mkHorizontalBucketPage
               (Stage8.total_text_blocks page) (Stage8.total_vertical_buckets page)
               (Stage8.total_horizontal_buckets page)
               (imap Stage9.set_horizontal_bucket_id reordered)
               (Stage8.adaptive_thresholds page)).
Proof.
  destruct (vertical_column_stack_sort_total (Stage8.horizontal_buckets page))
    as (reordered & Hs & Hp).
  exists reordered. split; [done|]. split; [done|].
  unfold Stage9.process_page. by rewrite Hs.
Qed.

(** C6, counterexample.  Between the two Segments of scenario C stands an
    inset whose right edge is aligned with the first one and whose top
    lies above the bottom of the first one, so the first one matches it.
    The inset becomes the reference, the second Segment is too far below
    the inset to match it, and nothing moves: the second Segment does not
    come immediately after the first. *)
Lemma reorderer_blocked_by_intervening_match :
  Spec.edges Examples.column_top = (10, 45, 10, 30)%Z
  /\ Spec.edges Examples.column_bottom = (11, 44, 32, 50)%Z
  /\ Stage9.vertical_column_stack_sort
       [Examples.column_top; Examples.inset; Examples.column_bottom]
     = Ok [Examples.column_top; Examples.inset; Examples.column_bottom].
Proof. repeat split; vm_compute; reflexivity. Qed.

(** C6, amended.  Let a Segment with edges (left 10, right 45, top 10,
    bottom 30) precede a Segment with edges (11, 44, 32, 50), and let no
    Segment before the first one match, as a reference, the first one or
    any Segment after it, and no Segment between the two match the first
    one (match: column-aligned and vertically close).  Then the Reorderer
    moves the second Segment to the position immediately after the first.
    On every page the Reorderer returns, and the ids of the page it
    returns are 0 .. N-1 in the final order. *)
Theorem column_stacking_scenario :
  (forall (pre mid post : list HBucket) (s1 s2 : HBucket),
      Spec.edges s1 = (10, 45, 10, 30)%Z ->
      Spec.edges s2 = (11, 44, 32, 50)%Z ->
      (forall x y, x ∈ pre -> y ∈ s1 :: mid ++ s2 :: post -> ~ Spec.stacks x y) ->
      Forall (fun x => ~ Spec.stacks s1 x) mid ->
      exists pre' rest,
        Stage9.vertical_column_stack_sort (pre ++ s1 :: mid ++ s2 :: post)
        = Ok (pre' ++ s1 :: s2 :: rest)
        /\ pre' ≡ₚ pre /\ rest ≡ₚ mid ++ post)
  /\ (forall page : Stage8.HorizontalBucketPage,
        exists reordered page',
          Stage9.vertical_column_stack_sort (Stage8.horizontal_buckets page)
          = Ok reordered
          /\ Stage9.process_page page = Ok page'
          /\ Stage8.horizontal_buckets page'
             = imap Stage9.set_horizontal_bucket_id reordered
          /\ Spec.segment_ids (Stage8.horizontal_buckets page')
             = seq 0 (length (Stage8.horizontal_buckets page))).
Proof.
  split.
  - intros pre mid post s1 s2 Hs1 Hs2 Hpre Hmid.
    apply stack_sort_splice; [done|done|].
    unfold Spec.edges in Hs1, Hs2. injection Hs1 as Hl1 Hr1 Ht1 Hb1.
    injection Hs2 as Hl2 Hr2 Ht2 Hb2.
    unfold Spec.stacks, Spec.column_aligned, Spec.vertically_close.
    rewrite Hl1, Hl2, Ht2, Hb1. split; [left|]; lia.
  - intros page.
    destruct (process_page_result page) as (reordered & Hsort & Hperm & Hproc).
    eexists reordered, _. split; [done|]. split; [exact Hproc|]. simpl.
    split; [done|].
    unfold Spec.segment_ids. rewrite imap_set_id_ids. by rewrite Hperm.
Qed.

Lemma column_stacking_scenario_witness :
  exists pre' rest,
    Stage9.vertical_column_stack_sort
      ([Examples.header] ++ Examples.column_top :: [Examples.other_column]
         ++ Examples.column_bottom :: [])
    = Ok (pre' ++ Examples.column_top :: Examples.column_bottom :: rest)
    /\ pre' ≡ₚ [Examples.header] /\ rest ≡ₚ [Examples.other_column] ++ [].
Proof.
  apply (proj1 column_stacking_scenario
           [Examples.header] [Examples.other_column] []
           Examples.column_top Examples.column_bottom).
  - reflexivity.
  - reflexivity.
  - intros x y Hx Hy. apply stacks_under_false.
    apply list_elem_of_singleton in Hx as ->.
    repeat (apply elem_of_cons in Hy as [->|Hy]; [vm_compute; reflexivity|]).
    by apply not_elem_of_nil in Hy.
  - repeat constructor. apply stacks_under_false. vm_compute. reflexivity.
Defined.

(** C10.  The vertical-closeness test is [top - bottom <= 3] and nothing
    else, so it holds for every negative gap: a Segment that overlaps the
    reference or lies above it counts as vertically close.  Whenever the
    scan examines such a Segment and it is aligned with the reference
    within 3 points, it is removed from its position and inserted
    immediately after the reference, and becomes the reference; on the
    whole function, when no Segment between the two matches the reference,
    it ends up immediately after the reference. *)
Theorem vertically_close_has_no_lower_bound :
  (forall ref current : HBucket,
      Stage9.is_vertically_close ref current Stage9.default_threshold = true
      <-> (top_edge current - bottom_edge ref <= 3)%Z)
  /\ (forall (fuel : nat) (buckets : list HBucket) (ref_index current_index : nat)
             (ref current : HBucket),
        ref_index < current_index ->
        buckets !! ref_index = Some ref ->
        buckets !! current_index = Some current ->
        (top_edge current - bottom_edge ref <= 3)%Z ->
        Spec.column_aligned ref current ->
        let buckets' :=
          Py.list_insert_at (ref_index + 1) current (delete current_index buckets) in
        Stage9.stack_scan (S fuel) buckets ref_index ref current_index
        = Stage9.stack_scan fuel buckets' (ref_index + 1) current (ref_index + 1 + 1)
        /\ buckets' !! ref_index = Some ref
        /\ buckets' !! (ref_index + 1) = Some current)
  /\ (forall (ref current : HBucket) (mid post : list HBucket),
        (top_edge current - bottom_edge ref <= 3)%Z ->
        Spec.column_aligned ref current ->
        Forall (fun x => ~ Spec.stacks ref x) mid ->
        exists rest,
          Stage9.vertical_column_stack_sort (ref :: mid ++ current :: post)
          = Ok (ref :: current :: rest)
          /\ rest ≡ₚ mid ++ post).
Proof.
  split; [apply is_vertically_close_spec|]. split.
  - intros fuel buckets r c ref current Hrc Hr Hc Hclose Halign. cbv zeta.
    assert (Stage9.stacks_under ref current = true) as Hm
      by by apply stacks_under_spec.
    split; [by apply stack_scan_match|]. split; [|by apply move_lookup; [lia|]].
    rewrite <- Hr, <- (lookup_take_lt _ (r + 1)) by lia.
    rewrite (move_take (r + 1) (r + 1) c current buckets) by (lia || done).
    apply lookup_take_lt. lia.
  - intros ref current mid post Hclose Halign Hmid.
    destruct (stack_sort_splice [] ref mid current post)
      as (pre' & rest & Hs & Hp & Hr).
    + intros x y Hx. by apply not_elem_of_nil in Hx.
    + done.
    + by split.
    + apply Permutation_nil_r in Hp as ->. by exists rest.
Qed.

Lemma vertically_close_has_no_lower_bound_witness :
  Stage9.is_vertically_close Examples.column_top Examples.above_top
    Stage9.default_threshold = true
  /\ (top_edge Examples.above_top - bottom_edge Examples.column_top = -28)%Z
  /\ exists rest,
       Stage9.vertical_column_stack_sort
         (Examples.column_top :: [Examples.other_column] ++ Examples.above_top :: [])
       = Ok (Examples.column_top :: Examples.above_top :: rest)
       /\ rest ≡ₚ [Examples.other_column] ++ [].
Proof.
  destruct vertically_close_has_no_lower_bound as (Hiff & _ & Hsplice).
  split; [apply Hiff; vm_compute; discriminate|].
  split; [reflexivity|].
  apply Hsplice.
  - vm_compute. discriminate.
  - left. vm_compute. discriminate.
  - repeat constructor. apply stacks_under_false. vm_compute. reflexivity.
Defined.

(* ===================================================================== *)
(** ** When the pipeline returns *)
(* ===================================================================== *)

Section Returns.

Lemma Forall_sorted {A} (key : A -> Q) (P : A -> Prop) (l : list A) :
  Forall P l -> Forall P (Py.sorted key l).
Proof. by rewrite sorted_Permutation. Qed.

(** Merging keeps every property that [merge_two_blocks] keeps. *)
Section MergeInvariant.
Variable P : Block -> Prop.
Hypothesis P_merge : forall a b, P a -> P b -> P (Stage6.merge_two_blocks a b).
Variable thresholds : option Thresholds.

Lemma merge_at_reference_Forall fuel l m i ref l' m' :
  Forall P l -> P ref ->
  Stage6.merge_at_reference fuel thresholds l m i ref = Ok (l', m') ->
  Forall P l'.
Proof.
  revert l m ref. induction fuel as [|fuel IH]; intros l m ref Hl Href; simpl;
    [done|].
  destruct (Stage6.scan_lookahead _ _ _ _ _) as [[j cur]|] eqn:Es.
  - apply scan_lookahead_Some in Es as (Hj & _ & _).
    assert (P cur) by by eapply Forall_lookup_1.
    apply IH; [|by apply P_merge].
    apply Forall_delete. apply Forall_insert; [done|by apply P_merge].
  - by intros [= <- <-].
Qed.

Lemma merge_loop_Forall fuel l m i l' m' :
  Forall P l ->
  Stage6.merge_loop fuel thresholds l m i = Ok (l', m') -> Forall P l'.
Proof.
  revert l m i. induction fuel as [|fuel IH]; intros l m i Hl; simpl; [done|].
  destruct (l !! i) as [ref|] eqn:Ei.
  - intros H. inv_bind H. destruct r as [l1 m1]. simpl in H.
    apply merge_at_reference_Forall in Hr; [|done|by eapply Forall_lookup_1].
    by apply IH in H.
  - by intros [= <- <-].
Qed.

Lemma merge_blocks_counted_Forall blocks l' m' :
  Forall P blocks ->
  Stage6.merge_blocks_counted blocks thresholds = Ok (l', m') -> Forall P l'.
Proof.
  unfold Stage6.merge_blocks_counted. intros Hl. destruct (_ <? _).
  - by intros [= <- <-].
  - by apply merge_loop_Forall.
Qed.
End MergeInvariant.

Lemma has_text_merge a b :
  Spec.has_text a -> Spec.has_text b -> Spec.has_text (Stage6.merge_two_blocks a b).
Proof.
  unfold Spec.has_text, Stage6.merge_two_blocks, Stage6.first_block, Stage6.second_block.
  simpl. destruct (start_x a <=? start_x b)%Z; lia.
Qed.

Lemma metrics_from_has_width prev l :
  Forall Spec.has_text l -> Forall Spec.has_width (Stage5.metrics_from prev l).
Proof.
  intros Hl. revert prev. induction Hl as [|b l Hb _ IH]; intros prev; simpl;
    constructor; [|apply IH].
  unfold Spec.has_width, Stage5.block_metrics. simpl.
  unfold Spec.has_text in Hb. by destruct (Z.ltb_spec 0 (char_count b)); [|lia].
Qed.

Lemma metrics_from_has_text prev l :
  Forall Spec.has_text l -> Forall Spec.has_text (Stage5.metrics_from prev l).
Proof.
  intros Hl. revert prev. induction Hl as [|b l Hb _ IH]; intros prev; simpl;
    constructor; [done|apply IH].
Qed.

Lemma merged_blocks_has_text quadrants min_confidence :
  Forall Spec.has_text (Pipeline.surviving quadrants min_confidence) ->
  Forall Spec.has_text
    (Stage4.merged_blocks (Stage4.merge_page_quadrants quadrants min_confidence)).
Proof.
  intros H.
  change (Stage4.merged_blocks (Stage4.merge_page_quadrants quadrants min_confidence))
    with (map Stage4.scale_block
            (Py.sorted mid_y_x (Pipeline.surviving quadrants min_confidence))).
  apply Forall_map. by apply (Forall_sorted mid_y_x) in H.
Qed.

(** Stage 6 always returns. *)
Lemma merge_horizontal_counted_returns blocks thresholds :
  Forall Spec.has_text blocks ->
  exists page merges,
    Stage6.merge_horizontal_counted blocks thresholds = Ok (page, merges)
    /\ Stage6.adaptive_thresholds page = thresholds
    /\ Forall Spec.has_width (Stage6.line_blocks page).
Proof.
  intros Hb. unfold Stage6.merge_horizontal_counted.
  destruct (merge_blocks_counted_total thresholds (Py.sorted mid_y_x blocks))
    as (l' & m' & Hm & _).
  rewrite Hm. simpl. eexists _, _. split; [done|]. simpl. split; [done|].
  apply metrics_from_has_width, Forall_sorted.
  eapply (merge_blocks_counted_Forall Spec.has_text has_text_merge); [|exact Hm].
  by apply Forall_sorted.
Qed.

Lemma mapM_enumerate_returns {A B} (f : nat -> A -> result B) idx (l : list A) :
  Forall (fun x => forall i, exists y, f i x = Ok y) l ->
  exists ys, Stage7.mapM_enumerate f idx l = Ok ys.
Proof.
  intros Hl. revert idx. induction Hl as [|x l Hx _ IH]; intros idx; simpl.
  - by eexists.
  - destruct (Hx idx) as [y ->]. destruct (IH (S idx)) as [ys ->]. by eexists.
Qed.

Lemma min_Z_is_Some {A} (f : A -> Z) (l : list A) :
  l <> [] -> exists z, Py.min_Z (map f l) = Some z.
Proof. destruct l; [done|]. by eexists. Qed.

Lemma max_Z_is_Some {A} (f : A -> Z) (l : list A) :
  l <> [] -> exists z, Py.max_Z (map f l) = Some z.
Proof. destruct l; [done|]. by eexists. Qed.

Lemma min_Q_is_Some {A} (f : A -> Q) (l : list A) :
  l <> [] -> exists z, Py.min_Q (map f l) = Some z.
Proof. destruct l; [done|]. by eexists. Qed.

Lemma bucket_info_returns idx bucket :
  bucket <> [] -> exists v, Stage7.bucket_info idx bucket = Ok v.
Proof.
  intros Hne. unfold Stage7.bucket_info.
  destruct (min_Z_is_Some start_x bucket Hne) as [? ->].
  destruct (max_Z_is_Some end_x bucket Hne) as [? ->].
  destruct (min_Z_is_Some start_y bucket Hne) as [? ->].
  destruct (max_Z_is_Some end_y bucket Hne) as [? ->].
  destruct (min_Z_is_Some mid_y bucket Hne) as [? ->].
  destruct (min_Q_is_Some mid_y_x bucket Hne) as [? ->].
  by eexists.
Qed.

Lemma h_bucket_info_returns idx h_bucket :
  h_bucket <> [] -> exists info, Stage8.h_bucket_info idx h_bucket = Ok info.
Proof.
  intros Hne. unfold Stage8.h_bucket_info.
  destruct (min_Z_is_Some vb_start_x h_bucket Hne) as [? ->].
  destruct (max_Z_is_Some vb_end_x h_bucket Hne) as [? ->].
  destruct (min_Z_is_Some vb_start_y h_bucket Hne) as [? ->].
  destruct (max_Z_is_Some vb_end_y h_bucket Hne) as [? ->].
  destruct (min_Q_is_Some vb_min_mid_y_x h_bucket Hne) as [? ->].
  by eexists.
Qed.

(** Stage 7 returns when the thresholds are present. *)
Lemma process_page_buckets_returns page th :
  Stage6.adaptive_thresholds page = Some th ->
  Forall Spec.has_width (Stage6.line_blocks page) ->
  exists page', Stage7.process_page_buckets page = Ok page'
    /\ Forall Spec.widths_defined (Stage7.buckets page').
Proof.
  intros Hth Hw. unfold Stage7.process_page_buckets. rewrite Hth.
  set (lines := Py.sorted mid_y_x (Stage6.line_blocks page)).
  assert (exists groups, Stage7.create_buckets lines (Some th) = Ok groups)
    as [groups Hg].
  { rewrite create_buckets_generic.
    destruct lines as [|first rest]; [by eexists|].
    destruct (build_rule (FirstFit.bucket_test (Some th)) (Spec.block_accepts th)
                (fun _ => True) (bucket_test_decides th) first rest)
      as (g & ? & _); [done|by apply Forall_true|]. by exists g. }
  rewrite Hg. simpl.
  rewrite create_buckets_generic in Hg. apply build_groups in Hg as [Hp Hne].
  destruct (mapM_enumerate_returns Stage7.bucket_info 0 groups) as [data Hd].
  { eapply Forall_impl; [exact Hne|]. intros b Hb i. by apply bucket_info_returns. }
  rewrite Hd. simpl. eexists. split; [done|]. simpl.
  apply Forall_sorted.
  apply (mapM_enumerate_proj _ blocks) in Hd; [|apply bucket_info_blocks].
  assert (Forall (Forall Spec.has_width) groups) as Hgw.
  { apply Forall_concat. rewrite Hp. unfold lines. by apply Forall_sorted. }
  rewrite <- Hd in Hgw. apply (proj1 (Forall_map _ _ _)) in Hgw. exact Hgw.
Qed.

(** Stage 8 returns when every Line has a character width. *)
Lemma process_page_horizontal_buckets_returns page :
  Forall Spec.widths_defined (Stage7.buckets page) ->
  exists page', Stage8.process_page_horizontal_buckets page = Ok page'.
Proof.
  intros Hw. unfold Stage8.process_page_horizontal_buckets.
  assert (exists groups, Stage8.create_horizontal_buckets (Stage7.buckets page)
                         = Ok groups) as [groups Hg].
  { rewrite create_horizontal_buckets_generic.
    destruct (Stage7.buckets page) as [|first rest]; [by eexists|].
    inversion_clear Hw as [|? ? Hf Hr].
    destruct (build_rule FirstFit.horizontal_bucket_test (Spec.segment_accepts 1)
                Spec.widths_defined should_add_to_horizontal_bucket_decides
                first rest Hf Hr) as (g & ? & _).
    by exists g. }
  rewrite Hg. simpl.
  rewrite create_horizontal_buckets_generic in Hg.
  apply build_groups in Hg as [_ Hne].
  destruct (mapM_enumerate_returns Stage8.h_bucket_info 0 groups) as [data Hd].
  { eapply Forall_impl; [exact Hne|]. intros b Hb i. by apply h_bucket_info_returns. }
  rewrite Hd. simpl. by eexists.
Qed.

(** The pipeline returns on every page whose surviving fragments have
    a text. *)
Lemma run_counted_returns quadrants min_confidence :
  Forall Spec.has_text (Pipeline.surviving quadrants min_confidence) ->
  exists page merges, Pipeline.run_counted quadrants min_confidence = Ok (page, merges).
Proof.
  intros Ht. unfold Pipeline.run_counted.
  set (merged := Stage4.merge_page_quadrants quadrants min_confidence).
  set (metrics := Stage5.calculate_metrics_for_page merged).
  destruct (merge_horizontal_counted_returns (Stage5.metrics_blocks metrics)
              (Stage5.adaptive_thresholds metrics))
    as (lines & merges & -> & Hth & Hw).
  { apply metrics_from_has_text. by apply merged_blocks_has_text. }
  simpl.
  destruct (process_page_buckets_returns lines _ Hth Hw) as (vertical & -> & Hv).
  simpl.
  destruct (process_page_horizontal_buckets_returns vertical Hv) as (horizontal & ->).
  simpl.
  destruct (process_page_result horizontal) as (? & _ & _ & ->). simpl.
  by eexists _, _.
Qed.

End Returns.

(* ===================================================================== *)
(** ** The whole pipeline (claims C1 and C9) *)
(* ===================================================================== *)

Section PipelineFacts.

Import Pipeline.

Lemma flat_map_imap_ext {A B} (g : A -> list B) (f : nat -> A -> A) (l : list A) :
  (forall i x, g (f i x) = g x) -> flat_map g (imap f l) = flat_map g l.
Proof.
  revert f. induction l as [|x l IH]; intros f Hf; simpl; [done|].
  rewrite Hf. f_equal. apply IH. intros i y. apply Hf.
Qed.

Lemma process_page_chars page page' :
  Stage9.process_page page = Ok page' ->
  segments_chars (Stage8.horizontal_buckets page')
  ≡ₚ segments_chars (Stage8.horizontal_buckets page).
Proof.
  destruct (process_page_result page) as (reordered & _ & Hp & ->).
  intros [= <-]. simpl. unfold segments_chars.
  rewrite flat_map_imap_ext by done.
  by apply flat_map_Permutation.
Qed.

End PipelineFacts.

(** C1.  When the pipeline returns the Segments of a page, the characters
    of their Lines' texts are, as a multiset, the characters of the
    fragments that passed the confidence filter together with one space
    for each merge of the Line Merger: stages 4 and 5 keep every text,
    stage 6 only joins two texts with a space, and stages 7, 8 and 9 only
    group and reorder.  The pipeline returns on every page whose surviving
    fragments have a text of at least one character. *)
Theorem text_conservation (quadrants : list Quadrant) (min_confidence : Q) :
  (forall (page : Stage8.HorizontalBucketPage) (merges : nat),
      Pipeline.run_counted quadrants min_confidence = Ok (page, merges) ->
      Pipeline.segments_chars (Stage8.horizontal_buckets page)
      ≡ₚ Pipeline.blocks_chars (Pipeline.surviving quadrants min_confidence)
         ++ replicate merges " "%char)
  /\ (Forall Spec.has_text (Pipeline.surviving quadrants min_confidence) ->
      exists page merges,
        Pipeline.run_counted quadrants min_confidence = Ok (page, merges)).
Proof.
  split; [|apply run_counted_returns].
  intros page merges. unfold Pipeline.run_counted. intros H.
  inv_bind H. destruct r as [lines n]. simpl in H.
  inv_bind H. inv_bind H. inv_bind H. injection H as <- <-.
  rewrite (process_page_chars _ _ Hr2).
  rewrite (process_page_horizontal_buckets_chars _ _ Hr1).
  rewrite (process_page_buckets_chars _ _ Hr0).
  rewrite (merge_horizontal_counted_chars _ _ _ _ Hr).
  change (Stage5.metrics_blocks (Stage5.calculate_metrics_for_page ?p))
    with (Stage5.calculate_block_metrics (Stage4.merged_blocks p)).
  rewrite calculate_block_metrics_chars.
  by rewrite merge_page_quadrants_chars.
Qed.

(** The pipeline does not return on every page: a Line without text has
    no character width, and the average of stage 8 over such a Line
    raises [TypeError]. *)
Lemma pipeline_raises_on_blank_fragments :
  Pipeline.run Examples.blank_page Stage4.default_min_confidence = Raise TypeError.
Proof. vm_compute. reflexivity. Qed.

Lemma text_conservation_witness :
  exists page,
    Pipeline.run_counted Examples.hello_page Stage4.default_min_confidence
    = Ok (page, 1)
    /\ Pipeline.segments_chars (Stage8.horizontal_buckets page)
       ≡ₚ Pipeline.blocks_chars
            (Pipeline.surviving Examples.hello_page Stage4.default_min_confidence)
          ++ replicate 1 " "%char.
Proof.
  eexists. split; [vm_compute; reflexivity|].
  apply (proj1 (text_conservation Examples.hello_page Stage4.default_min_confidence)).
  vm_compute. reflexivity.
Defined.

(** C9.  A page on which no fragment passes the confidence filter goes
    through the six stages without an exception and yields no Segment; on
    the empty list every stage returns the empty list, and the Line Merger
    returns a list of one fragment as it is. *)
Theorem empty_page_passes_through (quadrants : list Quadrant) (min_confidence : Q) :
  Pipeline.surviving quadrants min_confidence = [] ->
  (exists page, Pipeline.run quadrants min_confidence = Ok page
                /\ Stage8.horizontal_buckets page = [])
  /\ Stage4.merged_blocks (Stage4.merge_page_quadrants quadrants min_confidence) = []
  /\ Stage5.calculate_block_metrics [] = []
  /\ (forall thresholds, Stage6.merge_blocks_recursive [] thresholds = Ok [])
  /\ (forall thresholds b, Stage6.merge_blocks_recursive [b] thresholds = Ok [b])
  /\ (forall thresholds, Stage7.create_buckets [] thresholds = Ok [])
  /\ Stage8.create_horizontal_buckets [] = Ok []
  /\ (forall w h, Stage8.normalize_bucket_coordinates [] w h = [])
  /\ Stage9.vertical_column_stack_sort [] = Ok [].
Proof.
  intros Hempty. unfold Pipeline.surviving in Hempty.
  split; [|by repeat split; unfold Stage4.merge_page_quadrants; rewrite ?Hempty].
  unfold Pipeline.run, Pipeline.run_counted, Stage4.merge_page_quadrants.
  rewrite Hempty. eexists. split; reflexivity.
Qed.

Lemma empty_page_passes_through_witness :
  Pipeline.surviving Examples.noise_page Stage4.default_min_confidence = []
  /\ exists page,
       Pipeline.run Examples.noise_page Stage4.default_min_confidence = Ok page
       /\ Stage8.horizontal_buckets page = [].
Proof.
  assert (H : Pipeline.surviving Examples.noise_page Stage4.default_min_confidence = [])
    by (vm_compute; reflexivity).
  split; [exact H|].
  exact (proj1 (empty_page_passes_through Examples.noise_page
                  Stage4.default_min_confidence H)).
Defined.

(* ===================================================================== *)
(** ** The Fragment Assembler (claim C7) *)
(* ===================================================================== *)

(** Stage 4 sorts by the key of the coordinates before they are halved. *)
Lemma merge_page_quadrants_sorted_before_scaling quadrants min_confidence :
  Stage4.merged_blocks (Stage4.merge_page_quadrants quadrants min_confidence)
  = map Stage4.scale_block
      (Py.sorted mid_y_x (Pipeline.surviving quadrants min_confidence)).
Proof. done. Qed.

(** C7, the code at a failing input.  Two fragments "A" (x 0..40,
    y 93..113) and "B" (x 60..100, y 92..112) have the keys 103 and 103.2
    and are sorted as A, B; halving rounds the [mid_y] 103 and 102 to 52
    and 51, so the keys of the output are 52 and 51.6: the output list is
    not ascending by the key of its own coordinates. *)
Theorem fragment_order_lost_by_halving :
  let out := Stage4.merged_blocks
               (Stage4.merge_page_quadrants Examples.jitter_page
                  Stage4.default_min_confidence) in
  map text out = ["A"; "B"]%string
  /\ map mid_y out = [52; 51]%Z
  /\ map start_x out = [0; 30]%Z
  /\ Py.ascending mid_y_x out = false.
Proof. repeat split; vm_compute; reflexivity. Qed.

(* ===================================================================== *)
(** ** Normalisation (claim C8) *)
(* ===================================================================== *)

Lemma round_between (q : Q) (a b : Z) :
  (inject_Z a <= q)%Q -> (q <= inject_Z b)%Q -> (a <= Py.round q <= b)%Z.
Proof.
  intros Ha Hb.
  assert (a <= Qfloor q)%Z as Hfa.
  { rewrite <- (Qfloor_Z a). by apply Qfloor_resp_le. }
  assert (Qfloor q <= b)%Z as Hfb.
  { rewrite <- (Qfloor_Z b). by apply Qfloor_resp_le. }
  pose proof (Qfloor_le q) as Hfl.
  unfold Qle in Hb, Hfl. simpl in Hb, Hfl.
  unfold Py.round.
  destruct (Z.compare_spec (2 * Qnum q - 2 * Qfloor q * Z.pos (Qden q))
              (Z.pos (Qden q))) as [He|Hl|Hg].
  - destruct (Z.even (Qfloor q)); [lia|]. split; [lia|]. nia.
  - lia.
  - split; [lia|]. nia.
Qed.

(** On the reference page the normalised coordinates are percentages. *)
Lemma normalize_coordinate_on_page (coordinate page_dimension : Z) :
  (0 < page_dimension)%Z -> (0 <= coordinate <= page_dimension)%Z ->
  (0 <= Stage8.normalize_coordinate coordinate page_dimension <= 100)%Z.
Proof.
  intros Hd Hc. unfold Stage8.normalize_coordinate, Py.div.
  apply round_between.
  - unfold Qle, Qdiv, Qmult, Qinv, inject_Z. simpl.
    destruct page_dimension as [|p|p]; try lia. simpl. nia.
  - unfold Qle, Qdiv, Qmult, Qinv, inject_Z. simpl.
    destruct page_dimension as [|p|p]; try lia. simpl. nia.
Qed.

(** C8, the code at a failing input.  The page dimensions passed to the
    normalisation are always the defaults 2550 by 3300; a Block that ends
    at y = 3400 (a page taller than the reference, such as A4 at 300 DPI,
    3508 pixels) gets the bottom edge 103. *)
Theorem normalized_edge_above_100 :
  exists page,
    Stage8.process_page_horizontal_buckets Examples.tall_page = Ok page
    /\ map bottom_edge (Stage8.horizontal_buckets page) = [103%Z]
    /\ map top_edge (Stage8.horizontal_buckets page) = [102%Z].
Proof. eexists. split; [vm_compute; reflexivity|]. split; reflexivity. Qed.

(* ===================================================================== *)
(** ** More on rounding and sorting *)
(* ===================================================================== *)

Section RoundFacts.

Lemma round_inject_Z (z : Z) : Py.round (inject_Z z) = z.
Proof.
  unfold Py.round. rewrite Qfloor_Z. simpl.
  replace (2 * z - 2 * z * 1)%Z with 0%Z by lia. done.
Qed.

Lemma round_div_even (k : Z) : Py.round (Py.div (2 * k) 2) = k.
Proof.
  assert (Py.div (2 * k) 2 == inject_Z k)%Q as Heq.
  { unfold Py.div, Qeq, Qdiv, Qmult, Qinv, inject_Z. simpl. lia. }
  assert (Qfloor (Py.div (2 * k) 2) = k) as Hf
    by (rewrite (Qfloor_comp _ _ Heq); apply Qfloor_Z).
  assert (Qnum (Py.div (2 * k) 2) = (2 * k)%Z) as Hn
    by (unfold Py.div, Qdiv, Qmult, Qinv, inject_Z; simpl; lia).
  assert (Qden (Py.div (2 * k) 2) = 2%positive) as Hd by reflexivity.
  unfold Py.round. rewrite Hf, Hn, Hd.
  destruct (Z.compare_spec (2 * (2 * k) - 2 * k * 2) 2); lia.
Qed.

Lemma Qfloor_bounds (q : Q) :
  (Qfloor q * Z.pos (Qden q) <= Qnum q < (Qfloor q + 1) * Z.pos (Qden q))%Z.
Proof.
  pose proof (Qfloor_le q) as H1. pose proof (Qlt_floor q) as H2.
  unfold Qle, Qlt, inject_Z in H1, H2. simpl in H1, H2. lia.
Qed.

Lemma round_mono (q1 q2 : Q) : (q1 <= q2)%Q -> (Py.round q1 <= Py.round q2)%Z.
Proof.
  intros Hle. pose proof (Qfloor_resp_le _ _ Hle) as Hf.
  pose proof (Qfloor_bounds q1) as Hb1. pose proof (Qfloor_bounds q2) as Hb2.
  unfold Py.round.
  destruct (Z.eq_dec (Qfloor q1) (Qfloor q2)) as [Heq|Hne].
  - unfold Qle in Hle. rewrite Heq in *.
    set (f := Qfloor q2) in *. set (n1 := Qnum q1) in *. set (n2 := Qnum q2) in *.
    set (d1 := Z.pos (Qden q1)) in *. set (d2 := Z.pos (Qden q2)) in *.
    assert (0 < d1)%Z by done. assert (0 < d2)%Z by done.
    assert ((2 * n1 - 2 * f * d1) * d2 <= (2 * n2 - 2 * f * d2) * d1)%Z as Ht by nia.
    destruct (Z.compare_spec (2 * n1 - 2 * f * d1) d1) as [He1|Hl1|Hg1];
      destruct (Z.compare_spec (2 * n2 - 2 * f * d2) d2) as [He2|Hl2|Hg2];
      destruct (Z.even f); try lia; exfalso; nia.
  - assert (Qfloor q1 + 1 <= Qfloor q2)%Z by lia.
    destruct (_ ?= _)%Z; destruct (_ ?= _)%Z;
      repeat destruct (Z.even _); lia.
Qed.

End RoundFacts.

Section SortFacts.

Context {A : Type} (key : A -> Q).

Lemma Qleb_total (a b : Q) : Py.Qleb a b = false -> Py.Qleb b a = true.
Proof. intros H. apply Qleb_gt in H. apply Qleb_le. by apply Qlt_le_weak. Qed.

Lemma ascending_cons (x : A) (l : list A) :
  Py.ascending key (x :: l) = true
  <-> Forall (fun y => (key x <= key y)%Q) (take 1 l) /\ Py.ascending key l = true.
Proof.
  destruct l as [|y l]; simpl.
  - split; [by split|done].
  - rewrite andb_true_iff, Qleb_le. split.
    + intros [? ?]. split; [by repeat constructor|done].
    + intros [H ?]. split; [by inversion H|done].
Qed.

Lemma insert_by_ascending (x : A) (l : list A) :
  Py.ascending key l = true -> Py.ascending key (Py.insert_by key x l) = true.
Proof.
  induction l as [|y l IH]; [done|].
  intros Hl. cbn [Py.insert_by].
  destruct (Py.Qleb (key x) (key y)) eqn:E.
  - change (Py.Qleb (key x) (key y) && Py.ascending key (y :: l) = true).
    by rewrite E, Hl.
  - apply Qleb_total in E.
    apply ascending_cons in Hl as [Hhd Hl]. specialize (IH Hl).
    apply ascending_cons. split; [|done].
    destruct l as [|z l]; cbn [Py.insert_by].
    + repeat constructor. by apply Qleb_le.
    + destruct (Py.Qleb (key x) (key z)); simpl.
      * repeat constructor. by apply Qleb_le.
      * done.
Qed.

(** [sorted] sorts. *)
Lemma sorted_ascending (l : list A) : Py.ascending key (Py.sorted key l) = true.
Proof.
  induction l as [|x l IH]; [done|]. simpl. by apply insert_by_ascending.
Qed.

End SortFacts.

(* ===================================================================== *)
(** ** Stage 4: the confidence filter and the halving *)
(* ===================================================================== *)

Section AssemblerFacts.

Lemma ascending_map_Forall {A B} (key : A -> Q) (key' : B -> Q) (f : A -> B)
    (P : A -> Prop) (l : list A) :
  (forall x y, P x -> P y -> (key x <= key y)%Q -> (key' (f x) <= key' (f y))%Q) ->
  Forall P l ->
  Py.ascending key l = true -> Py.ascending key' (map f l) = true.
Proof.
  intros Hmono Hl. induction Hl as [|x l Hx Hl IH]; [done|].
  destruct Hl as [|y l Hy Hl]; [done|].
  intros H. apply andb_true_iff in H as [Hxy Hasc].
  change (Py.Qleb (key' (f x)) (key' (f y)) && Py.ascending key' (map f (y :: l)) = true).
  rewrite (IH Hasc), andb_true_r. apply Qleb_le, Hmono; [done..|]. by apply Qleb_le.
Qed.

Lemma filtered_blocks_length (c : Q) (q : Quadrant) :
  length (Stage4.filtered_blocks c q)
  + length (filter (fun b => Py.Qltb (confidence b) c = true) (quadrant_blocks q))
  = length (quadrant_blocks q).
Proof.
  unfold Stage4.filtered_blocks.
  induction (quadrant_blocks q) as [|b l IH]; [done|].
  cbn [map].
  change (confidence (Stage4.set_source_quadrant (quadrant_name q) b))
    with (confidence b) in *.
  destruct (Py.Qleb c (confidence b)) eqn:E.
  - rewrite filter_cons_True by done.
    rewrite filter_cons_False; [cbn [length]; lia|].
    unfold Py.Qltb. unfold Py.Qleb in E. by rewrite E.
  - rewrite filter_cons_False by (simpl; congruence).
    rewrite filter_cons_True; [cbn [length]; lia|].
    unfold Py.Qltb. unfold Py.Qleb in E. by rewrite E.
Qed.

Lemma surviving_length (c : Q) (quadrants : list Quadrant) :
  length (Pipeline.surviving quadrants c)
  + length (filter (fun b => Py.Qltb (confidence b) c = true)
              (flat_map quadrant_blocks quadrants))
  = length (flat_map quadrant_blocks quadrants).
Proof.
  unfold Pipeline.surviving.
  induction quadrants as [|q qs IH]; [done|]. simpl.
  rewrite filter_app, !length_app.
  pose proof (filtered_blocks_length c q). lia.
Qed.

Lemma filtered_blocks_Forall (c : Q) (q : Quadrant) :
  Forall (fun b => (c <= confidence b)%Q /\ source_quadrant b = quadrant_name q)
    (Stage4.filtered_blocks c q).
Proof.
  unfold Stage4.filtered_blocks. apply Forall_forall. intros b Hb.
  apply list_elem_of_filter in Hb as [Hc Hb].
  apply list_elem_of_fmap in Hb as (b0 & -> & _).
  split; [by apply Qleb_le|done].
Qed.

Lemma surviving_Forall (c : Q) (quadrants : list Quadrant) :
  Forall (fun b => (c <= confidence b)%Q
                   /\ exists q, q ∈ quadrants /\ source_quadrant b = quadrant_name q)
    (Pipeline.surviving quadrants c).
Proof.
  unfold Pipeline.surviving. apply Forall_forall. intros b Hb.
  apply list_elem_of_In, in_flat_map in Hb as (q & Hq & Hb).
  apply list_elem_of_In in Hq, Hb.
  pose proof (filtered_blocks_Forall c q) as H.
  rewrite Forall_forall in H. destruct (H b Hb) as [? ?].
  split; [done|]. by exists q.
Qed.

(** On an even integer the halving is exact. *)
Lemma round_div_even_exact (z : Z) :
  Z.even z = true -> (inject_Z (Py.round (Py.div z 2)) == inject_Z z / 2)%Q.
Proof.
  intros He. apply Z.even_spec in He as [k ->].
  rewrite round_div_even. rewrite inject_Z_mult. field.
Qed.

Lemma scale_block_key (b : Block) :
  Box.keyed b -> Box.even_key b ->
  (mid_y_x (Stage4.scale_block b) == mid_y_x b / 2)%Q.
Proof.
  intros Hk [Hy Hx]. unfold Box.keyed in Hk. rewrite Hk.
  unfold Stage4.scale_block. simpl.
  rewrite (round_div_even_exact _ Hy).
  unfold Py.div at 1. rewrite (round_div_even_exact _ Hx).
  unfold Py.div. field.
Qed.

End AssemblerFacts.

(** X1.  The Fragment Assembler accounts for every fragment it is given:
    the fragments it returns and the fragments it reports as filtered add
    up to its input, the filtered ones are exactly those whose confidence
    is below the floor, every returned fragment has a confidence of at
    least the floor and carries the name of one of the tiles, and
    [total_blocks] is the length of the list returned. *)
Theorem fragment_assembler_accounting (quadrants : list Quadrant) (min_confidence : Q) :
  Stage4.total_blocks (Stage4.merge_page_quadrants quadrants min_confidence)
  = length (Stage4.merged_blocks (Stage4.merge_page_quadrants quadrants min_confidence))
  /\ Stage4.total_blocks (Stage4.merge_page_quadrants quadrants min_confidence)
     + Stage4.blocks_filtered (Stage4.merge_page_quadrants quadrants min_confidence)
     = length (flat_map quadrant_blocks quadrants)
  /\ Stage4.blocks_filtered (Stage4.merge_page_quadrants quadrants min_confidence)
     = length (filter (fun b => Py.Qltb (confidence b) min_confidence = true)
                 (flat_map quadrant_blocks quadrants))
  /\ Forall (fun b => (min_confidence <= confidence b)%Q
                      /\ exists q, q ∈ quadrants
                                   /\ source_quadrant b = quadrant_name q)
       (Stage4.merged_blocks (Stage4.merge_page_quadrants quadrants min_confidence)).
Proof.
  pose proof (surviving_length min_confidence quadrants) as Hlen.
  unfold Pipeline.surviving in Hlen.
  split; [done|]. simpl.
  unfold Stage4.scale_coordinates_to_original.
  rewrite length_map, sorted_Permutation.
  split; [lia|]. split; [lia|].
  apply Forall_map. exact (surviving_Forall min_confidence quadrants).
Qed.

(** X2.  When the key of every surviving fragment is the one of its
    coordinates ([mid_y + start_x / 50], as stage 3 computes it) and
    [mid_y] and [start_x] are even, the halving is exact and the Fragment
    Assembler returns the fragments in ascending order of their new key:
    the order is only lost on odd coordinates. *)
Theorem halving_keeps_order_on_even_coordinates
    (quadrants : list Quadrant) (min_confidence : Q) :
  Forall (fun b => Box.keyed b /\ Box.even_key b)
    (Pipeline.surviving quadrants min_confidence) ->
  Py.ascending mid_y_x
    (Stage4.merged_blocks (Stage4.merge_page_quadrants quadrants min_confidence))
  = true.
Proof.
  intros Hs. rewrite merge_page_quadrants_sorted_before_scaling.
  apply (ascending_map_Forall mid_y_x mid_y_x Stage4.scale_block
           (fun b => Box.keyed b /\ Box.even_key b)).
  - intros x y [Hkx Hex] [Hky Hey] Hle.
    rewrite (scale_block_key x Hkx Hex), (scale_block_key y Hky Hey).
    apply Qmult_le_compat_r; [done|]. done.
  - by apply Forall_sorted.
  - apply sorted_ascending.
Qed.

Lemma halving_keeps_order_on_even_coordinates_witness :
  Py.ascending mid_y_x
    (Stage4.merged_blocks
       (Stage4.merge_page_quadrants Examples.hello_page Stage4.default_min_confidence))
  = true.
Proof.
  apply (halving_keeps_order_on_even_coordinates Examples.hello_page
           Stage4.default_min_confidence).
  repeat constructor; vm_compute; reflexivity.
Defined.

(* ===================================================================== *)
(** ** Stage 5: metrics and thresholds *)
(* ===================================================================== *)

Section MetricsFacts.

Lemma block_metrics_again (prev prev' : option Block) (b : Block) :
  Box.same_box prev prev' ->
  Stage5.block_metrics prev' (Stage5.block_metrics prev b)
  = Stage5.block_metrics prev b.
Proof.
  intros Hs. unfold Box.same_box in Hs.
  destruct prev as [p|], prev' as [p'|]; try done;
    unfold Stage5.block_metrics; simpl; rewrite round_inject_Z; [|done].
  simpl in Hs. injection Hs as H1 H2 H3 H4 H5 H6.
  by rewrite H1, H2, H3, H4, H5, H6.
Qed.

Lemma metrics_from_again (prev prev' : option Block) (l : list Block) :
  Box.same_box prev prev' ->
  Stage5.metrics_from prev' (Stage5.metrics_from prev l)
  = Stage5.metrics_from prev l.
Proof.
  revert prev prev'. induction l as [|b l IH]; intros prev prev' Hs; [done|].
  simpl. rewrite (block_metrics_again _ _ _ Hs). f_equal. by apply IH.
Qed.

Lemma metrics_from_payload (prev : option Block) (l : list Block) :
  map Box.payload (Stage5.metrics_from prev l) = map Box.payload l.
Proof.
  revert prev. induction l as [|b l IH]; intros prev; [done|].
  simpl. by rewrite IH.
Qed.

Lemma metrics_from_width (prev : option Block) (l : list Block) :
  Forall (fun b => width b = Some (end_x b - start_x b)%Z
                   /\ (mid_y_x b == inject_Z (Py.round (mid_y_x b)))%Q)
    (Stage5.metrics_from prev l).
Proof.
  revert prev. induction l as [|b l IH]; intros prev; simpl; constructor; [|done].
  simpl. split; [done|]. by rewrite round_inject_Z.
Qed.

(** The median of positive numbers is positive. *)
Lemma np_median_positive (l : list Z) (m : Q) :
  Forall (fun v => 0 < v)%Z l -> Stage5.np_median l = Some m -> (0 < m)%Q.
Proof.
  intros Hl. apply (Forall_sorted inject_Z) in Hl.
  unfold Stage5.np_median. set (s := Py.sorted inject_Z l) in *.
  assert (forall i a, s !! i = Some a -> (0 < inject_Z a)%Q) as Hpos.
  { intros i a Hi. rewrite Forall_lookup in Hl. apply Hl in Hi.
    change 0%Q with (inject_Z 0). by rewrite <- Zlt_Qlt. }
  destruct (Nat.even (length s)).
  - destruct (s !! (length s / 2 - 1)) as [a|] eqn:Ea; [|done].
    destruct (s !! (length s / 2)) as [b|] eqn:Eb; [|done].
    intros [= <-]. apply Hpos in Ea, Eb.
    apply Qlt_shift_div_l; [done|]. rewrite Qmult_0_l.
    rewrite <- (Qplus_0_l 0). apply Qplus_lt_le_compat; [done|].
    by apply Qlt_le_weak.
  - destruct (s !! (length s / 2)) as [a|] eqn:Ea; [|done].
    intros [= <-]. by apply Hpos in Ea.
Qed.

Lemma positive_values_positive (l : list (option Z)) :
  Forall (fun v => 0 < v)%Z (Stage5.positive_values l).
Proof.
  unfold Stage5.positive_values. apply Forall_forall. intros v Hv.
  apply list_elem_of_omap in Hv as (o & _ & Ho).
  destruct o as [w|]; [|done].
  destruct (Z.ltb_spec 0 w); [|done]. by injection Ho as <-.
Qed.

Lemma median_or_50_positive (l : list (option Z)) :
  (0 < default 50 (Stage5.np_median (Stage5.positive_values l)))%Q.
Proof.
  destruct (Stage5.np_median _) as [m|] eqn:Em; [|done].
  simpl. eapply np_median_positive; [|exact Em]. apply positive_values_positive.
Qed.

Lemma Qmax_positive_r (a b : Q) : (0 < b)%Q -> (0 < Py.Qmax a b)%Q.
Proof.
  intros Hb. destruct (Qmax_cases a b) as (_ & H & _).
  by apply (Qlt_le_trans _ b).
Qed.

Lemma adaptive_thresholds_positive_vertical (blocks : list Block) :
  (0 < vertical_merge_tolerance (Stage5.calculate_adaptive_thresholds blocks))%Q.
Proof.
  unfold Stage5.calculate_adaptive_thresholds.
  destruct (length blocks <? 10); [done|]. simpl.
  apply Qmax_positive_r. apply Qmult_lt_0_compat; [|done].
  apply median_or_50_positive.
Qed.

End MetricsFacts.

(** X3.  Computing the metrics of stage 5 a second time changes nothing
    (stage 6 recomputes them on the merged Lines), and the metrics leave
    the text, the box, the centre, the height, the confidence, the counts
    and the tile name of every block as they were: each block gets the
    width of its box and its sort key rounded to an integer. *)
Theorem calculate_block_metrics_idempotent (blocks : list Block) :
  Stage5.calculate_block_metrics (Stage5.calculate_block_metrics blocks)
  = Stage5.calculate_block_metrics blocks
  /\ map Box.payload (Stage5.calculate_block_metrics blocks) = map Box.payload blocks
  /\ Forall (fun b => width b = Some (end_x b - start_x b)%Z
                      /\ (mid_y_x b == inject_Z (Py.round (mid_y_x b)))%Q)
       (Stage5.calculate_block_metrics blocks).
Proof.
  split; [by apply metrics_from_again|].
  split; [apply metrics_from_payload|apply metrics_from_width].
Qed.

(** X4.  The four adaptive thresholds of stage 5 are strictly positive on
    every page, whatever the blocks: the medians are taken over the
    positive values only and fall back to a positive default, and each
    tolerance is at least a positive multiple of a median. *)
Theorem adaptive_thresholds_positive (blocks : list Block) :
  (0 < vertical_merge_tolerance (Stage5.calculate_adaptive_thresholds blocks))%Q
  /\ (0 < horizontal_merge_gap (Stage5.calculate_adaptive_thresholds blocks))%Q
  /\ (0 < vertical_bucket_tolerance (Stage5.calculate_adaptive_thresholds blocks))%Q
  /\ (0 < horizontal_bucket_tolerance (Stage5.calculate_adaptive_thresholds blocks))%Q.
Proof.
  unfold Stage5.calculate_adaptive_thresholds.
  destruct (length blocks <? 10); [done|]. simpl.
  pose proof (median_or_50_positive (map (fun b => Some (height b)) blocks)) as Hh.
  pose proof (median_or_50_positive (map character_width blocks)) as Hc.
  repeat split.
  - apply Qmax_positive_r. by apply Qmult_lt_0_compat.
  - by apply Qmult_lt_0_compat.
  - apply Qmax_positive_r. by apply Qmult_lt_0_compat.
  - by apply Qmult_lt_0_compat.
Qed.

(* ===================================================================== *)
(** ** Stage 6: the merged box and the symmetry of the rule *)
(* ===================================================================== *)

Section MergeFacts.

Lemma first_second_lt (a b : Block) :
  (start_x a < start_x b)%Z ->
  Stage6.first_block a b = a /\ Stage6.second_block a b = b
  /\ Stage6.first_block b a = a /\ Stage6.second_block b a = b.
Proof.
  intros H. unfold Stage6.first_block, Stage6.second_block.
  destruct (Z.leb_spec (start_x a) (start_x b)); [|lia].
  destruct (Z.leb_spec (start_x b) (start_x a)); [lia|]. done.
Qed.

Lemma horizontal_gap_sym (a b : Block) :
  start_x a <> start_x b ->
  Stage6.horizontal_gap a b = Stage6.horizontal_gap b a.
Proof.
  intros H. unfold Stage6.horizontal_gap.
  destruct (Z.ltb_spec (start_x b) (start_x a));
    destruct (Z.ltb_spec (start_x a) (start_x b)); lia.
Qed.

Lemma merge_two_blocks_inside (w h : Z) (a b : Block) :
  Box.inside w h a -> Box.inside w h b ->
  Box.inside w h (Stage6.merge_two_blocks a b).
Proof.
  unfold Box.inside, Stage6.merge_two_blocks. simpl.
  unfold Stage6.first_block, Stage6.second_block.
  destruct (start_x a <=? start_x b)%Z; lia.
Qed.

End MergeFacts.

(** X5.  The merged Line reads from left to right whichever of the two
    Lines was the reference: when the box of [a] starts left of the box of
    [b], merging [a] with [b] and [b] with [a] give the same Line, whose
    text is the text of [a], a space and the text of [b], and whose box is
    the bounding box of the two. *)
Theorem merge_two_blocks_left_to_right (a b : Block) :
  (start_x a < start_x b)%Z ->
  Stage6.merge_two_blocks a b = Stage6.merge_two_blocks b a
  /\ text (Stage6.merge_two_blocks a b) = (text a ++ " " ++ text b)%string
  /\ start_x (Stage6.merge_two_blocks a b) = start_x a
  /\ end_x (Stage6.merge_two_blocks a b) = Z.max (end_x a) (end_x b)
  /\ start_y (Stage6.merge_two_blocks a b) = Z.min (start_y a) (start_y b)
  /\ end_y (Stage6.merge_two_blocks a b) = Z.max (end_y a) (end_y b)
  /\ width (Stage6.merge_two_blocks a b)
     = Some (Z.max (end_x a) (end_x b) - start_x a)%Z.
Proof.
  intros H. destruct (first_second_lt a b H) as (H1 & H2 & H3 & H4).
  unfold Stage6.merge_two_blocks. rewrite H1, H2, H3, H4. simpl.
  replace (Z.min (start_x a) (start_x b)) with (start_x a) by lia.
  done.
Qed.

Lemma merge_two_blocks_left_to_right_witness :
  Stage6.merge_two_blocks Examples.restart_reference Examples.restart_candidate
  = Stage6.merge_two_blocks Examples.restart_candidate Examples.restart_reference
  /\ text (Stage6.merge_two_blocks Examples.restart_candidate Examples.restart_reference)
     = "CCCC BBBB"%string.
Proof.
  destruct (merge_two_blocks_left_to_right Examples.restart_reference
              Examples.restart_candidate) as (H1 & H2 & _).
  - vm_compute. reflexivity.
  - split; [exact H1|]. rewrite <- H1, H2. reflexivity.
Defined.

(** X6.  The merge test does not depend on which of the two Lines is the
    reference, with the adaptive thresholds and without them, as long as
    the two boxes do not start at the same [start_x]: the verdict and the
    gap reported are the same. *)
Theorem should_merge_blocks_symmetric (a b : Block) (thresholds : option Thresholds) :
  start_x a <> start_x b ->
  Stage6.should_merge_blocks a b thresholds
  = Stage6.should_merge_blocks b a thresholds.
Proof.
  intros H. unfold Stage6.should_merge_blocks.
  rewrite (horizontal_gap_sym a b H).
  replace (Z.abs (mid_y b - mid_y a)) with (Z.abs (mid_y a - mid_y b)) by lia.
  destruct thresholds as [th|].
  - by rewrite (Z.add_comm (Stage6.char_width_or 36 a)).
  - by rewrite (Z.min_comm (Stage6.char_width_or 50 a)).
Qed.

Lemma should_merge_blocks_symmetric_witness :
  Stage6.should_merge_blocks Examples.restart_reference Examples.restart_candidate
    Examples.restart_thresholds
  = Stage6.should_merge_blocks Examples.restart_candidate Examples.restart_reference
      Examples.restart_thresholds.
Proof.
  apply (should_merge_blocks_symmetric Examples.restart_reference
           Examples.restart_candidate Examples.restart_thresholds).
  vm_compute. discriminate.
Defined.

(* ===================================================================== *)
(** ** Stage 6: what the loops return *)
(* ===================================================================== *)

Section MergeCounts.

Variable thresholds : option Thresholds.

Lemma merge_at_reference_count fuel l m i ref l' m' :
  Stage6.merge_at_reference fuel thresholds l m i ref = Ok (l', m') ->
  m <= m'
  /\ (m' = m ->
      l' = l
      /\ Stage6.scan_lookahead thresholds ref l (i + 1)
           (Stage6.window_count i (length l)) = None).
Proof.
  revert l m ref. induction fuel as [|fuel IH]; intros l m ref; simpl; [done|].
  destruct (Stage6.scan_lookahead _ _ _ _ _) as [[j cur]|] eqn:Es.
  - intros H. apply IH in H as [Hle _]. split; lia.
  - intros [= <- <-]. done.
Qed.

Lemma merge_at_reference_front fuel l m i ref l' m' :
  l !! i = Some ref ->
  Stage6.merge_at_reference fuel thresholds l m i ref = Ok (l', m') ->
  take i l' = take i l /\ i < length l'.
Proof.
  revert l m ref. induction fuel as [|fuel IH]; intros l m ref Hi; simpl; [done|].
  destruct (Stage6.scan_lookahead _ _ _ _ _) as [[j cur]|] eqn:Es.
  - apply scan_lookahead_Some in Es as (Hj & Hrange & _).
    assert (j < length l) as Hjl by by eapply lookup_lt_Some.
    destruct (merge_step_lookup l i j (Stage6.merge_two_blocks ref cur))
      as (H1 & H2 & H3); [lia|done|].
    intros H. apply IH in H as [Ht Hl]; [|done]. split; [congruence|done].
  - intros [= <- <-]. split; [done|]. by eapply lookup_lt_Some.
Qed.

Lemma merge_loop_count fuel l m i l' m' :
  Stage6.merge_loop fuel thresholds l m i = Ok (l', m') ->
  m <= m' /\ (m' = m -> l' = l /\ forall k, i <= k -> Box.quiet thresholds l k).
Proof.
  revert l m i. induction fuel as [|fuel IH]; intros l m i; simpl; [done|].
  destruct (l !! i) as [ref|] eqn:Ei.
  - intros H. inv_bind H. destruct r as [l1 m1]. simpl in H.
    apply merge_at_reference_count in Hr as [Hle1 Hsame1].
    apply IH in H as [Hle Hsame]. split; [lia|].
    intros ->. destruct Hsame1 as [-> Hq]; [lia|].
    destruct Hsame as [-> Hqs]; [lia|]. split; [done|].
    intros k Hk. destruct (decide (k = i)) as [->|Hne].
    + intros ref' Hr'. by replace ref' with ref by congruence.
    + apply Hqs. lia.
  - intros [= <- <-]. split; [done|]. intros _. split; [done|].
    intros k Hk ref Hr. apply lookup_lt_Some in Hr.
    assert (length l <= i) by by apply lookup_ge_None. lia.
Qed.

Lemma merge_loop_front fuel l m i l' m' :
  Stage6.merge_loop fuel thresholds l m i = Ok (l', m') ->
  take i l' = take i l /\ (i < length l -> i < length l').
Proof.
  revert l m i. induction fuel as [|fuel IH]; intros l m i; simpl; [done|].
  destruct (l !! i) as [ref|] eqn:Ei.
  - intros H. inv_bind H. destruct r as [l1 m1]. simpl in H.
    apply merge_at_reference_front in Hr as [Ht1 Hl1]; [|done].
    apply IH in H as [Ht Hl]. split.
    + rewrite <- Ht1. apply (take_eq_le _ (S i)); [lia|done].
    + intros _.
      assert (length (take (S i) l') = length (take (S i) l1)) as Hlen
        by by rewrite Ht.
      rewrite !length_take in Hlen. lia.
  - intros [= <- <-]. done.
Qed.

Lemma merge_at_reference_quiet fuel l m i ref :
  0 < fuel ->
  Stage6.scan_lookahead thresholds ref l (i + 1)
    (Stage6.window_count i (length l)) = None ->
  Stage6.merge_at_reference fuel thresholds l m i ref = Ok (l, m).
Proof. intros Hf Hs. destruct fuel; [lia|]. simpl. by rewrite Hs. Qed.

Lemma merge_loop_fixed fuel l m i :
  length l - i < fuel ->
  (forall k, i <= k -> Box.quiet thresholds l k) ->
  Stage6.merge_loop fuel thresholds l m i = Ok (l, m).
Proof.
  revert i. induction fuel as [|fuel IH]; intros i Hf Hq; [lia|].
  simpl. destruct (l !! i) as [ref|] eqn:Ei; [|done].
  assert (i < length l) as Hil by by eapply lookup_lt_Some.
  rewrite merge_at_reference_quiet; [|lia|by apply Hq].
  simpl. apply IH; [lia|]. intros k Hk. apply Hq. lia.
Qed.

(** [quiet] at every position, in terms of the merge test. *)
Lemma quiet_pairs (l : list Block) :
  (forall k, Box.quiet thresholds l k)
  <-> (forall i j r c, i < j <= i + 20 -> l !! i = Some r -> l !! j = Some c ->
         (Stage6.should_merge_blocks r c thresholds).1 = false).
Proof.
  split.
  - intros Hq i j r c Hij Hi Hj.
    apply (scan_lookahead_None thresholds r l (i + 1)
             (Stage6.window_count i (length l)) (Hq i r Hi) j c); [|done].
    apply window_count_range. apply lookup_lt_Some in Hj. lia.
  - intros Hp k ref Hk. apply scan_lookahead_none.
    intros j c Hj Hc. apply window_count_range in Hj.
    apply (Hp k j ref c); [lia|done|done].
Qed.

Lemma merge_blocks_counted_result (blocks : list Block) :
  exists out merges,
    Stage6.merge_blocks_counted blocks thresholds = Ok (out, merges)
    /\ length out + merges = length blocks
    /\ (blocks <> [] -> out <> [])
    /\ (merges = 0 -> out = blocks /\ forall k, Box.quiet thresholds blocks k).
Proof.
  destruct (merge_blocks_counted_total thresholds blocks) as (out & m & H & Hlen).
  exists out, m. split; [done|]. split; [done|].
  unfold Stage6.merge_blocks_counted in H.
  destruct (Nat.ltb_spec (length blocks) 2) as [Hs|Hs].
  - injection H as <- <-. split; [done|]. intros _. split; [done|].
    intros k ref Hk. apply scan_lookahead_none.
    intros j c Hj Hc. apply lookup_lt_Some in Hk, Hc. lia.
  - split.
    + intros _. apply merge_loop_front in H as [_ Hl].
      intros ->. simpl in Hl. lia.
    + intros ->. apply merge_loop_count in H as [_ Hsame].
      destruct Hsame as [-> Hq]; [done|]. split; [done|].
      intros k. apply Hq. lia.
Qed.

Lemma merge_blocks_counted_fixed (blocks : list Block) :
  (forall k, Box.quiet thresholds blocks k) ->
  Stage6.merge_blocks_counted blocks thresholds = Ok (blocks, 0).
Proof.
  intros Hq. unfold Stage6.merge_blocks_counted.
  destruct (length blocks <? 2); [done|].
  apply merge_loop_fixed; [lia|]. intros k _. apply Hq.
Qed.

End MergeCounts.

(** X7.  The Line Merger returns on every list, with or without adaptive
    thresholds: each merge makes the list one Line shorter, a list that
    is not empty does not become empty, and without a merge the list is
    returned as it was. *)
Theorem line_merger_returns (blocks : list Block) (thresholds : option Thresholds) :
  exists out merges,
    Stage6.merge_blocks_counted blocks thresholds = Ok (out, merges)
    /\ Stage6.merge_blocks_recursive blocks thresholds = Ok out
    /\ length out + merges = length blocks
    /\ (blocks <> [] -> out <> [])
    /\ (merges = 0 -> out = blocks).
Proof.
  destruct (merge_blocks_counted_result thresholds blocks)
    as (out & merges & H & Hlen & Hne & Hsame).
  exists out, merges. split; [done|].
  unfold Stage6.merge_blocks_recursive. rewrite H. simpl.
  repeat split; [done|done|]. intros Hm. by apply Hsame.
Qed.

(** X8.  The Line Merger returns its input unchanged exactly when no Line
    passes the merge test with one of the 20 Lines that follow it in the
    list. *)
Theorem line_merger_fixed_point (blocks : list Block) (thresholds : option Thresholds) :
  Stage6.merge_blocks_recursive blocks thresholds = Ok blocks
  <-> (forall i j r c, i < j <= i + 20 ->
         blocks !! i = Some r -> blocks !! j = Some c ->
         (Stage6.should_merge_blocks r c thresholds).1 = false).
Proof.
  rewrite <- quiet_pairs. unfold Stage6.merge_blocks_recursive. split.
  - destruct (merge_blocks_counted_result thresholds blocks)
      as (out & merges & -> & Hlen & _ & Hsame).
    simpl. intros [= ->]. apply Hsame. lia.
  - intros Hq. by rewrite merge_blocks_counted_fixed.
Qed.

(* ===================================================================== *)
(** ** Stage 6: the page it returns *)
(* ===================================================================== *)

Section LinePage.

Lemma sorted_of_ascending {A} (key : A -> Q) (l : list A) :
  Py.ascending key l = true -> Py.sorted key l = l.
Proof.
  induction l as [|x l IH]; [done|].
  intros H. apply ascending_cons in H as [Hhd Hl].
  simpl. rewrite (IH Hl). destruct l as [|y l]; [done|].
  simpl. inversion_clear Hhd as [|? ? Hxy _].
  apply Qleb_le in Hxy. by rewrite Hxy.
Qed.

Lemma metrics_from_ascending (prev : option Block) (l : list Block) :
  Py.ascending mid_y_x l = true ->
  Py.ascending mid_y_x (Stage5.metrics_from prev l) = true.
Proof.
  revert prev. induction l as [|x l IH]; intros prev; [done|].
  destruct l as [|y l]; [done|].
  intros H. apply andb_true_iff in H as [Hxy Hl].
  specialize (IH (Some (Stage5.block_metrics prev x)) Hl).
  change (Py.Qleb (inject_Z (Py.round (mid_y_x x))) (inject_Z (Py.round (mid_y_x y)))
          && Py.ascending mid_y_x
               (Stage5.metrics_from (Some (Stage5.block_metrics prev x)) (y :: l))
          = true).
  rewrite IH, andb_true_r. apply Qleb_le. rewrite <- Zle_Qle.
  apply round_mono. by apply Qleb_le.
Qed.

Lemma metrics_from_length (prev : option Block) (l : list Block) :
  length (Stage5.metrics_from prev l) = length l.
Proof. revert prev. induction l as [|x l IH]; intros prev; simpl; [done|]. by rewrite IH. Qed.

End LinePage.

(** X9.  Stage 6 returns on every page.  The Lines it returns are in
    ascending order of their (rounded) sort key, so the sort with which
    stage 7 begins leaves them as they are; [total_blocks] is their
    number, which is at most the number of fragments, and the thresholds
    are handed on. *)
Theorem line_merger_page_sorted (page : Stage5.MetricsPage) :
  exists out,
    Stage6.merge_horizontal_for_page page = Ok out
    /\ Stage6.total_blocks out = length (Stage6.line_blocks out)
    /\ Stage6.total_blocks out <= length (Stage5.metrics_blocks page)
    /\ Stage6.adaptive_thresholds out = Stage5.adaptive_thresholds page
    /\ Py.ascending mid_y_x (Stage6.line_blocks out) = true
    /\ Py.sorted mid_y_x (Stage6.line_blocks out) = Stage6.line_blocks out.
Proof.
  unfold Stage6.merge_horizontal_for_page, Stage6.merge_horizontal_counted.
  destruct (merge_blocks_counted_total (Stage5.adaptive_thresholds page)
              (Py.sorted mid_y_x (Stage5.metrics_blocks page)))
    as (l' & m' & -> & Hlen).
  simpl. eexists. split; [done|]. simpl.
  assert (Py.ascending mid_y_x
            (Stage5.calculate_block_metrics (Py.sorted mid_y_x l')) = true) as Hasc
    by apply metrics_from_ascending, sorted_ascending.
  split; [done|]. split.
  - unfold Stage5.calculate_block_metrics.
    rewrite metrics_from_length, !sorted_Permutation.
    rewrite sorted_Permutation in Hlen. lia.
  - split; [done|]. split; [done|]. by apply sorted_of_ascending.
Qed.

(* ===================================================================== *)
(** ** First-fit grouping keeps the order of the input *)
(* ===================================================================== *)

Section FirstFitOrder.

Context {A : Type} (test : list A -> A -> result bool).

Lemma add_to_first_shape groups x groups' :
  FirstFit.add_to_first test groups x = Ok (Some groups') ->
  exists pre g post,
    groups = pre ++ g :: post /\ groups' = pre ++ (g ++ [x]) :: post.
Proof.
  revert groups'. induction groups as [|g rest IH]; intros groups'; simpl; [done|].
  intros H. inv_bind H. destruct r.
  - injection H as <-. by exists [], g, rest.
  - inv_bind H. destruct r as [rest'|]; [|done]. injection H as <-.
    destruct (IH _ Hr0) as (pre & g' & post & -> & ->).
    by exists (g :: pre), g', post.
Qed.

Lemma omap_head_snoc (pre post : list (list A)) (g : list A) (x : A) :
  g <> [] ->
  omap head (pre ++ (g ++ [x]) :: post) = omap head (pre ++ g :: post).
Proof.
  intros Hg. rewrite !omap_app. f_equal. simpl.
  rewrite head_snoc. by destruct g.
Qed.

Lemma place_order seen groups x groups' :
  FirstFit.place test groups x = Ok groups' ->
  Forall (fun g => g <> [] /\ g `sublist_of` seen) groups ->
  omap head groups `sublist_of` seen ->
  Forall (fun g => g <> [] /\ g `sublist_of` seen ++ [x]) groups'
  /\ omap head groups' `sublist_of` seen ++ [x].
Proof.
  unfold FirstFit.place. intros H Hg Hh. inv_bind H.
  assert (forall gs, Forall (fun g => g <> [] /\ g `sublist_of` seen) gs ->
                     Forall (fun g => g <> [] /\ g `sublist_of` seen ++ [x]) gs)
    as Hext.
  { intros gs Hgs. eapply Forall_impl; [exact Hgs|].
    intros g [? ?]. split; [done|]. by apply sublist_inserts_r. }
  destruct r as [gs|]; injection H as <-.
  - apply add_to_first_shape in Hr as (pre & g & post & -> & ->).
    apply Forall_app in Hg as [Hpre Hg]. inversion_clear Hg as [|? ? [Hne Hsub] Hpost].
    split.
    + apply Forall_app. split; [by apply Hext|]. constructor; [|by apply Hext].
      split; [by destruct g|]. by apply sublist_app.
    + rewrite omap_head_snoc by done. by apply sublist_inserts_r.
  - split.
    + apply Forall_app. split; [by apply Hext|]. constructor; [|done].
      split; [done|]. by apply sublist_inserts_l.
    + rewrite omap_app. simpl. by apply sublist_app.
Qed.

Lemma foldM_place_order rest seen groups groups' :
  foldM (FirstFit.place test) rest groups = Ok groups' ->
  Forall (fun g => g <> [] /\ g `sublist_of` seen) groups ->
  omap head groups `sublist_of` seen ->
  Forall (fun g => g <> [] /\ g `sublist_of` seen ++ rest) groups'
  /\ omap head groups' `sublist_of` seen ++ rest.
Proof.
  revert seen groups. induction rest as [|x rest IH]; intros seen groups; simpl.
  - intros [= <-]. by rewrite app_nil_r.
  - intros H Hg Hh. inv_bind H.
    destruct (place_order _ _ _ _ Hr Hg Hh) as [Hg1 Hh1].
    destruct (IH _ _ H Hg1 Hh1) as [Hg2 Hh2].
    by rewrite <- (assoc_L app) in Hg2, Hh2.
Qed.

(** Every group is a subsequence of the input, and so is the list of
    the first members of the groups: the groups are numbered in the
    order in which their first members come in the input. *)
Lemma build_order l groups :
  FirstFit.build test l = Ok groups ->
  Forall (fun g => g <> [] /\ g `sublist_of` l) groups
  /\ omap head groups `sublist_of` l.
Proof.
  destruct l as [|first rest]; simpl.
  - intros [= <-]. by split.
  - intros H. apply (foldM_place_order rest [first]) in H; [done| |done].
    by repeat constructor.
Qed.

Lemma groups_length (groups : list (list A)) :
  Forall (fun g => g <> []) groups -> length groups <= length (concat groups).
Proof.
  induction 1 as [|g groups Hg _ IH]; simpl; [done|].
  rewrite length_app. destruct g; [done|]. simpl. lia.
Qed.

End FirstFitOrder.

(* ===================================================================== *)
(** ** Stage 7: the test, the builder and the page *)
(* ===================================================================== *)

Section BlockPage.

Lemma should_add_to_bucket_thresholds (a b : Block) (thresholds : option Thresholds)
    (t : Q * Q) :
  Stage7.bucket_thresholds a b thresholds = Ok t ->
  exists verdict, Stage7.should_add_to_bucket a b thresholds = Ok verdict.
Proof.
  intros Ht. unfold Stage7.should_add_to_bucket. rewrite Ht. simpl.
  repeat (destruct (Py.Qleb _ _) || destruct (Py.Qltb _ _)); by eexists.
Qed.

Lemma create_buckets_returns (th : Thresholds) (lines : list Block) :
  exists groups, Stage7.create_buckets lines (Some th) = Ok groups.
Proof.
  rewrite create_buckets_generic.
  destruct lines as [|first rest]; [by eexists|].
  destruct (build_rule (FirstFit.bucket_test (Some th)) (Spec.block_accepts th)
              (fun _ => True) (bucket_test_decides th) first rest)
    as (g & ? & _); [done|by apply Forall_true|]. by exists g.
Qed.

Lemma fold_left_min_spec (l : list Z) (x : Z) :
  Forall (fun y => fold_left Z.min l x <= y)%Z (x :: l)
  /\ fold_left Z.min l x ∈ x :: l.
Proof.
  revert x. induction l as [|y l IH]; intros x; simpl.
  - split; [by repeat constructor|apply list_elem_of_here].
  - destruct (IH (Z.min x y)) as [Hall Hin].
    inversion_clear Hall as [|? ? Hm Hl]. split.
    + constructor; [lia|]. constructor; [lia|done].
    + apply elem_of_cons in Hin as [Hin|Hin].
      * rewrite Hin. destruct (Z.min_spec x y) as [[_ ->]|[_ ->]].
        -- apply list_elem_of_here.
        -- apply list_elem_of_further, list_elem_of_here.
      * by do 2 apply list_elem_of_further.
Qed.

Lemma fold_left_max_spec (l : list Z) (x : Z) :
  Forall (fun y => y <= fold_left Z.max l x)%Z (x :: l)
  /\ fold_left Z.max l x ∈ x :: l.
Proof.
  revert x. induction l as [|y l IH]; intros x; simpl.
  - split; [by repeat constructor|apply list_elem_of_here].
  - destruct (IH (Z.max x y)) as [Hall Hin].
    inversion_clear Hall as [|? ? Hm Hl]. split.
    + constructor; [lia|]. constructor; [lia|done].
    + apply elem_of_cons in Hin as [Hin|Hin].
      * rewrite Hin. destruct (Z.max_spec x y) as [[_ ->]|[_ ->]].
        -- apply list_elem_of_further, list_elem_of_here.
        -- apply list_elem_of_here.
      * by do 2 apply list_elem_of_further.
Qed.

Lemma min_Z_spec {A} (f : A -> Z) (l : list A) (m : Z) :
  Py.min_Z (map f l) = Some m ->
  Forall (fun x => m <= f x)%Z l /\ exists x, x ∈ l /\ f x = m.
Proof.
  destruct l as [|x l]; [done|]. simpl. intros [= <-].
  destruct (fold_left_min_spec (map f l) (f x)) as [Hall Hin]. split.
  - change (f x :: map f l) with (map f (x :: l)) in Hall.
    by apply (proj1 (Forall_map _ _ _)) in Hall.
  - change (f x :: map f l) with (f <$> (x :: l)) in Hin.
    apply list_elem_of_fmap in Hin as (y & ? & ?). by exists y.
Qed.

Lemma max_Z_spec {A} (f : A -> Z) (l : list A) (m : Z) :
  Py.max_Z (map f l) = Some m ->
  Forall (fun x => f x <= m)%Z l /\ exists x, x ∈ l /\ f x = m.
Proof.
  destruct l as [|x l]; [done|]. simpl. intros [= <-].
  destruct (fold_left_max_spec (map f l) (f x)) as [Hall Hin]. split.
  - change (f x :: map f l) with (map f (x :: l)) in Hall.
    by apply (proj1 (Forall_map _ _ _)) in Hall.
  - change (f x :: map f l) with (f <$> (x :: l)) in Hin.
    apply list_elem_of_fmap in Hin as (y & ? & ?). by exists y.
Qed.

(** The bounding box of a bucket. *)
Lemma bucket_info_box idx bucket v :
  Stage7.bucket_info idx bucket = Ok v ->
  bucket_id v = idx /\ num_blocks v = length bucket /\ blocks v = bucket
  /\ bucket <> []
  /\ Forall (Box.covers v) bucket
  /\ (exists b, b ∈ bucket /\ start_x b = vb_start_x v)
  /\ (exists b, b ∈ bucket /\ end_x b = vb_end_x v)
  /\ (exists b, b ∈ bucket /\ start_y b = vb_start_y v)
  /\ (exists b, b ∈ bucket /\ end_y b = vb_end_y v)
  /\ vb_width v = (vb_end_x v - vb_start_x v)%Z
  /\ vb_height v = (vb_end_y v - vb_start_y v)%Z.
Proof.
  unfold Stage7.bucket_info. intros H.
  destruct (Py.min_Z (map start_x bucket)) as [sx|] eqn:Esx; [|done].
  destruct (Py.max_Z (map end_x bucket)) as [ex|] eqn:Eex; [|done].
  destruct (Py.min_Z (map start_y bucket)) as [sy|] eqn:Esy; [|done].
  destruct (Py.max_Z (map end_y bucket)) as [ey|] eqn:Eey; [|done].
  simpl in H. repeat inv_bind H. injection H as <-. simpl.
  apply min_Z_spec in Esx as [Hsx Hsx'], Esy as [Hsy Hsy'].
  apply max_Z_spec in Eex as [Hex Hex'], Eey as [Hey Hey'].
  repeat split; try done.
  - intros ->. by destruct Hsx' as (? & ?%not_elem_of_nil & _).
  - unfold Box.covers. simpl. apply Forall_forall. intros b Hb.
    rewrite Forall_forall in Hsx, Hex, Hsy, Hey. auto.
Qed.

Lemma mapM_enumerate_Forall2 {A B} (f : nat -> A -> result B) (idx : nat)
    (l : list A) (ys : list B) :
  Stage7.mapM_enumerate f idx l = Ok ys ->
  length ys = length l
  /\ forall i x y, l !! i = Some x -> ys !! i = Some y -> f (idx + i) x = Ok y.
Proof.
  revert idx ys. induction l as [|x l IH]; intros idx ys; simpl.
  - intros [= <-]. done.
  - intros H. inv_bind H. inv_bind H. injection H as <-.
    apply IH in Hr0 as [Hlen Hi]. split; [simpl; lia|].
    intros [|i] x' y'; simpl.
    + intros [= <-] [= <-]. by rewrite Nat.add_0_r.
    + intros Hx Hy. replace (idx + S i) with (S idx + i) by lia. by apply Hi.
Qed.

Lemma mapM_enumerate_ids {A B} (f : nat -> A -> result B) (id : B -> nat)
    (idx : nat) (l : list A) (ys : list B) :
  (forall i x y, f i x = Ok y -> id y = i) ->
  Stage7.mapM_enumerate f idx l = Ok ys -> map id ys = seq idx (length l).
Proof.
  intros Hid. revert idx ys. induction l as [|x l IH]; intros idx ys; simpl.
  - by intros [= <-].
  - intros H. inv_bind H. inv_bind H. injection H as <-. simpl.
    f_equal; [by eapply Hid|by apply IH].
Qed.

Lemma mapM_enumerate_Forall {A B} (f : nat -> A -> result B) (P : B -> Prop)
    (idx : nat) (l : list A) (ys : list B) :
  (forall i x y, x ∈ l -> f i x = Ok y -> P y) ->
  Stage7.mapM_enumerate f idx l = Ok ys -> Forall P ys.
Proof.
  revert idx ys. induction l as [|x l IH]; intros idx ys HP; simpl.
  - by intros [= <-].
  - intros H. inv_bind H. inv_bind H. injection H as <-. constructor.
    + eapply HP; [apply list_elem_of_here|done].
    + eapply IH; [|done]. intros i x' y' Hx'. apply HP. by apply list_elem_of_further.
Qed.

Lemma sum_list_Permutation (l1 l2 : list nat) :
  l1 ≡ₚ l2 -> sum_list l1 = sum_list l2.
Proof. induction 1; simpl; lia. Qed.

Lemma sum_list_length_concat {A} (groups : list (list A)) :
  sum_list (map length groups) = length (concat groups).
Proof.
  induction groups as [|g groups IH]; simpl; [done|].
  by rewrite length_app, IH.
Qed.

End BlockPage.

(** X10.  With adaptive thresholds the membership test of the Block
    Builder returns a verdict on every pair of Lines.  Without them (the
    legacy branch) it raises [TypeError] exactly when one of the two
    Lines, as stage 5 leaves them, has no characters: stage 5 sets the
    character width of such a Line to [None], and the legacy branch
    compares it with 0. *)
Theorem bucket_test_raises_on_blank_lines
    (prev_a prev_b : option Block) (a b : Block) :
  (forall th, exists verdict,
      Stage7.should_add_to_bucket (Stage5.block_metrics prev_a a)
        (Stage5.block_metrics prev_b b) (Some th) = Ok verdict)
  /\ (Stage7.should_add_to_bucket (Stage5.block_metrics prev_a a)
        (Stage5.block_metrics prev_b b) None = Raise TypeError
      <-> (char_count a <= 0)%Z \/ (char_count b <= 0)%Z)
  /\ ((0 < char_count a)%Z -> (0 < char_count b)%Z ->
      exists verdict,
        Stage7.should_add_to_bucket (Stage5.block_metrics prev_a a)
          (Stage5.block_metrics prev_b b) None = Ok verdict).
Proof.
  split; [|split].
  - intros th. by eapply should_add_to_bucket_thresholds.
  - unfold Stage7.should_add_to_bucket, Stage7.bucket_thresholds. simpl.
    destruct (Z.ltb_spec 0 (char_count a)); simpl.
    + destruct (Z.ltb_spec 0 (char_count b)); simpl.
      * split; [|lia].
        repeat (destruct (Py.Qleb _ _) || destruct (Py.Qltb _ _)); done.
      * split; [by right|done].
    + split; [by left|done].
  - intros Ha Hb. eapply should_add_to_bucket_thresholds.
    unfold Stage7.bucket_thresholds. simpl.
    destruct (Z.ltb_spec 0 (char_count a)); [|lia].
    destruct (Z.ltb_spec 0 (char_count b)); [|lia]. done.
Qed.

(** X11.  With adaptive thresholds the Block Builder returns on every
    list of Lines.  Its Blocks partition the Lines, none is empty, each
    Block lists its Lines in the order of the input, and the Blocks are
    listed in the order in which their first Lines come in the input. *)
Theorem block_builder_keeps_line_order (th : Thresholds) (lines : list Block) :
  exists groups,
    Stage7.create_buckets lines (Some th) = Ok groups
    /\ concat groups ≡ₚ lines
    /\ Forall (fun g => g <> [] /\ g `sublist_of` lines) groups
    /\ omap head groups `sublist_of` lines
    /\ length groups <= length lines.
Proof.
  destruct (create_buckets_returns th lines) as [groups Hg].
  exists groups. split; [done|].
  rewrite create_buckets_generic in Hg.
  destruct (build_groups _ _ _ Hg) as [Hp Hne].
  destruct (build_order _ _ _ Hg) as [Hsub Hheads].
  repeat split; [done..|]. rewrite <- Hp. by apply groups_length.
Qed.

Section BlockPageFacts.

Lemma bucket_info_bounding idx bucket v :
  Stage7.bucket_info idx bucket = Ok v -> Box.bounding v.
Proof.
  intros Hv. apply bucket_info_box in Hv
    as (_ & Hn & Hb & Hne & Hcov & H1 & H2 & H3 & H4 & _).
  unfold Box.bounding. by rewrite Hb.
Qed.

(** What [process_page_buckets] computes, step by step. *)
Lemma process_page_buckets_inv page page' :
  Stage7.process_page_buckets page = Ok page' ->
  exists groups data,
    FirstFit.build (FirstFit.bucket_test (Stage6.adaptive_thresholds page))
      (Py.sorted mid_y_x (Stage6.line_blocks page)) = Ok groups
    /\ Stage7.mapM_enumerate Stage7.bucket_info 0 groups = Ok data
    /\ map blocks data = groups
    /\ page' = Stage7.mkBucketPage
                 (length (Py.sorted mid_y_x (Stage6.line_blocks page)))
                 (length groups) (Py.sorted vb_min_mid_y_x data)
                 (Stage6.adaptive_thresholds page).
Proof.
  unfold Stage7.process_page_buckets. intros H.
  inv_bind H. rename r into groups. inv_bind H. rename r into data.
  injection H as <-. exists groups, data.
  rewrite create_buckets_generic in Hr. split; [done|]. split; [done|].
  split; [|done].
  by apply (mapM_enumerate_proj _ blocks _ _ _ bucket_info_blocks Hr0).
Qed.

Lemma process_page_buckets_totals page page' :
  Stage7.process_page_buckets page = Ok page' ->
  Stage7.total_blocks page' = length (Stage6.line_blocks page)
  /\ Stage7.total_buckets page' = length (Stage7.buckets page')
  /\ sum_list (map num_blocks (Stage7.buckets page')) = Stage7.total_blocks page'
  /\ Stage7.total_buckets page' <= Stage7.total_blocks page'.
Proof.
  intros H. apply process_page_buckets_inv in H
    as (groups & data & Hg & Hd & Hblocks & ->). simpl.
  destruct (build_groups _ _ _ Hg) as [Hp Hne].
  pose proof (mapM_enumerate_Forall2 _ _ _ _ Hd) as [Hlen _].
  assert (map num_blocks data = map length groups) as Hnum.
  { rewrite <- Hblocks, map_map.
    apply (mapM_enumerate_Forall _ (fun v => num_blocks v = length (blocks v))) in Hd.
    - clear -Hd. induction Hd as [|v data Hv _ IH]; simpl; [done|]. by rewrite Hv, IH.
    - intros i x y _ Hy. by apply bucket_info_box in Hy as (_ & -> & -> & _). }
  assert (length (concat groups) = length (Stage6.line_blocks page)) as Hcount
    by by rewrite Hp, sorted_Permutation.
  split; [by rewrite sorted_Permutation|].
  split; [by rewrite sorted_Permutation|].
  split.
  - rewrite (sum_list_Permutation _ (map num_blocks data))
      by (apply Permutation_map, sorted_Permutation).
    by rewrite Hnum, sum_list_length_concat, Hcount, sorted_Permutation.
  - rewrite sorted_Permutation, <- Hcount. by apply groups_length.
Qed.

Lemma process_page_buckets_boxes page page' :
  Stage7.process_page_buckets page = Ok page' ->
  Forall (fun v => Box.bounding v
                   /\ blocks v `sublist_of` Py.sorted mid_y_x (Stage6.line_blocks page))
    (Stage7.buckets page').
Proof.
  intros H. apply process_page_buckets_inv in H
    as (groups & data & Hg & Hd & Hblocks & ->). simpl.
  destruct (build_order _ _ _ Hg) as [Hsub _].
  apply Forall_sorted.
  eapply mapM_enumerate_Forall; [|exact Hd].
  intros i g v Hin Hv. split; [by eapply bucket_info_bounding|].
  rewrite (bucket_info_blocks _ _ _ Hv).
  rewrite Forall_forall in Hsub. by apply Hsub.
Qed.

End BlockPageFacts.

(** X12.  A page of stage 7.  When stage 7 returns, [total_blocks] is
    the number of Lines and the sum of the [num_blocks] of the Blocks,
    [total_buckets] is the number of Blocks and at most the number of
    Lines, the Blocks come in ascending order of [min_mid_y_x], and their
    ids are the numbers [0 .. total_buckets - 1] in some order (a Block
    keeps the number under which it was created).  Each Block has at
    least one Line, its Lines are a subsequence of the sorted Lines of the
    page, and its box is the bounding box of its Lines: it covers each of
    them and each of its sides is a side of one of them. *)
Theorem block_page_accounting (page : Stage6.HorizontalPage) (page' : Stage7.BucketPage) :
  Stage7.process_page_buckets page = Ok page' ->
  Stage7.total_blocks page' = length (Stage6.line_blocks page)
  /\ Stage7.total_buckets page' = length (Stage7.buckets page')
  /\ sum_list (map num_blocks (Stage7.buckets page')) = Stage7.total_blocks page'
  /\ Stage7.total_buckets page' <= Stage7.total_blocks page'
  /\ map bucket_id (Stage7.buckets page') ≡ₚ seq 0 (Stage7.total_buckets page')
  /\ Py.ascending vb_min_mid_y_x (Stage7.buckets page') = true
  /\ Stage7.adaptive_thresholds page' = Stage6.adaptive_thresholds page
  /\ Forall (fun v => Box.bounding v
                      /\ blocks v `sublist_of` Py.sorted mid_y_x (Stage6.line_blocks page))
       (Stage7.buckets page').
Proof.
  intros H.
  destruct (process_page_buckets_totals _ _ H) as (H1 & H2 & H3 & H4).
  pose proof (process_page_buckets_boxes _ _ H) as Hboxes.
  repeat (split; [done|]).
  apply process_page_buckets_inv in H as (groups & data & Hg & Hd & _ & ->). simpl.
  split; [|split; [apply sorted_ascending|by split]].
  rewrite (sorted_Permutation vb_min_mid_y_x data).
  erewrite (mapM_enumerate_ids _ bucket_id); [done| |exact Hd].
  intros i x y Hy. by apply bucket_info_box in Hy as (-> & _).
Qed.

Lemma block_page_accounting_witness :
  exists page',
    Stage7.process_page_buckets Cases.three_lines_page = Ok page'
    /\ Stage7.total_buckets page' <= Stage7.total_blocks page'
    /\ Py.ascending vb_min_mid_y_x (Stage7.buckets page') = true.
Proof.
  eexists. split; [vm_compute; reflexivity|].
  match goal with
  | |- Stage7.total_buckets ?p <= _ /\ _ =>
      destruct (block_page_accounting Cases.three_lines_page p)
        as (_ & _ & _ & H4 & _ & H6 & _)
  end.
  - vm_compute. reflexivity.
  - split; [exact H4|exact H6].
Defined.

(* ===================================================================== *)
(** ** Stage 8: the builder, the page and the normalisation *)
(* ===================================================================== *)

Section SegmentPage.

Lemma h_bucket_info_box idx h_bucket info :
  Stage8.h_bucket_info idx h_bucket = Ok info ->
  horizontal_bucket_id info = idx
  /\ num_vertical_buckets info = length h_bucket
  /\ num_text_blocks info = sum_list (map num_blocks h_bucket)
  /\ vertical_buckets info = h_bucket
  /\ h_bucket <> []
  /\ Forall (Box.h_covers info) h_bucket
  /\ (exists v, v ∈ h_bucket /\ vb_start_x v = hb_start_x info)
  /\ (exists v, v ∈ h_bucket /\ vb_end_x v = hb_end_x info)
  /\ (exists v, v ∈ h_bucket /\ vb_start_y v = hb_start_y info)
  /\ (exists v, v ∈ h_bucket /\ vb_end_y v = hb_end_y info).
Proof.
  unfold Stage8.h_bucket_info. intros H.
  destruct (Py.min_Z (map vb_start_x h_bucket)) as [sx|] eqn:Esx; [|done].
  destruct (Py.max_Z (map vb_end_x h_bucket)) as [ex|] eqn:Eex; [|done].
  destruct (Py.min_Z (map vb_start_y h_bucket)) as [sy|] eqn:Esy; [|done].
  destruct (Py.max_Z (map vb_end_y h_bucket)) as [ey|] eqn:Eey; [|done].
  simpl in H. repeat inv_bind H. injection H as <-. simpl.
  apply min_Z_spec in Esx as [Hsx Hsx'], Esy as [Hsy Hsy'].
  apply max_Z_spec in Eex as [Hex Hex'], Eey as [Hey Hey'].
  repeat split; try done.
  - intros ->. by destruct Hsx' as (? & ?%not_elem_of_nil & _).
  - unfold Box.h_covers. simpl. apply Forall_forall. intros b Hb.
    rewrite Forall_forall in Hsx, Hex, Hsy, Hey. auto.
Qed.

Lemma sum_list_concat {A} (f : A -> nat) (groups : list (list A)) :
  sum_list (map (fun g => sum_list (map f g)) groups)
  = sum_list (map f (concat groups)).
Proof.
  induction groups as [|g groups IH]; simpl; [done|].
  rewrite map_app, IH. clear IH.
  induction g as [|x g IH]; simpl; [done|]. rewrite <- IH. lia.
Qed.

Lemma normalize_coordinate_mono (c1 c2 d : Z) :
  (0 < d)%Z -> (c1 <= c2)%Z ->
  (Stage8.normalize_coordinate c1 d <= Stage8.normalize_coordinate c2 d)%Z.
Proof.
  intros Hd Hc. unfold Stage8.normalize_coordinate, Py.div. apply round_mono.
  unfold Qle, Qdiv, Qmult, Qinv, inject_Z. simpl.
  destruct d as [|p|p]; try lia. simpl. nia.
Qed.

Lemma normalize_bucket_coordinates_edges data w h :
  (0 < w)%Z -> (0 < h)%Z ->
  Forall (Box.normalised w h) (Stage8.normalize_bucket_coordinates data w h).
Proof.
  intros Hw Hh. unfold Stage8.normalize_bucket_coordinates.
  destruct (Z.eqb_spec w 0); [lia|]. destruct (Z.eqb_spec h 0); [lia|].
  apply Forall_map, Forall_true. done.
Qed.

Lemma normalised_ordered (w h : Z) (s : HBucket) :
  (0 < w)%Z -> (0 < h)%Z -> Box.normalised w h s ->
  (hb_start_x (hb_info s) <= hb_end_x (hb_info s))%Z ->
  (hb_start_y (hb_info s) <= hb_end_y (hb_info s))%Z ->
  (left_edge s <= right_edge s)%Z /\ (top_edge s <= bottom_edge s)%Z.
Proof.
  intros Hw Hh (El & Er & Et & Eb) Hx Hy. rewrite El, Er, Et, Eb.
  split; by apply normalize_coordinate_mono.
Qed.

Lemma normalize_percent (w h : Z) (s : HBucket) :
  (0 < w)%Z -> (0 < h)%Z -> Box.normalised w h s ->
  Box.h_inside w h (hb_info s) -> Box.percent s.
Proof.
  intros Hw Hh Hn (H1 & H2 & H3 & H4 & H5 & H6).
  destruct (normalised_ordered w h s Hw Hh Hn H2 H5) as [Hx Hy].
  destruct Hn as (El & Er & Et & Eb).
  unfold Box.percent.
  pose proof (normalize_coordinate_on_page (hb_start_x (hb_info s)) w Hw) as G1.
  pose proof (normalize_coordinate_on_page (hb_end_x (hb_info s)) w Hw) as G2.
  pose proof (normalize_coordinate_on_page (hb_start_y (hb_info s)) h Hh) as G3.
  pose proof (normalize_coordinate_on_page (hb_end_y (hb_info s)) h Hh) as G4.
  rewrite <- El in G1. rewrite <- Er in G2. rewrite <- Et in G3. rewrite <- Eb in G4.
  lia.
Qed.

Lemma h_bucket_info_bounding idx h_bucket info :
  Stage8.h_bucket_info idx h_bucket = Ok info -> Box.h_bounding info.
Proof.
  intros Hv. apply h_bucket_info_box in Hv
    as (_ & Hn & Ht & Hb & Hne & Hcov & H1 & H2 & H3 & H4).
  unfold Box.h_bounding. by rewrite Hb.
Qed.

(** What [process_page_horizontal_buckets] computes, step by step. *)
Lemma process_page_horizontal_buckets_inv page page' :
  Stage8.process_page_horizontal_buckets page = Ok page' ->
  exists groups data,
    FirstFit.build FirstFit.horizontal_bucket_test (Stage7.buckets page) = Ok groups
    /\ Stage7.mapM_enumerate Stage8.h_bucket_info 0 groups = Ok data
    /\ map vertical_buckets data = groups
    /\ Forall Box.h_bounding data
    /\ page' = Stage8.mkHorizontalBucketPage
                 (sum_list (map num_text_blocks data))
                 (sum_list (map num_vertical_buckets data))
                 (length groups)
                 (Stage8.normalize_bucket_coordinates
                    (Py.sorted hb_min_mid_y_x data) 2550 3300)
                 (Stage7.adaptive_thresholds page).
Proof.
  unfold Stage8.process_page_horizontal_buckets. intros H.
  inv_bind H. rename r into groups. inv_bind H. rename r into data.
  injection H as <-. exists groups, data.
  rewrite create_horizontal_buckets_generic in Hr.
  split; [done|]. split; [done|]. split; [|split; [|done]].
  - by apply (mapM_enumerate_proj _ vertical_buckets _ _ _
                h_bucket_info_vertical_buckets Hr0).
  - eapply mapM_enumerate_Forall; [|exact Hr0].
    intros i g v _ Hv. by eapply h_bucket_info_bounding.
Qed.

Lemma process_page_horizontal_buckets_totals page page' :
  Stage8.process_page_horizontal_buckets page = Ok page' ->
  Stage8.total_vertical_buckets page' = length (Stage7.buckets page)
  /\ Stage8.total_text_blocks page' = sum_list (map num_blocks (Stage7.buckets page))
  /\ Stage8.total_horizontal_buckets page' = length (Stage8.horizontal_buckets page')
  /\ Stage8.total_horizontal_buckets page' <= Stage8.total_vertical_buckets page'.
Proof.
  intros H. apply process_page_horizontal_buckets_inv in H
    as (groups & data & Hg & Hd & Hvbs & Hnum & ->). simpl.
  destruct (build_groups _ _ _ Hg) as [Hp Hne].
  pose proof (mapM_enumerate_Forall2 _ _ _ _ Hd) as [Hlen _].
  assert (map num_vertical_buckets data = map length groups) as Hnv.
  { rewrite <- Hvbs, map_map. clear -Hnum.
    induction Hnum as [|v data (_ & Hv & _) _ IH]; simpl; [done|]. by rewrite Hv, IH. }
  assert (map num_text_blocks data
          = map (fun g => sum_list (map num_blocks g)) groups) as Hnt.
  { rewrite <- Hvbs, map_map. clear -Hnum.
    induction Hnum as [|v data (_ & _ & Hv & _) _ IH]; simpl; [done|].
    by rewrite Hv, IH. }
  split; [by rewrite Hnv, sum_list_length_concat, Hp|].
  split.
  { rewrite Hnt, sum_list_concat.
    by apply sum_list_Permutation, Permutation_map. }
  unfold Stage8.normalize_bucket_coordinates. simpl.
  split; [by rewrite length_map, sorted_Permutation|].
  rewrite Hnv, sum_list_length_concat. by apply groups_length.
Qed.

Lemma process_page_horizontal_buckets_boxes page page' :
  Stage8.process_page_horizontal_buckets page = Ok page' ->
  Forall (fun s => Box.h_bounding (hb_info s)
                   /\ vertical_buckets (hb_info s) `sublist_of` Stage7.buckets page
                   /\ Box.normalised 2550 3300 s)
    (Stage8.horizontal_buckets page').
Proof.
  intros H. apply process_page_horizontal_buckets_inv in H
    as (groups & data & Hg & Hd & Hvbs & Hnum & ->). simpl.
  destruct (build_order _ _ _ Hg) as [Hsub _].
  apply Forall_map. simpl. apply Forall_sorted.
  eapply mapM_enumerate_Forall; [|exact Hd].
  intros i g v Hin Hv. split; [by eapply h_bucket_info_bounding|].
  split; [|done].
  rewrite (h_bucket_info_vertical_buckets _ _ _ Hv).
  rewrite Forall_forall in Hsub. by apply Hsub.
Qed.

End SegmentPage.

(** X13.  When the Segment Builder returns, its Segments partition the
    Blocks, none is empty, each Segment lists its Blocks in the order of
    the input, and the Segments are listed in the order in which their
    first Blocks come in the input. *)
Theorem segment_builder_keeps_block_order
    (vertical_buckets : list VBucket) (groups : list (list VBucket)) :
  Stage8.create_horizontal_buckets vertical_buckets = Ok groups ->
  concat groups ≡ₚ vertical_buckets
  /\ Forall (fun g => g <> [] /\ g `sublist_of` vertical_buckets) groups
  /\ omap head groups `sublist_of` vertical_buckets
  /\ length groups <= length vertical_buckets.
Proof.
  intros Hg. rewrite create_horizontal_buckets_generic in Hg.
  destruct (build_groups _ _ _ Hg) as [Hp Hne].
  destruct (build_order _ _ _ Hg) as [Hsub Hheads].
  repeat split; [done..|]. rewrite <- Hp. by apply groups_length.
Qed.

Lemma segment_builder_keeps_block_order_witness :
  concat [[Examples.indent_upper]; [Examples.indent_lower]]
  ≡ₚ [Examples.indent_upper; Examples.indent_lower]
  /\ omap head [[Examples.indent_upper]; [Examples.indent_lower]]
     `sublist_of` [Examples.indent_upper; Examples.indent_lower].
Proof.
  destruct (segment_builder_keeps_block_order
              [Examples.indent_upper; Examples.indent_lower]
              [[Examples.indent_upper]; [Examples.indent_lower]])
    as (H1 & _ & H3 & _).
  - vm_compute. reflexivity.
  - split; [exact H1|exact H3].
Defined.

(** X14.  A page of stage 8.  When stage 8 returns, the totals of the
    page are the number of Blocks and the number of Lines of its input,
    [total_horizontal_buckets] is the number of Segments and at most the
    number of Blocks, the Segments come in ascending order of
    [min_mid_y_x], and their ids are the numbers
    [0 .. total_horizontal_buckets - 1] in some order.  Each Segment has
    at least one Block, its Blocks are a subsequence of the Blocks of the
    page, its counts are those of its Blocks, its box is their bounding
    box (it covers each of them and each of its sides is a side of one of
    them), and its four edges are the corners of that box normalised
    against 2550 by 3300, whatever the size of the page. *)
Theorem segment_page_accounting
    (page : Stage7.BucketPage) (page' : Stage8.HorizontalBucketPage) :
  Stage8.process_page_horizontal_buckets page = Ok page' ->
  Stage8.total_vertical_buckets page' = length (Stage7.buckets page)
  /\ Stage8.total_text_blocks page' = sum_list (map num_blocks (Stage7.buckets page))
  /\ Stage8.total_horizontal_buckets page' = length (Stage8.horizontal_buckets page')
  /\ Stage8.total_horizontal_buckets page' <= Stage8.total_vertical_buckets page'
  /\ Spec.segment_ids (Stage8.horizontal_buckets page')
     ≡ₚ seq 0 (Stage8.total_horizontal_buckets page')
  /\ Py.ascending hb_min_mid_y_x (map hb_info (Stage8.horizontal_buckets page')) = true
  /\ Stage8.adaptive_thresholds page' = Stage7.adaptive_thresholds page
  /\ Forall (fun s => Box.h_bounding (hb_info s)
                      /\ vertical_buckets (hb_info s) `sublist_of` Stage7.buckets page
                      /\ Box.normalised 2550 3300 s)
       (Stage8.horizontal_buckets page').
Proof.
  intros H.
  destruct (process_page_horizontal_buckets_totals _ _ H) as (H1 & H2 & H3 & H4).
  pose proof (process_page_horizontal_buckets_boxes _ _ H) as Hboxes.
  repeat (split; [done|]).
  apply process_page_horizontal_buckets_inv in H
    as (groups & data & Hg & Hd & _ & _ & ->). simpl.
  rewrite normalize_bucket_coordinates_info.
  split; [|split; [apply sorted_ascending|by split]].
  unfold Spec.segment_ids.
  rewrite <- (map_map hb_info horizontal_bucket_id).
  rewrite normalize_bucket_coordinates_info.
  rewrite (sorted_Permutation hb_min_mid_y_x data).
  erewrite (mapM_enumerate_ids _ horizontal_bucket_id); [done| |exact Hd].
  intros i x y Hy. by apply h_bucket_info_box in Hy as (-> & _).
Qed.

Lemma segment_page_accounting_witness :
  exists page',
    Stage8.process_page_horizontal_buckets Cases.indent_page = Ok page'
    /\ Stage8.total_vertical_buckets page' = 2
    /\ Stage8.total_horizontal_buckets page' <= Stage8.total_vertical_buckets page'.
Proof.
  eexists. split; [vm_compute; reflexivity|].
  match goal with
  | |- Stage8.total_vertical_buckets ?p = _ /\ _ =>
      destruct (segment_page_accounting Cases.indent_page p)
        as (H1 & _ & _ & H4 & _)
  end.
  - vm_compute. reflexivity.
  - split; [exact H1|exact H4].
Defined.

(** X15.  The normalisation against a page of positive width and height
    keeps the order of the edges: a box with [start <= end] gets
    [left_edge <= right_edge] and [top_edge <= bottom_edge]; a box that
    lies on the page gets four edges between 0 and 100; and the records
    are otherwise handed on as they are.  A page dimension of 0 stands
    for the default 2550 by 3300. *)
Theorem normalized_edges_ordered (data : list HBucketInfo) (page_width page_height : Z) :
  (0 < page_width)%Z -> (0 < page_height)%Z ->
  map hb_info (Stage8.normalize_bucket_coordinates data page_width page_height) = data
  /\ (Forall (fun i => (hb_start_x i <= hb_end_x i)%Z /\ (hb_start_y i <= hb_end_y i)%Z)
        data ->
      Forall (fun s => (left_edge s <= right_edge s)%Z /\ (top_edge s <= bottom_edge s)%Z)
        (Stage8.normalize_bucket_coordinates data page_width page_height))
  /\ (Forall (Box.h_inside page_width page_height) data ->
      Forall Box.percent
        (Stage8.normalize_bucket_coordinates data page_width page_height))
  /\ Stage8.normalize_bucket_coordinates data 0 0
     = Stage8.normalize_bucket_coordinates data 2550 3300.
Proof.
  intros Hw Hh.
  pose proof (normalize_bucket_coordinates_info data page_width page_height) as Hinfo.
  pose proof (normalize_bucket_coordinates_edges data page_width page_height Hw Hh)
    as Hedges.
  split; [done|]. split; [|split; [|done]].
  - intros Hd. rewrite <- Hinfo in Hd. apply (proj1 (Forall_map _ _ _)) in Hd.
    pose proof (List.Forall_and Hedges Hd) as Hboth. simpl in Hboth.
    eapply Forall_impl; [exact Hboth|].
    intros s [Hn [Hx Hy]]. by apply (normalised_ordered page_width page_height).
  - intros Hd. rewrite <- Hinfo in Hd. apply (proj1 (Forall_map _ _ _)) in Hd.
    pose proof (List.Forall_and Hedges Hd) as Hboth. simpl in Hboth.
    eapply Forall_impl; [exact Hboth|].
    intros s [He Hi]. by apply (normalize_percent page_width page_height).
Qed.

Lemma normalized_edges_ordered_witness :
  map (fun s => (left_edge s, right_edge s, top_edge s, bottom_edge s))
    (Stage8.normalize_bucket_coordinates Cases.indent_infos 2550 3300)
  = [(4, 20, 3, 4)%Z]
  /\ Forall Box.percent (Stage8.normalize_bucket_coordinates Cases.indent_infos 2550 3300).
Proof.
  split; [vm_compute; reflexivity|].
  apply (normalized_edges_ordered Cases.indent_infos 2550 3300); [lia|lia|].
  repeat constructor; vm_compute; discriminate.
Defined.

(* ===================================================================== *)
(** ** Stage 9: what the Reorderer leaves in place *)
(* ===================================================================== *)

Section ReordererFacts.

Implicit Types (b : list HBucket) (ref : HBucket).

Lemma stack_scan_no_match fuel b r ref c :
  (forall k y, c <= k -> b !! k = Some y -> Stage9.stacks_under ref y = false) ->
  length b - c < fuel ->
  Stage9.stack_scan fuel b r ref c = Ok (b, r).
Proof.
  revert c. induction fuel as [|fuel IH]; intros c Hno Hf; [lia|].
  destruct (b !! c) as [y|] eqn:Hc.
  - assert (c < length b) as Hcl by by eapply lookup_lt_Some.
    rewrite (stack_scan_skip _ _ _ _ _ y Hc) by by apply (Hno c).
    apply IH; [|lia]. intros k z Hk. apply Hno. lia.
  - by apply stack_scan_end.
Qed.

Lemma scan_fuel_covers b r :
  r < length b -> length b - (r + 1) < Stage9.scan_fuel (length b).
Proof.
  intros Hr. pose proof (scan_fuel_enough b r Hr) as H.
  set (p := (length b - r) * S (length b)) in *. clearbody p. lia.
Qed.

Lemma stack_loop_fixed fuel b r :
  (forall i j x y, r <= i -> i < j -> b !! i = Some x -> b !! j = Some y ->
                   Stage9.stacks_under x y = false) ->
  length b - r < fuel ->
  Stage9.stack_loop fuel b r = Ok b.
Proof.
  revert r. induction fuel as [|fuel IH]; intros r Hno Hf; [lia|].
  rewrite stack_loop_unfold. destruct (b !! r) as [ref|] eqn:Hr; [|done].
  assert (r < length b) as Hrl by by eapply lookup_lt_Some.
  rewrite stack_scan_no_match.
  - simpl. apply IH; [|lia]. intros i j x y Hi. apply Hno. lia.
  - intros k y Hk Hy. apply (Hno r k); [lia|lia|done|done].
  - by apply scan_fuel_covers.
Qed.

Lemma stack_loop_first fuel b out :
  Stage9.stack_loop fuel b 0 = Ok out -> take 1 out = take 1 b.
Proof.
  destruct fuel as [|fuel]; [done|].
  rewrite stack_loop_unfold. destruct (b !! 0) as [ref|] eqn:Hr.
  - intros H. inv_bind H. destruct r as [b1 r1]. simpl in H.
    apply stack_scan_result in Hr0 as (_ & Ht1 & _ & _); [|lia].
    apply stack_loop_result in H as [_ Ht].
    change (0 + 1) with 1 in Ht1. rewrite <- Ht1. apply (take_eq_le _ (r1 + 1)); [lia|done].
  - by intros [= <-].
Qed.

Lemma map_imap_ext {A B} (g : A -> B) (f : nat -> A -> A) (l : list A) :
  (forall i x, g (f i x) = g x) -> map g (imap f l) = map g l.
Proof.
  revert f. induction l as [|x l IH]; intros f Hf; simpl; [done|].
  rewrite Hf. f_equal. apply IH. intros i y. apply Hf.
Qed.

Lemma head_take_1 {A} (l1 l2 : list A) : take 1 l1 = take 1 l2 -> head l1 = head l2.
Proof. destruct l1, l2; simpl; congruence. Qed.

End ReordererFacts.

(** X16.  The Reorderer returns on every list of Segments.  It returns
    the same Segments in another order, and the first Segment of the page
    stays the first: a Segment is only ever moved to a position after the
    reference. *)
Theorem reorderer_keeps_first_segment (horizontal_buckets : list HBucket) :
  exists out,
    Stage9.vertical_column_stack_sort horizontal_buckets = Ok out
    /\ out ≡ₚ horizontal_buckets
    /\ length out = length horizontal_buckets
    /\ head out = head horizontal_buckets.
Proof.
  destruct (vertical_column_stack_sort_total horizontal_buckets) as (out & Hs & Hp).
  exists out. split; [done|]. split; [done|]. split; [by rewrite Hp|].
  rewrite vertical_column_stack_sort_loop in Hs.
  by apply head_take_1, (stack_loop_first _ _ _ Hs).
Qed.

(** X17.  When no Segment of the list is column-aligned with and
    vertically close to a Segment that comes before it, the Reorderer
    returns the list as it is. *)
Theorem reorderer_fixed_point (horizontal_buckets : list HBucket) :
  (forall i j x y, i < j ->
     horizontal_buckets !! i = Some x -> horizontal_buckets !! j = Some y ->
     ~ Spec.stacks x y) ->
  Stage9.vertical_column_stack_sort horizontal_buckets = Ok horizontal_buckets.
Proof.
  intros Hno. rewrite vertical_column_stack_sort_loop.
  apply stack_loop_fixed; [|lia].
  intros i j x y _ Hij Hx Hy. apply stacks_under_false. by apply (Hno i j).
Qed.

Lemma reorderer_fixed_point_witness :
  Stage9.vertical_column_stack_sort Cases.two_columns = Ok Cases.two_columns.
Proof.
  apply (reorderer_fixed_point Cases.two_columns).
  intros [|[|i]] [|[|j]] x y Hij Hx Hy; try lia; try done.
  injection Hx as <-. injection Hy as <-.
  apply stacks_under_false. vm_compute. reflexivity.
Defined.

(** X18.  Stage 9 returns on every page and changes the order of the
    Segments and their ids, nothing else: the Segments of the page it
    returns are, apart from the ids, those of its input in another order
    (boxes, normalised edges, counts and Blocks), the first Segment is
    the same, and the totals and the thresholds of the page are handed
    on. *)
Theorem reorderer_page_changes_order_only (page : Stage8.HorizontalBucketPage) :
  exists page',
    Stage9.process_page page = Ok page'
    /\ map Box.content (Stage8.horizontal_buckets page')
       ≡ₚ map Box.content (Stage8.horizontal_buckets page)
    /\ head (map Box.content (Stage8.horizontal_buckets page'))
       = head (map Box.content (Stage8.horizontal_buckets page))
    /\ length (Stage8.horizontal_buckets page') = length (Stage8.horizontal_buckets page)
    /\ Stage8.total_text_blocks page' = Stage8.total_text_blocks page
    /\ Stage8.total_vertical_buckets page' = Stage8.total_vertical_buckets page
    /\ Stage8.total_horizontal_buckets page' = Stage8.total_horizontal_buckets page
    /\ Stage8.adaptive_thresholds page' = Stage8.adaptive_thresholds page.
Proof.
  destruct (process_page_result page) as (out & Hs & Hp & ->).
  eexists. split; [done|]. simpl.
  rewrite (map_imap_ext Box.content) by done.
  split; [by rewrite Hp|]. split.
  - rewrite vertical_column_stack_sort_loop in Hs.
    apply stack_loop_first in Hs.
    apply head_take_1. by rewrite <- !fmap_take, Hs.
  - split; [|done]. by rewrite length_imap, Hp.
Qed.

(* ===================================================================== *)
(** ** The boxes along the pipeline *)
(* ===================================================================== *)

Section BoxesAlong.

Lemma halve_mono (a b : Z) :
  (a <= b)%Z -> (Py.round (Py.div a 2) <= Py.round (Py.div b 2))%Z.
Proof.
  intros H. apply round_mono. unfold Py.div, Qle, Qdiv, Qmult, Qinv, inject_Z.
  simpl. lia.
Qed.

Lemma scale_block_inside (w h : Z) (b : Block) :
  Box.inside (2 * w) (2 * h) b -> Box.inside w h (Stage4.scale_block b).
Proof.
  intros (H1 & H2 & H3 & H4 & H5 & H6). unfold Box.inside. simpl.
  pose proof (round_div_even 0) as H0. change (2 * 0)%Z with 0%Z in H0.
  pose proof (halve_mono _ _ H1) as G1. rewrite H0 in G1.
  pose proof (halve_mono _ _ H2) as G2.
  pose proof (halve_mono _ _ H3) as G3. rewrite round_div_even in G3.
  pose proof (halve_mono _ _ H4) as G4. rewrite H0 in G4.
  pose proof (halve_mono _ _ H5) as G5.
  pose proof (halve_mono _ _ H6) as G6. rewrite round_div_even in G6.
  done.
Qed.

Lemma metrics_from_inside (w h : Z) (prev : option Block) (l : list Block) :
  Forall (Box.inside w h) l -> Forall (Box.inside w h) (Stage5.metrics_from prev l).
Proof.
  intros Hl. revert prev. induction Hl as [|b l Hb _ IH]; intros prev; simpl;
    constructor; [done|apply IH].
Qed.

Lemma merge_blocks_counted_inside (w h : Z) blocks thresholds out merges :
  Forall (Box.inside w h) blocks ->
  Stage6.merge_blocks_counted blocks thresholds = Ok (out, merges) ->
  Forall (Box.inside w h) out.
Proof.
  apply (merge_blocks_counted_Forall (Box.inside w h)).
  apply merge_two_blocks_inside.
Qed.

Lemma merge_two_blocks_counted (a b : Block) :
  Box.counted a -> Box.counted b -> Box.counted (Stage6.merge_two_blocks a b).
Proof.
  unfold Box.counted, Stage6.merge_two_blocks. simpl. intros Ha Hb.
  assert (forall s t : string,
            String.length (s ++ t)%string = String.length s + String.length t)
    as Hlen.
  { intros s t. induction s as [|ch s IH]; simpl; [done|]. by rewrite IH. }
  rewrite !Hlen. simpl String.length.
  unfold Stage6.first_block, Stage6.second_block.
  destruct (start_x a <=? start_x b)%Z; lia.
Qed.

Lemma merge_two_blocks_confidence (c : Q) (a b : Block) :
  (c <= confidence a)%Q -> (c <= confidence b)%Q ->
  (c <= confidence (Stage6.merge_two_blocks a b))%Q.
Proof.
  intros Ha Hb. unfold Stage6.merge_two_blocks. simpl.
  destruct (Qmax_cases (confidence (Stage6.first_block a b))
              (confidence (Stage6.second_block a b))) as (_ & _ & [-> | ->]);
    unfold Stage6.first_block, Stage6.second_block;
    by destruct (start_x a <=? start_x b)%Z.
Qed.

Lemma merge_horizontal_counted_facts (w h : Z) blocks thresholds page merges :
  Stage6.merge_horizontal_counted blocks thresholds = Ok (page, merges) ->
  length (Stage6.line_blocks page) + merges = length blocks
  /\ (0 < length blocks -> 0 < length (Stage6.line_blocks page))
  /\ (Forall (Box.inside w h) blocks ->
      Forall (Box.inside w h) (Stage6.line_blocks page)).
Proof.
  unfold Stage6.merge_horizontal_counted. intros H. inv_bind H.
  destruct r as [out m]. injection H as <- <-. simpl.
  destruct (merge_blocks_counted_result thresholds (Py.sorted mid_y_x blocks))
    as (out' & m' & Hr' & Hlen & Hne & _).
  rewrite Hr in Hr'. injection Hr' as <- <-.
  unfold Stage5.calculate_block_metrics.
  pose proof (Permutation_length (sorted_Permutation mid_y_x out)) as Hl1.
  pose proof (Permutation_length (sorted_Permutation mid_y_x blocks)) as Hl2.
  rewrite metrics_from_length.
  split; [lia|]. split.
  { intros Hpos. destruct out as [|x out]; [|rewrite Hl1; simpl; lia].
    exfalso. apply Hne; [|done]. intros Hs. rewrite Hs in Hl2. simpl in Hl2. lia. }
  intros Hb.
  apply metrics_from_inside, Forall_sorted.
  eapply merge_blocks_counted_inside; [|exact Hr]. by apply Forall_sorted.
Qed.

Lemma bounding_inside (w h : Z) (v : VBucket) :
  Box.bounding v -> Forall (Box.inside w h) (blocks v) -> Box.v_inside w h v.
Proof.
  intros (_ & _ & Hcov & (b1 & Hb1 & E1) & (b2 & Hb2 & E2)
          & (b3 & Hb3 & E3) & (b4 & Hb4 & E4)) Hl.
  rewrite Forall_forall in Hl, Hcov.
  destruct (Hl b1 Hb1) as (I1 & ? & ? & ? & ? & ?).
  destruct (Hl b2 Hb2) as (? & ? & I2 & ? & ? & ?).
  destruct (Hl b3 Hb3) as (? & ? & ? & I3 & ? & ?).
  destruct (Hl b4 Hb4) as (? & ? & ? & ? & ? & I4).
  destruct (Hcov b1 Hb1) as (? & ? & ? & ?).
  destruct (Hcov b3 Hb3) as (? & ? & ? & ?).
  unfold Box.v_inside. lia.
Qed.

Lemma h_bounding_inside (w h : Z) (i : HBucketInfo) :
  Box.h_bounding i -> Forall (Box.v_inside w h) (vertical_buckets i) ->
  Box.h_inside w h i.
Proof.
  intros (_ & _ & _ & Hcov & (b1 & Hb1 & E1) & (b2 & Hb2 & E2)
          & (b3 & Hb3 & E3) & (b4 & Hb4 & E4)) Hl.
  rewrite Forall_forall in Hl, Hcov.
  destruct (Hl b1 Hb1) as (I1 & ? & ? & ? & ? & ?).
  destruct (Hl b2 Hb2) as (? & ? & I2 & ? & ? & ?).
  destruct (Hl b3 Hb3) as (? & ? & ? & I3 & ? & ?).
  destruct (Hl b4 Hb4) as (? & ? & ? & ? & ? & I4).
  destruct (Hcov b1 Hb1) as (? & ? & ? & ?).
  destruct (Hcov b3 Hb3) as (? & ? & ? & ?).
  unfold Box.h_inside. lia.
Qed.

Lemma Forall_sublist {A} (P : A -> Prop) (l1 l2 : list A) :
  l1 `sublist_of` l2 -> Forall P l2 -> Forall P l1.
Proof.
  intros Hsub Hl. rewrite Forall_forall in Hl. apply Forall_forall.
  intros x Hx. apply Hl. by apply (elem_of_sublist _ _ _ Hx Hsub).
Qed.

Lemma process_page_buckets_inside (w h : Z) page page' :
  Stage7.process_page_buckets page = Ok page' ->
  Forall (Box.inside w h) (Stage6.line_blocks page) ->
  Forall (Box.v_inside w h) (Stage7.buckets page').
Proof.
  intros Hp Hl. apply process_page_buckets_boxes in Hp.
  apply (Forall_sorted mid_y_x) in Hl.
  eapply Forall_impl; [exact Hp|]. intros v [Hb Hsub].
  apply bounding_inside; [done|]. by apply (Forall_sublist _ _ _ Hsub).
Qed.

Lemma process_page_horizontal_buckets_percent page page' :
  Stage8.process_page_horizontal_buckets page = Ok page' ->
  Forall (Box.v_inside 2550 3300) (Stage7.buckets page) ->
  Forall Box.percent (Stage8.horizontal_buckets page').
Proof.
  intros Hp Hl. apply process_page_horizontal_buckets_boxes in Hp.
  eapply Forall_impl; [exact Hp|]. intros s (Hb & Hsub & Hn).
  apply (normalize_percent 2550 3300); [lia|lia|done|].
  apply h_bounding_inside; [done|]. by apply (Forall_sublist _ _ _ Hsub).
Qed.

Lemma Forall_imap_keep {A} (P : A -> Prop) (f : nat -> A -> A) (l : list A) :
  (forall i x, P x -> P (f i x)) -> Forall P l -> Forall P (imap f l).
Proof.
  intros Hf Hl. revert f Hf. induction Hl as [|x l Hx _ IH]; intros f Hf; simpl.
  - constructor.
  - constructor; [by apply Hf|]. apply IH. intros i y. apply Hf.
Qed.

Lemma process_page_percent page page' :
  Stage9.process_page page = Ok page' ->
  Forall Box.percent (Stage8.horizontal_buckets page) ->
  Forall Box.percent (Stage8.horizontal_buckets page').
Proof.
  destruct (process_page_result page) as (reordered & _ & Hp & ->).
  intros [= <-] Hl. simpl. apply Forall_imap_keep; [done|]. by rewrite Hp.
Qed.

Lemma process_page_horizontal_buckets_sums page page' :
  Stage8.process_page_horizontal_buckets page = Ok page' ->
  sum_list (map (fun s => num_text_blocks (hb_info s)) (Stage8.horizontal_buckets page'))
  = Stage8.total_text_blocks page'
  /\ sum_list (map (fun s => num_vertical_buckets (hb_info s))
                 (Stage8.horizontal_buckets page'))
     = Stage8.total_vertical_buckets page'.
Proof.
  unfold Stage8.process_page_horizontal_buckets. intros H.
  inv_bind H. inv_bind H. injection H as <-. simpl.
  rewrite <- !(map_map hb_info), !normalize_bucket_coordinates_info.
  split; apply sum_list_Permutation, Permutation_map, sorted_Permutation.
Qed.

Lemma process_page_sums page page' (f : HBucketInfo -> nat) :
  (forall i s, f (hb_info (Stage9.set_horizontal_bucket_id i s)) = f (hb_info s)) ->
  Stage9.process_page page = Ok page' ->
  sum_list (map (fun s => f (hb_info s)) (Stage8.horizontal_buckets page'))
  = sum_list (map (fun s => f (hb_info s)) (Stage8.horizontal_buckets page)).
Proof.
  intros Hf. destruct (process_page_result page) as (reordered & _ & Hp & ->).
  intros [= <-]. simpl.
  rewrite (map_imap_ext (fun s => f (hb_info s))) by done.
  by apply sum_list_Permutation, Permutation_map.
Qed.

End BoxesAlong.

(** X19.  Three invariants of the Line Merger.  Whenever it returns,
    the Lines it returns, merged or not, inherit from the Lines it was
    given: a well-formed box within a canvas of [w] by [h] pixels; a
    [char_count] equal to the length of the text (the joining space is
    counted); and a confidence of at least [c]. *)
Theorem line_merger_invariants
    (w h : Z) (c : Q) (blocks out : list Block) (thresholds : option Thresholds) :
  Stage6.merge_blocks_recursive blocks thresholds = Ok out ->
  (Forall (Box.inside w h) blocks -> Forall (Box.inside w h) out)
  /\ (Forall Box.counted blocks -> Forall Box.counted out)
  /\ (Forall (fun b => (c <= confidence b)%Q) blocks ->
      Forall (fun b => (c <= confidence b)%Q) out).
Proof.
  unfold Stage6.merge_blocks_recursive. intros H. inv_bind H.
  destruct r as [out' m]. injection H as <-. simpl.
  split; [|split]; intros Hb.
  - by apply (merge_blocks_counted_inside w h _ _ _ _ Hb Hr).
  - by apply (merge_blocks_counted_Forall _ merge_two_blocks_counted _ _ _ _ Hb Hr).
  - by apply (merge_blocks_counted_Forall _ (merge_two_blocks_confidence c)
                _ _ _ _ Hb Hr).
Qed.

Lemma line_merger_invariants_witness :
  Forall (Box.inside 2550 3300) [Stage6.merge_two_blocks Examples.restart_reference
                                   Examples.restart_candidate]
  /\ Forall Box.counted [Stage6.merge_two_blocks Examples.restart_reference
                           Examples.restart_candidate].
Proof.
  destruct (line_merger_invariants 2550 3300 0
              [Examples.restart_reference; Examples.restart_candidate]
              [Stage6.merge_two_blocks Examples.restart_reference
                 Examples.restart_candidate]
              Examples.restart_thresholds) as (H1 & H2 & _).
  - vm_compute. reflexivity.
  - split; [apply H1|apply H2]; repeat constructor; vm_compute;
      first [discriminate | reflexivity].
Defined.

(** X20.  The counts along the pipeline.  When the pipeline returns a
    page, the number of Lines it reports and the number of merges of the
    Line Merger add up to the number of fragments that passed the
    confidence filter; there are at most as many Segments as Blocks and
    at most as many Blocks as Lines; the counts that the Segments carry
    add up to the totals of the page; and the page has no Segment only
    when no fragment passed the filter. *)
Theorem pipeline_counts
    (quadrants : list Quadrant) (min_confidence : Q)
    (page : Stage8.HorizontalBucketPage) (merges : nat) :
  Pipeline.run_counted quadrants min_confidence = Ok (page, merges) ->
  Stage8.total_text_blocks page + merges
  = length (Pipeline.surviving quadrants min_confidence)
  /\ Stage8.total_horizontal_buckets page = length (Stage8.horizontal_buckets page)
  /\ Stage8.total_horizontal_buckets page <= Stage8.total_vertical_buckets page
  /\ Stage8.total_vertical_buckets page <= Stage8.total_text_blocks page
  /\ sum_list (map (fun s => num_text_blocks (hb_info s)) (Stage8.horizontal_buckets page))
     = Stage8.total_text_blocks page
  /\ sum_list (map (fun s => num_vertical_buckets (hb_info s))
                 (Stage8.horizontal_buckets page))
     = Stage8.total_vertical_buckets page
  /\ (Stage8.horizontal_buckets page = []
      <-> Pipeline.surviving quadrants min_confidence = []).
Proof.
  unfold Pipeline.run_counted. intros H.
  inv_bind H. destruct r as [lines n]. simpl in H.
  inv_bind H. rename r into vertical. inv_bind H. rename r into horizontal.
  inv_bind H. rename r into stacked. injection H as <- <-.
  apply (merge_horizontal_counted_facts 0 0) in Hr as (Hlines & Hpos & _).
  pose proof (process_page_buckets_totals _ _ Hr0) as (Hv1 & Hv2 & Hv3 & Hv4).
  pose proof (process_page_horizontal_buckets_totals _ _ Hr1)
    as (Hh1 & Hh2 & Hh3 & Hh4).
  pose proof (process_page_horizontal_buckets_sums _ _ Hr1) as [Hs1 Hs2].
  pose proof (process_page_sums _ _ num_text_blocks (fun _ _ => eq_refl) Hr2) as Hk1.
  pose proof (process_page_sums _ _ num_vertical_buckets (fun _ _ => eq_refl) Hr2)
    as Hk2.
  destruct (process_page_result horizontal) as (reordered & _ & Hperm & Hproc).
  rewrite Hproc in Hr2. injection Hr2 as <-. simpl in *.
  rewrite length_imap, (Permutation_length Hperm).
  assert (length (Stage5.calculate_block_metrics
                    (Stage4.scale_coordinates_to_original
                       (Py.sorted mid_y_x
                          (flat_map (Stage4.filtered_blocks min_confidence) quadrants))))
          = length (Pipeline.surviving quadrants min_confidence)) as Hsurv.
  { unfold Stage5.calculate_block_metrics, Stage4.scale_coordinates_to_original.
    rewrite metrics_from_length, length_map.
    apply Permutation_length, sorted_Permutation. }
  rewrite Hsurv in Hlines, Hpos.
  repeat (split; [lia|]).
  assert (length (Stage8.horizontal_buckets horizontal) = 0
          -> Stage8.total_text_blocks horizontal = 0) as Hzero.
  { intros Hl. rewrite <- Hs1.
    by destruct (Stage8.horizontal_buckets horizontal). }
  pose proof (Permutation_length Hperm) as Hlen.
  split.
  - intros He. apply (f_equal length) in He. rewrite length_imap in He. simpl in He.
    destruct (Pipeline.surviving quadrants min_confidence); [done|]. simpl in *. lia.
  - intros He. rewrite He in Hlines. simpl in Hlines.
    destruct reordered; [done|]. simpl in Hlen. lia.
Qed.

Lemma pipeline_counts_witness :
  exists page,
    Pipeline.run_counted Examples.hello_page Stage4.default_min_confidence
    = Ok (page, 1)
    /\ Stage8.total_text_blocks page + 1
       = length (Pipeline.surviving Examples.hello_page Stage4.default_min_confidence)
    /\ Stage8.total_horizontal_buckets page <= Stage8.total_vertical_buckets page.
Proof.
  eexists. split; [vm_compute; reflexivity|].
  match goal with
  | |- Stage8.total_text_blocks ?p + _ = _ /\ _ =>
      destruct (pipeline_counts Examples.hello_page Stage4.default_min_confidence p 1)
        as (H1 & _ & H3 & _)
  end.
  - vm_compute. reflexivity.
  - split; [exact H1|exact H3].
Defined.

Section RunBoxes.

Lemma run_counted_percent quadrants min_confidence page merges :
  Pipeline.run_counted quadrants min_confidence = Ok (page, merges) ->
  Forall (Box.inside 5100 6600) (Pipeline.surviving quadrants min_confidence) ->
  Forall Box.percent (Stage8.horizontal_buckets page).
Proof.
  unfold Pipeline.run_counted. intros H Hin.
  inv_bind H. destruct r as [lines n]. simpl in H.
  inv_bind H. rename r into vertical. inv_bind H. rename r into horizontal.
  inv_bind H. rename r into stacked. injection H as <- <-.
  apply (process_page_percent _ _ Hr2).
  apply (process_page_horizontal_buckets_percent _ _ Hr1).
  apply (process_page_buckets_inside _ _ _ _ Hr0).
  apply (merge_horizontal_counted_facts 2550 3300) in Hr as (_ & _ & Hkeep).
  apply Hkeep. simpl.
  apply metrics_from_inside, Forall_map.
  apply (Forall_sorted mid_y_x) in Hin.
  eapply Forall_impl; [exact Hin|]. intros b. apply (scale_block_inside 2550 3300).
Qed.

Lemma run_counted_of_run quadrants min_confidence page :
  Pipeline.run quadrants min_confidence = Ok page ->
  exists merges, Pipeline.run_counted quadrants min_confidence = Ok (page, merges).
Proof.
  unfold Pipeline.run. intros H. inv_bind H. injection H as <-.
  destruct r as [page merges]. by exists merges.
Qed.

End RunBoxes.

(** X21.  The normalised edges are percentages on the reference canvas.
    Stage 3 places the four tiles of a page on a canvas of 5100 by 6600
    pixels.  When the box of every fragment that passes the confidence
    filter is well formed and lies on that canvas, every Segment that the
    pipeline returns has [0 <= left_edge <= right_edge <= 100] and
    [0 <= top_edge <= bottom_edge <= 100]. *)
Theorem pipeline_edges_are_percentages
    (quadrants : list Quadrant) (min_confidence : Q)
    (page : Stage8.HorizontalBucketPage) :
  Pipeline.run quadrants min_confidence = Ok page ->
  Forall (Box.inside 5100 6600) (Pipeline.surviving quadrants min_confidence) ->
  Forall Box.percent (Stage8.horizontal_buckets page).
Proof.
  intros H Hin. apply run_counted_of_run in H as [merges H].
  by apply (run_counted_percent _ _ _ _ H).
Qed.

Lemma pipeline_edges_are_percentages_witness :
  exists page,
    Pipeline.run Examples.hello_page Stage4.default_min_confidence = Ok page
    /\ Forall Box.percent (Stage8.horizontal_buckets page).
Proof.
  eexists. split; [vm_compute; reflexivity|].
  match goal with
  | |- Forall Box.percent (Stage8.horizontal_buckets ?p) =>
      apply (pipeline_edges_are_percentages Examples.hello_page
               Stage4.default_min_confidence p)
  end.
  - vm_compute. reflexivity.
  - repeat constructor; vm_compute; discriminate.
Defined.

(* ===================================================================== *)
(** ** The tests on Lines that overlap or are swapped *)
(* ===================================================================== *)

Section TestFacts.

Lemma round_nonneg (q : Q) : (0 <= q)%Q -> (0 <= Py.round q)%Z.
Proof.
  intros H. rewrite <- (round_inject_Z 0). by apply round_mono.
Qed.

Lemma div_nonneg (a b : Z) : (0 <= a)%Z -> (0 < b)%Z -> (0 <= Py.div a b)%Q.
Proof.
  intros Ha Hb. unfold Py.div, Qle, Qdiv, Qmult, Qinv, inject_Z. simpl.
  destruct b as [|p|p]; try lia. simpl. lia.
Qed.

(** After stage 5 the character width that the merge test uses is
    positive on every Line with a well-formed box. *)
Lemma char_width_or_positive (fallback : Z) (prev : option Block) (b : Block) :
  (0 < fallback)%Z -> (start_x b <= end_x b)%Z ->
  (0 < Stage6.char_width_or fallback (Stage5.block_metrics prev b))%Z.
Proof.
  intros Hf Hb. unfold Stage6.char_width_or, Stage5.block_metrics. simpl.
  destruct (Z.ltb_spec 0 (char_count b)) as [Hc|Hc]; [|done].
  pose proof (round_nonneg _ (div_nonneg (end_x b - start_x b) (char_count b)
                                ltac:(lia) Hc)) as Hr.
  destruct (Z.eqb_spec (Py.round (Py.div (end_x b - start_x b) (char_count b))) 0);
    lia.
Qed.

Lemma Qltb_true (a b : Q) : (a < b)%Q -> Py.Qltb a b = true.
Proof. intros H. by apply Qltb_lt. Qed.

Lemma Qleb_false (a b : Q) : (b < a)%Q -> Py.Qleb a b = false.
Proof. intros H. by apply Qleb_gt. Qed.

Lemma inject_Z_pos (z : Z) : (0 < z)%Z -> (0 < inject_Z z)%Q.
Proof. intros H. change 0%Q with (inject_Z 0). by rewrite <- Zlt_Qlt. Qed.

Lemma inject_Z_nonpos_lt (g : Z) (t : Q) :
  (g <= 0)%Z -> (0 < t)%Q -> (inject_Z g < t)%Q.
Proof.
  intros Hg Ht. apply (Qle_lt_trans _ 0); [|done].
  change 0%Q with (inject_Z 0). by rewrite <- Zle_Qle.
Qed.

End TestFacts.

(** X22.  Two Lines of stage 5 with well-formed boxes, the same [mid_y]
    and boxes that touch or overlap horizontally (gap [<= 0]) always pass
    the merge test, with the adaptive thresholds of any page and without
    thresholds: the tolerances of stage 5 are positive, and so is the
    character width of a Line with a well-formed box. *)
Theorem overlapping_lines_merge
    (page_blocks : list Block) (prev_a prev_b : option Block) (a b : Block) :
  (start_x a <= end_x a)%Z -> (start_x b <= end_x b)%Z ->
  mid_y a = mid_y b ->
  (Stage6.horizontal_gap a b <= 0)%Z ->
  Stage6.should_merge_blocks (Stage5.block_metrics prev_a a)
    (Stage5.block_metrics prev_b b)
    (Some (Stage5.calculate_adaptive_thresholds page_blocks))
  = (true, Some (Stage6.horizontal_gap a b))
  /\ Stage6.should_merge_blocks (Stage5.block_metrics prev_a a)
       (Stage5.block_metrics prev_b b) None
     = (true, Some (Stage6.horizontal_gap a b)).
Proof.
  intros Ha Hb Hy Hg.
  pose proof (adaptive_thresholds_positive_vertical page_blocks) as Hv.
  pose proof (char_width_or_positive 36 prev_a a ltac:(lia) Ha) as Ha36.
  pose proof (char_width_or_positive 36 prev_b b ltac:(lia) Hb) as Hb36.
  pose proof (char_width_or_positive 50 prev_a a ltac:(lia) Ha) as Ha50.
  pose proof (char_width_or_positive 50 prev_b b ltac:(lia) Hb) as Hb50.
  unfold Stage6.should_merge_blocks.
  change (mid_y (Stage5.block_metrics prev_a a)) with (mid_y a).
  change (mid_y (Stage5.block_metrics prev_b b)) with (mid_y b).
  change (Stage6.horizontal_gap (Stage5.block_metrics prev_a a)
            (Stage5.block_metrics prev_b b)) with (Stage6.horizontal_gap a b).
  rewrite Hy, Z.sub_diag. simpl Z.abs.
  split.
  - rewrite Qleb_false by done.
    rewrite Qltb_true; [done|].
    apply inject_Z_nonpos_lt; [done|].
    apply Qmult_lt_0_compat; [|done].
    unfold Py.div. apply Qlt_shift_div_l; [done|]. rewrite Qmult_0_l.
    apply inject_Z_pos. lia.
  - rewrite Qleb_false by (apply inject_Z_pos; lia).
    rewrite Qltb_true; [done|].
    apply inject_Z_nonpos_lt; [done|]. apply inject_Z_pos. lia.
Qed.

Lemma overlapping_lines_merge_witness :
  (Stage6.should_merge_blocks
     (Stage5.block_metrics None (Examples.ocr_block "over" 1 100 300 100 140 (9 # 10)))
     (Stage5.block_metrics None (Examples.ocr_block "lap" 1 250 400 100 140 (9 # 10)))
     (Some (Stage5.calculate_adaptive_thresholds []))).1 = true.
Proof.
  destruct (overlapping_lines_merge [] None None
              (Examples.ocr_block "over" 1 100 300 100 140 (9 # 10))
              (Examples.ocr_block "lap" 1 250 400 100 140 (9 # 10))) as [H _].
  - vm_compute. discriminate.
  - vm_compute. discriminate.
  - vm_compute. reflexivity.
  - vm_compute. discriminate.
  - by rewrite H.
Defined.

(** X23.  The membership test of the Block Builder does not depend on
    which of the two Lines is the last Line of the Block: it gives the
    same verdict, or raises the same exception, when the two Lines are
    swapped, with and without adaptive thresholds.  With positive
    tolerances a Line passes the test against itself. *)
Theorem bucket_test_symmetric (a b : Block) (thresholds : option Thresholds) :
  Stage7.should_add_to_bucket a b thresholds
  = Stage7.should_add_to_bucket b a thresholds
  /\ (forall th,
        (0 < vertical_bucket_tolerance th)%Q -> (0 < horizontal_bucket_tolerance th)%Q ->
        Stage7.should_add_to_bucket a a (Some th) = Ok true).
Proof.
  split.
  - unfold Stage7.should_add_to_bucket.
    assert (Stage7.bucket_thresholds a b thresholds
            = Stage7.bucket_thresholds b a thresholds) as ->.
    { unfold Stage7.bucket_thresholds. destruct thresholds as [th|]; [done|].
      destruct (character_width a) as [wa|], (character_width b) as [wb|]; simpl;
        try done.
      by rewrite (Z.min_comm (Stage7.positive_or_50 (height a))),
                 (Z.min_comm (Stage7.positive_or_50 wa)). }
    replace (Z.abs (mid_y b - mid_y a)) with (Z.abs (mid_y a - mid_y b)) by lia.
    replace (Z.abs (start_x b - start_x a)) with (Z.abs (start_x a - start_x b)) by lia.
    replace (Z.abs (mid_x b - mid_x a)) with (Z.abs (mid_x a - mid_x b)) by lia.
    replace (Z.abs (end_x b - end_x a)) with (Z.abs (end_x a - end_x b)) by lia.
    done.
  - intros th Hv Hh. unfold Stage7.should_add_to_bucket. simpl.
    rewrite !Z.sub_diag. simpl Z.abs.
    rewrite Qleb_false by done.
    rewrite Qltb_true; [done|]. apply Qmult_lt_0_compat; [done|done].
Qed.

(* ===================================================================== *)
(** ** Stage 3: the detections *)
(* ===================================================================== *)

Section DetectionFacts.

Lemma py_int_range (q : Q) (w : Z) :
  (0 <= q)%Q -> (q <= inject_Z w)%Q -> (0 <= Stage3.py_int q <= w)%Z.
Proof.
  intros H0 Hw. unfold Stage3.py_int.
  assert (Py.Qltb q 0 = false) as -> by by apply Qltb_ge.
  split.
  - rewrite <- (Qfloor_Z 0). by apply Qfloor_resp_le.
  - rewrite <- (Qfloor_Z w). by apply Qfloor_resp_le.
Qed.

Lemma half_between (a b : Z) :
  (a <= b)%Z -> (a <= Py.round (Py.div (a + b) 2) <= b)%Z.
Proof.
  intros H. apply round_between;
    unfold Py.div, Qle, Qdiv, Qmult, Qinv, inject_Z; simpl; lia.
Qed.

Lemma format_detection_result (p : Q * Q) (bbox : list (Q * Q)) (t : string)
    (words : Z) (conf : Q) :
  exists b,
    Stage3.format_detection (p :: bbox) t words conf = Ok b
    /\ text b = t /\ confidence b = conf
    /\ Box.ordered b /\ Box.keyed b /\ Box.counted b
    /\ height b = (end_y b - start_y b)%Z
    /\ (start_x b <= mid_x b <= end_x b)%Z
    /\ (start_y b <= mid_y b <= end_y b)%Z
    /\ (exists c, c ∈ p :: bbox /\ Stage3.py_int c.1 = start_x b)
    /\ (exists c, c ∈ p :: bbox /\ Stage3.py_int c.1 = end_x b)
    /\ (exists c, c ∈ p :: bbox /\ Stage3.py_int c.2 = start_y b)
    /\ (exists c, c ∈ p :: bbox /\ Stage3.py_int c.2 = end_y b).
Proof.
  unfold Stage3.format_detection.
  set (f := fun c : Q * Q => (Stage3.py_int c.1, Stage3.py_int c.2)).
  set (clean := map f (p :: bbox)).
  assert (clean <> []) as Hne by done.
  assert (forall z : Z * Z, z ∈ clean -> exists c, c ∈ p :: bbox /\ z = f c) as Hback.
  { intros z Hz. change clean with (f <$> (p :: bbox)) in Hz.
    apply list_elem_of_fmap in Hz as (c & -> & Hc). by exists c. }
  destruct (min_Z_is_Some fst clean Hne) as [sx Esx].
  destruct (max_Z_is_Some fst clean Hne) as [ex Eex].
  destruct (min_Z_is_Some snd clean Hne) as [sy Esy].
  destruct (max_Z_is_Some snd clean Hne) as [ey Eey].
  rewrite Esx, Eex, Esy, Eey. simpl.
  apply min_Z_spec in Esx as [Hsx (c1 & Hc1 & E1)], Esy as [Hsy (c3 & Hc3 & E3)].
  apply max_Z_spec in Eex as [Hex (c2 & Hc2 & E2)], Eey as [Hey (c4 & Hc4 & E4)].
  rewrite Forall_forall in Hsx, Hex, Hsy, Hey.
  assert (sx <= ex)%Z as Hx by (specialize (Hsx c1 Hc1); specialize (Hex c1 Hc1); lia).
  assert (sy <= ey)%Z as Hy by (specialize (Hsy c3 Hc3); specialize (Hey c3 Hc3); lia).
  destruct (Hback _ Hc1) as (d1 & Hd1 & ->). destruct (Hback _ Hc2) as (d2 & Hd2 & ->).
  destruct (Hback _ Hc3) as (d3 & Hd3 & ->). destruct (Hback _ Hc4) as (d4 & Hd4 & ->).
  eexists. split; [done|]. simpl.
  split; [done|]. split; [done|]. split; [done|]. split; [done|]. split; [done|].
  split; [done|]. split; [apply (half_between _ _ Hx)|].
  split; [apply (half_between _ _ Hy)|].
  split; [by exists d1|]. split; [by exists d2|]. split; [by exists d3|by exists d4].
Qed.

End DetectionFacts.

(** X24.  Every block that stage 3 builds from a detection is well
    formed: the reader's bounding box must have at least one point
    (otherwise [min] raises [ValueError]); the box of the block is the
    bounding box of the points truncated to integers, so [start <= end]
    on both axes; the centre lies within the box; [height] is
    [end_y - start_y]; [char_count] is the length of the text; and the
    sort key is [mid_y + start_x / 50].  When the points lie on a tile of
    [w] by [h] pixels, so does the box. *)
Theorem detections_are_well_formed (t : string) (words : Z) (conf : Q) :
  Stage3.format_detection [] t words conf = Raise ValueError
  /\ (forall p bbox, exists b,
        Stage3.format_detection (p :: bbox) t words conf = Ok b
        /\ text b = t /\ confidence b = conf
        /\ Box.ordered b /\ Box.keyed b /\ Box.counted b
        /\ height b = (end_y b - start_y b)%Z
        /\ (start_x b <= mid_x b <= end_x b)%Z
        /\ (start_y b <= mid_y b <= end_y b)%Z
        /\ (forall w h,
              Forall (fun c => (0 <= c.1)%Q /\ (c.1 <= inject_Z w)%Q
                               /\ (0 <= c.2)%Q /\ (c.2 <= inject_Z h)%Q) (p :: bbox) ->
              Box.inside w h b)).
Proof.
  split; [done|]. intros p bbox.
  destruct (format_detection_result p bbox t words conf)
    as (b & Hb & Ht & Hc & Ho & Hk & Hn & Hh & Hmx & Hmy
        & (c1 & H1 & E1) & (c2 & H2 & E2) & (c3 & H3 & E3) & (c4 & H4 & E4)).
  exists b. repeat (split; [done|]).
  intros w h Hin. destruct Ho as [Hox Hoy].
  rewrite Forall_forall in Hin.
  destruct (Hin _ H1) as (A1 & B1 & _ & _). destruct (Hin _ H2) as (A2 & B2 & _ & _).
  destruct (Hin _ H3) as (_ & _ & A3 & B3). destruct (Hin _ H4) as (_ & _ & A4 & B4).
  pose proof (py_int_range _ _ A1 B1). pose proof (py_int_range _ _ A2 B2).
  pose proof (py_int_range _ _ A3 B3). pose proof (py_int_range _ _ A4 B4).
  unfold Box.inside. lia.
Qed.

(* ===================================================================== *)
(** ** Stage 3: the tiles on the canvas *)
(* ===================================================================== *)

Section GridFacts.

Lemma shift_bounds_returns {A} (f g : A -> Z) (l : list A) (w : Z) :
  exists r, Stage3.shift_bounds w (Py.min_Z (map f l)) (Py.max_Z (map g l)) = Ok r.
Proof. destruct l; simpl; by eexists. Qed.

Lemma shift_x_text (w : Z) (l : list Block) :
  map text (map (Stage3.shift_x w) l) = map text l.
Proof. by rewrite map_map. Qed.

Lemma shift_y_text (h : Z) (l : list Block) :
  map text (map (Stage3.shift_y h) l) = map text l.
Proof. by rewrite map_map. Qed.

(** The four names exclude each other. *)
Lemma name_in_left_right (name : string) :
  Stage3.name_in name ["top_left"; "bottom_left"]%string = true ->
  Stage3.name_in name ["top_right"; "bottom_right"]%string = false.
Proof.
  unfold Stage3.name_in. simpl.
  destruct (String.eqb_spec name "top_left") as [->|]; [done|].
  destruct (String.eqb_spec name "bottom_left") as [->|]; done.
Qed.

Lemma name_in_top_bottom (name : string) :
  Stage3.name_in name ["top_left"; "top_right"]%string = true ->
  Stage3.name_in name ["bottom_left"; "bottom_right"]%string = false.
Proof.
  unfold Stage3.name_in. simpl.
  destruct (String.eqb_spec name "top_left") as [->|]; [done|].
  destruct (String.eqb_spec name "top_right") as [->|]; done.
Qed.

(** One tile: the loop body returns, with the widths it remembers and
    the shifts it applies. *)
Lemma place_quadrant_result (st : Stage3.GridState) (q : Stage3.QuadrantScan) :
  exists r,
    Stage3.place_quadrant st q
    = Ok (Stage3.mkGridState
            (if Stage3.name_in (Stage3.scan_name q) ["top_left"; "bottom_left"]%string
             then Some (Stage3.width_px q) else Stage3.left_quadrant_width st)
            (if Stage3.name_in (Stage3.scan_name q) ["top_left"; "top_right"]%string
             then Some (Stage3.height_px q) else Stage3.top_quadrant_height st)
            (Stage3.placed st ++ [r]))
    /\ Stage3.qr_name r = Stage3.scan_name q
    /\ Stage3.qr_blocks r
       = (match Stage3.name_in (Stage3.scan_name q)
                  ["bottom_left"; "bottom_right"]%string,
                Stage3.truthy
                  (if Stage3.name_in (Stage3.scan_name q)
                        ["top_left"; "top_right"]%string
                   then Some (Stage3.height_px q)
                   else Stage3.top_quadrant_height st) with
          | true, Some h => map (Stage3.shift_y h)
          | _, _ => fun l => l
          end)
           ((match Stage3.name_in (Stage3.scan_name q)
                     ["top_right"; "bottom_right"]%string,
                   Stage3.truthy
                     (if Stage3.name_in (Stage3.scan_name q)
                           ["top_left"; "bottom_left"]%string
                      then Some (Stage3.width_px q)
                      else Stage3.left_quadrant_width st) with
             | true, Some w => map (Stage3.shift_x w)
             | _, _ => fun l => l
             end) (Stage3.ocr_blocks q)).
Proof.
  unfold Stage3.place_quadrant.
  set (lw := if Stage3.name_in _ ["top_left"; "bottom_left"]%string then _ else _).
  set (th := if Stage3.name_in _ ["top_left"; "top_right"]%string then _ else _).
  destruct (Stage3.name_in _ ["top_right"; "bottom_right"]%string);
    destruct (Stage3.truthy lw) as [w|];
    destruct (Stage3.name_in _ ["bottom_left"; "bottom_right"]%string);
    destruct (Stage3.truthy th) as [h|];
    unfold Stage3.adjust_right_quadrant_x_coordinates,
      Stage3.adjust_bottom_quadrant_y_coordinates; simpl;
    try (destruct (shift_bounds_returns start_x end_x (Stage3.ocr_blocks q) w)
          as [bx ->]; simpl);
    try (destruct (shift_bounds_returns start_y end_y (Stage3.ocr_blocks q) h)
          as [by_ ->]; simpl);
    by eexists.
Qed.

Lemma foldM_place_quadrant (qs : list Stage3.QuadrantScan) (st : Stage3.GridState) :
  exists st' rs,
    foldM Stage3.place_quadrant qs st = Ok st'
    /\ Stage3.placed st' = Stage3.placed st ++ rs
    /\ map Stage3.qr_name rs = map Stage3.scan_name qs
    /\ map (fun r => map text (Stage3.qr_blocks r)) rs
       = map (fun q => map text (Stage3.ocr_blocks q)) qs.
Proof.
  revert st. induction qs as [|q qs IH]; intros st; simpl.
  - exists st, []. by rewrite app_nil_r.
  - destruct (place_quadrant_result st q) as (r & -> & Hn & Hb). cbn [bind].
    match goal with |- context [foldM _ qs ?s] =>
      destruct (IH s) as (st' & rs & -> & Hp & Hns & Hts) end.
    exists st', (r :: rs). simpl in Hp. rewrite <- (assoc_L app) in Hp.
    split; [done|]. split; [done|]. simpl. rewrite Hn, Hns, Hts.
    split; [done|]. f_equal. rewrite Hb.
    repeat case_match; by rewrite ?shift_y_text, ?shift_x_text.
Qed.

(** The first tile of a page is never moved. *)
Lemma place_first_quadrant (q : Stage3.QuadrantScan) :
  exists r st,
    Stage3.place_quadrant (Stage3.mkGridState None None []) q = Ok st
    /\ Stage3.placed st = [r]
    /\ Stage3.qr_blocks r = Stage3.ocr_blocks q.
Proof.
  destruct (place_quadrant_result (Stage3.mkGridState None None []) q)
    as (r & -> & _ & Hb).
  exists r. eexists. split; [done|]. split; [done|]. rewrite Hb. clear Hb.
  cbn [Stage3.left_quadrant_width Stage3.top_quadrant_height].
  destruct (Stage3.name_in _ ["top_left"; "bottom_left"]%string) eqn:El;
    destruct (Stage3.name_in _ ["top_left"; "top_right"]%string) eqn:Et.
  - by rewrite (name_in_left_right _ El), (name_in_top_bottom _ Et).
  - rewrite (name_in_left_right _ El). cbn [Stage3.truthy].
    by destruct (Stage3.name_in _ ["bottom_left"; "bottom_right"]%string).
  - rewrite (name_in_top_bottom _ Et). cbn [Stage3.truthy].
    by destruct (Stage3.name_in _ ["top_right"; "bottom_right"]%string).
  - cbn [Stage3.truthy].
    by destruct (Stage3.name_in _ ["bottom_left"; "bottom_right"]%string),
                (Stage3.name_in _ ["top_right"; "bottom_right"]%string).
Qed.

Lemma place_quadrants_standard (tl tr bl br : Stage3.QuadrantScan) :
  Stage3.scan_name tl = "top_left"%string ->
  Stage3.scan_name tr = "top_right"%string ->
  Stage3.scan_name bl = "bottom_left"%string ->
  Stage3.scan_name br = "bottom_right"%string ->
  Stage3.width_px tl <> 0%Z -> Stage3.height_px tr <> 0%Z ->
  Stage3.width_px bl <> 0%Z ->
  exists out,
    Stage3.place_quadrants [tl; tr; bl; br] = Ok out
    /\ map Stage3.qr_name out
       = ["top_left"; "top_right"; "bottom_left"; "bottom_right"]%string
    /\ map Stage3.qr_blocks out
       = [ Stage3.ocr_blocks tl;
           map (Stage3.shift_x (Stage3.width_px tl)) (Stage3.ocr_blocks tr);
           map (Stage3.shift_y (Stage3.height_px tr)) (Stage3.ocr_blocks bl);
           map (Stage3.shift_y (Stage3.height_px tr))
             (map (Stage3.shift_x (Stage3.width_px bl)) (Stage3.ocr_blocks br)) ].
Proof.
  intros Ntl Ntr Nbl Nbr Wtl Htr Wbl.
  apply Z.eqb_neq in Wtl, Htr, Wbl.
  unfold Stage3.place_quadrants. cbn [foldM].
  destruct (place_quadrant_result (Stage3.mkGridState None None []) tl)
    as (r1 & -> & N1 & B1).
  rewrite Ntl in *. cbn in B1 |- *.
  match goal with |- context [Stage3.place_quadrant ?st tr] =>
    destruct (place_quadrant_result st tr) as (r2 & -> & N2 & B2) end.
  rewrite Ntr in *. cbn in B2 |- *. rewrite Wtl in B2.
  match goal with |- context [Stage3.place_quadrant ?st bl] =>
    destruct (place_quadrant_result st bl) as (r3 & -> & N3 & B3) end.
  rewrite Nbl in *. cbn in B3 |- *. rewrite Htr in B3.
  match goal with |- context [Stage3.place_quadrant ?st br] =>
    destruct (place_quadrant_result st br) as (r4 & -> & N4 & B4) end.
  rewrite Nbr in *. cbn in B4 |- *. rewrite Htr, Wbl in B4.
  eexists. split; [done|]. cbn. rewrite N1, N2, N3, N4, B1, B2, B3, B4. done.
Qed.

End GridFacts.

Section CanvasFacts.

Lemma inside_widen (w h w' h' : Z) (b : Block) :
  (w <= w')%Z -> (h <= h')%Z -> Box.inside w h b -> Box.inside w' h' b.
Proof. unfold Box.inside. lia. Qed.

Lemma shift_x_inside (w h d : Z) (b : Block) :
  (0 <= d)%Z -> Box.inside w h b -> Box.inside (w + d) h (Stage3.shift_x d b).
Proof. unfold Box.inside. simpl. lia. Qed.

Lemma shift_y_inside (w h d : Z) (b : Block) :
  (0 <= d)%Z -> Box.inside w h b -> Box.inside w (h + d) (Stage3.shift_y d b).
Proof. unfold Box.inside. simpl. lia. Qed.

Lemma surviving_inside (w h : Z) (quadrants : list Quadrant) (c : Q) :
  Forall (Box.inside w h) (flat_map quadrant_blocks quadrants) ->
  Forall (Box.inside w h) (Pipeline.surviving quadrants c).
Proof.
  unfold Pipeline.surviving. induction quadrants as [|q qs IH]; simpl; [done|].
  intros H. apply Forall_app in H as [Hq Hqs]. apply Forall_app. split; [|by apply IH].
  unfold Stage4.filtered_blocks. apply Forall_forall. intros b Hb.
  apply list_elem_of_filter in Hb as [_ Hb].
  apply list_elem_of_fmap in Hb as (b0 & -> & Hb0).
  rewrite Forall_forall in Hq. by apply (Hq b0).
Qed.

End CanvasFacts.

(** X25.  The four tiles of a page in the order of stage 2 (top left,
    top right, bottom left, bottom right).  The blocks of the top-left
    tile stay where they are; those of the top-right tile are shifted
    right by the width of the top-left tile; those of the bottom-left
    tile are shifted down by the height of the top-right tile (the last
    top tile seen); those of the bottom-right tile are shifted right by
    the width of the bottom-left tile and down by the height of the
    top-right tile.  Each shift recomputes the sort key. *)
Theorem tiles_in_standard_order (tl tr bl br : Stage3.QuadrantScan) :
  Stage3.scan_name tl = "top_left"%string ->
  Stage3.scan_name tr = "top_right"%string ->
  Stage3.scan_name bl = "bottom_left"%string ->
  Stage3.scan_name br = "bottom_right"%string ->
  Stage3.width_px tl <> 0%Z -> Stage3.height_px tr <> 0%Z ->
  Stage3.width_px bl <> 0%Z ->
  exists out,
    Stage3.place_quadrants [tl; tr; bl; br] = Ok out
    /\ map Stage3.qr_name out
       = ["top_left"; "top_right"; "bottom_left"; "bottom_right"]%string
    /\ map Stage3.qr_blocks out
       = [ Stage3.ocr_blocks tl;
           map (Stage3.shift_x (Stage3.width_px tl)) (Stage3.ocr_blocks tr);
           map (Stage3.shift_y (Stage3.height_px tr)) (Stage3.ocr_blocks bl);
           map (Stage3.shift_y (Stage3.height_px tr))
             (map (Stage3.shift_x (Stage3.width_px bl)) (Stage3.ocr_blocks br)) ]
    /\ (forall d b, Box.keyed (Stage3.shift_x d b) /\ Box.keyed (Stage3.shift_y d b)).
Proof.
  intros Ntl Ntr Nbl Nbr Wtl Htr Wbl.
  destruct (place_quadrants_standard tl tr bl br Ntl Ntr Nbl Nbr Wtl Htr Wbl)
    as (out & Ho & Hn & Hb).
  exists out. split; [done|]. split; [done|]. split; [done|].
  intros d b. unfold Box.keyed. simpl. split; reflexivity.
Qed.

Lemma tiles_in_standard_order_witness :
  exists out,
    Stage3.place_quadrants Cases.scanned_page = Ok out
    /\ map (fun r => map start_x (Stage3.qr_blocks r)) out
       = [[]; [2650%Z]; []; [2650%Z]]
    /\ map (fun r => map start_y (Stage3.qr_blocks r)) out
       = [[]; [200%Z]; []; [3500%Z]].
Proof.
  destruct (tiles_in_standard_order (Cases.empty_tile "top_left") Cases.north_east
              (Cases.empty_tile "bottom_left") Cases.south_east)
    as (out & Ho & _ & Hb & _); try reflexivity; try discriminate.
  exists out. split; [exact Ho|].
  rewrite <- !(map_map Stage3.qr_blocks), Hb.
  split; vm_compute; reflexivity.
Defined.

(** X26.  The loop over the tiles of a page never raises.  It returns
    one result for each tile, in the order of the input, with the name
    and the texts of the tile.  The first tile of the list is never
    moved, whatever its name: a right or bottom tile is only shifted by
    the size of a left or top tile that was processed before it. *)
Theorem tiles_are_kept (quadrants : list Stage3.QuadrantScan) :
  exists out,
    Stage3.place_quadrants quadrants = Ok out
    /\ map Stage3.qr_name out = map Stage3.scan_name quadrants
    /\ map (fun r => map text (Stage3.qr_blocks r)) out
       = map (fun q => map text (Stage3.ocr_blocks q)) quadrants
    /\ head (map Stage3.qr_blocks out) = head (map Stage3.ocr_blocks quadrants).
Proof.
  unfold Stage3.place_quadrants.
  destruct (foldM_place_quadrant quadrants (Stage3.mkGridState None None []))
    as (st' & rs & Hf & Hp & Hn & Ht).
  rewrite Hf. cbn [bind]. exists (Stage3.placed st'). split; [done|].
  simpl in Hp. rewrite Hp. repeat (split; [done|]).
  destruct quadrants as [|q qs]; [by destruct rs|].
  destruct (place_first_quadrant q) as (r & st & Hq & Hr & Hb).
  cbn [foldM] in Hf. rewrite Hq in Hf. cbn [bind] in Hf.
  destruct (foldM_place_quadrant qs st) as (st2 & rs2 & Hf2 & Hp2 & _).
  rewrite Hf2 in Hf. injection Hf as <-. rewrite Hr in Hp2.
  rewrite Hp in Hp2. rewrite Hp2. simpl. by rewrite Hb.
Qed.

(** X27.  From the detections to the percentages.  Take the four tiles
    of a page in the order of stage 2, each 2550 by 3300 pixels, with the
    box of every detection on its tile.  Then stage 3 places every box on
    the canvas of 5100 by 6600 pixels, and every Segment that stages 4 to
    9 return for the page has its four edges between 0 and 100, left
    before right and top before bottom. *)
Theorem scanned_page_edges_are_percentages
    (tl tr bl br : Stage3.QuadrantScan) (min_confidence : Q)
    (out : list Stage3.QuadrantResult) (page : Stage8.HorizontalBucketPage) :
  Stage3.scan_name tl = "top_left"%string ->
  Stage3.scan_name tr = "top_right"%string ->
  Stage3.scan_name bl = "bottom_left"%string ->
  Stage3.scan_name br = "bottom_right"%string ->
  Forall (fun q => Stage3.width_px q = 2550%Z /\ Stage3.height_px q = 3300%Z
                   /\ Forall (Box.inside 2550 3300) (Stage3.ocr_blocks q))
    [tl; tr; bl; br] ->
  Stage3.place_quadrants [tl; tr; bl; br] = Ok out ->
  Pipeline.run (map Stage3.to_quadrant out) min_confidence = Ok page ->
  Forall (Box.inside 5100 6600) (flat_map Stage3.qr_blocks out)
  /\ Forall Box.percent (Stage8.horizontal_buckets page).
Proof.
  intros Ntl Ntr Nbl Nbr Hsize Hplace Hrun.
  inversion_clear Hsize as [|? ? (Wtl & Htl & Itl) Hs1].
  inversion_clear Hs1 as [|? ? (Wtr & Htr & Itr) Hs2].
  inversion_clear Hs2 as [|? ? (Wbl & Hbl & Ibl) Hs3].
  inversion_clear Hs3 as [|? ? (Wbr & Hbr & Ibr) _].
  destruct (place_quadrants_standard tl tr bl br Ntl Ntr Nbl Nbr)
    as (out' & Ho & _ & Hb); [lia..|].
  rewrite Hplace in Ho. injection Ho as <-.
  rewrite Wtl, Htr, Wbl in Hb.
  assert (Forall (Box.inside 5100 6600) (flat_map Stage3.qr_blocks out)) as Hin.
  { rewrite flat_map_concat_map, Hb. simpl. rewrite app_nil_r.
    apply Forall_app; split; [|apply Forall_app; split; [|apply Forall_app; split]].
    - eapply Forall_impl; [exact Itl|]. intros b. apply inside_widen; lia.
    - apply Forall_map. eapply Forall_impl; [exact Itr|]. intros b Hb'.
      apply (inside_widen (2550 + 2550) 3300); [lia..|]. by apply shift_x_inside.
    - apply Forall_map. eapply Forall_impl; [exact Ibl|]. intros b Hb'.
      apply (inside_widen 2550 (3300 + 3300)); [lia..|]. by apply shift_y_inside.
    - apply Forall_map, Forall_map. eapply Forall_impl; [exact Ibr|]. intros b Hb'.
      apply (shift_y_inside (2550 + 2550) 3300); [lia|]. by apply shift_x_inside. }
  split; [done|].
  apply run_counted_of_run in Hrun as [merges Hrun].
  apply (run_counted_percent _ _ _ _ Hrun).
  apply surviving_inside.
  by rewrite flat_map_concat_map, map_map, <- flat_map_concat_map.
Qed.

Lemma scanned_page_edges_are_percentages_witness :
  exists out page,
    Stage3.place_quadrants Cases.scanned_page = Ok out
    /\ Pipeline.run (map Stage3.to_quadrant out) Stage4.default_min_confidence = Ok page
    /\ Forall Box.percent (Stage8.horizontal_buckets page).
Proof.
  assert (Forall (fun q => Stage3.width_px q = 2550%Z /\ Stage3.height_px q = 3300%Z
                           /\ Forall (Box.inside 2550 3300) (Stage3.ocr_blocks q))
            Cases.scanned_page) as Hsize
    by (repeat constructor; vm_compute; discriminate).
  eexists. eexists. split; [vm_compute; reflexivity|].
  split; [vm_compute; reflexivity|].
  match goal with
  | |- Forall Box.percent (Stage8.horizontal_buckets ?p) =>
      let o := eval vm_compute in
                 (match Stage3.place_quadrants Cases.scanned_page with
                  | Ok o => o
                  | _ => []
                  end) in
      assert (Stage3.place_quadrants Cases.scanned_page = Ok o) as Hplace
        by (vm_compute; reflexivity);
      assert (Pipeline.run (map Stage3.to_quadrant o) Stage4.default_min_confidence
              = Ok p) as Hrun by (vm_compute; reflexivity);
      exact (proj2 (scanned_page_edges_are_percentages
                      (Cases.empty_tile "top_left") Cases.north_east
                      (Cases.empty_tile "bottom_left") Cases.south_east
                      Stage4.default_min_confidence o p
                      eq_refl eq_refl eq_refl eq_refl Hsize Hplace Hrun))
  end.
Defined.

(* ===================================================================== *)
(** ** Stage 10: the rows *)
(* ===================================================================== *)

Section SortedFacts.

Context {A : Type} (key : A -> Q).

(** An ascending list is ascending between any two positions. *)
Lemma ascending_lookup (l : list A) p q a b :
  Py.ascending key l = true -> p <= q ->
  l !! p = Some a -> l !! q = Some b -> (key a <= key b)%Q.
Proof.
  revert p q a. induction l as [|x l IH]; intros p q a Hasc Hpq Ha Hb; [done|].
  apply ascending_cons in Hasc as [Hhd Hl].
  destruct p as [|p].
  - injection Ha as <-. destruct q as [|q]; [injection Hb as <-; apply Qle_refl|].
    simpl in Hb. destruct l as [|y l]; [done|].
    inversion_clear Hhd as [|? ? Hxy _].
    apply (Qle_trans _ (key y)); [done|].
    by apply (IH 0 q y Hl); [lia| |].
  - destruct q as [|q]; [lia|]. simpl in Ha, Hb.
    apply (IH p q a Hl); [lia|done..].
Qed.

End SortedFacts.

Section RowFacts.

Variable tolerance : Z.
Hypothesis tolerance_nonneg : (0 <= tolerance)%Z.

Implicit Types (ys : list (nat * nat)) (l : list (nat * HBucket)).

Lemma paired_snoc ys l r x row item :
  length ys = length l ->
  Rows.paired (ys ++ [r]) (l ++ [x]) row item
  <-> Rows.paired ys l row item \/ (row = r /\ item = x).
Proof.
  intros Hlen. unfold Rows.paired. split.
  - intros (p & Hy & Hl). destruct (decide (p < length l)) as [Hp|Hp].
    + left. exists p. rewrite lookup_app_l in Hy by lia.
      by rewrite lookup_app_l in Hl by lia.
    + right. rewrite lookup_app_r in Hy by lia. rewrite lookup_app_r in Hl by lia.
      rewrite Hlen in Hy.
      destruct (p - length l) as [|n]; simpl in *; [|done].
      split; congruence.
  - intros [(p & Hy & Hl) | [-> ->]].
    + exists p. split; by apply lookup_app_l_Some.
    + exists (length l). split; [rewrite <- Hlen|]; by apply list_lookup_middle.
Qed.

Lemma paired_elem ys l row item :
  Rows.paired ys l row item -> row ∈ ys /\ item ∈ l.
Proof. intros (p & Hy & Hl). split; by eapply list_elem_of_lookup_2. Qed.

Lemma sorted_by_top_snoc l x :
  Rows.sorted_by_top (l ++ [x]) ->
  Rows.sorted_by_top l /\ forall it, it ∈ l -> (Rows.top_of it <= Rows.top_of x)%Z.
Proof.
  intros Hs. split.
  - intros p q a b Hpq Ha Hb.
    apply (Hs p q); [done|by apply lookup_app_l_Some..].
  - intros it Hit. apply list_elem_of_lookup in Hit as [p Hp].
    apply (Hs p (length l)); [|by apply lookup_app_l_Some|by apply list_lookup_middle].
    apply lookup_lt_Some in Hp. lia.
Qed.

Lemma assign_row_ok l st x :
  Rows.sorted_by_top (l ++ [x]) ->
  Rows.state_ok tolerance l st ->
  Rows.state_ok tolerance (l ++ [x]) (Stage10.assign_row tolerance st x).
Proof.
  intros Hs. destruct st as [[ys gid] anchor]. intros (HF & Hrows & Hcont & Hanchor).
  apply sorted_by_top_snoc in Hs as [_ Hx].
  pose proof (Forall2_length _ _ _ HF) as Hlen.
  unfold Stage10.assign_row. fold (Rows.top_of x).
  destruct anchor as [a|].
  - destruct Hanchor as [(it0 & Hit0 & Ea) Hall].
    assert (a <= Rows.top_of x)%Z as Hax by (rewrite <- Ea; by apply Hx).
    assert (l <> []) as Hne by (intros ->; by apply not_elem_of_nil in Hit0).
    destruct (Z.leb_spec (Z.abs (Rows.top_of x - a)) tolerance) as [Hclose|Hfar].
    + (* the Segment joins the current row *)
      split; [apply Forall2_app; [done|by constructor]|].
      split; [|split; [|split]].
      * intros r1 i1 r2 i2 H1 H2.
        apply (paired_snoc _ _ _ _ _ _ Hlen) in H1 as [H1|[-> ->]];
          apply (paired_snoc _ _ _ _ _ _ Hlen) in H2 as [H2|[-> ->]].
        -- by apply Hrows.
        -- destruct (Hall _ _ H1) as (? & ? & ?). simpl. split; lia.
        -- destruct (Hall _ _ H2) as (? & ? & ?). simpl. split; lia.
        -- simpl. split; lia.
      * intros g Hg _. destruct (Hcont g Hg Hne) as (row & item & Hp & Hrow).
        exists row, item. split; [|done]. apply paired_snoc; [done|]. by left.
      * exists it0. split; [|done]. apply elem_of_app. by left.
      * intros row item Hp.
        apply (paired_snoc _ _ _ _ _ _ Hlen) in Hp as [Hp|[-> ->]].
        -- by apply Hall.
        -- simpl. lia.
    + (* the Segment opens the next row *)
      split; [apply Forall2_app; [done|by constructor]|].
      split; [|split; [|split]].
      * intros r1 i1 r2 i2 H1 H2.
        apply (paired_snoc _ _ _ _ _ _ Hlen) in H1 as [H1|[-> ->]];
          apply (paired_snoc _ _ _ _ _ _ Hlen) in H2 as [H2|[-> ->]].
        -- by apply Hrows.
        -- destruct (Hall _ _ H1) as (? & ? & ?). simpl. split; lia.
        -- destruct (Hall _ _ H2) as (? & ? & ?). simpl. split; lia.
        -- simpl. split; lia.
      * intros g Hg _. destruct (decide (g = gid + 1)) as [->|Hng].
        -- exists (x.1, gid + 1), x. split; [|done]. apply paired_snoc; [done|].
           by right.
        -- destruct (Hcont g ltac:(lia) Hne) as (row & item & Hp & Hrow).
           exists row, item. split; [|done]. apply paired_snoc; [done|]. by left.
      * exists x. split; [|done]. apply elem_of_app. right. apply list_elem_of_here.
      * intros row item Hp.
        apply (paired_snoc _ _ _ _ _ _ Hlen) in Hp as [Hp|[-> ->]].
        -- destruct (Hall _ _ Hp) as (? & ? & ?). lia.
        -- simpl. lia.
  - destruct Hanchor as [-> ->]. apply Forall2_nil_inv_r in HF as ->.
    split; [by repeat constructor|]. split; [|split; [|split]].
    + intros r1 i1 r2 i2 H1 H2.
      apply (paired_snoc [] [] _ _ _ _ eq_refl) in H1 as [(? & ? & ?)|[-> ->]]; [done|].
      apply (paired_snoc [] [] _ _ _ _ eq_refl) in H2 as [(? & ? & ?)|[-> ->]]; [done|].
      simpl. split; lia.
    + intros g Hg _. exists (x.1, 0), x. split; [|simpl; lia].
      apply (paired_snoc [] []); [done|]. by right.
    + exists x. split; [apply list_elem_of_here|done].
    + intros row item Hp.
      apply (paired_snoc [] [] _ _ _ _ eq_refl) in Hp as [(? & ? & ?)|[-> ->]]; [done|].
      simpl. lia.
Qed.

Lemma fold_rows_ok l :
  Rows.sorted_by_top l ->
  Rows.state_ok tolerance l (fold_left (Stage10.assign_row tolerance) l ([], 0, None)).
Proof.
  induction l as [|x l IH] using rev_ind; intros Hs.
  - simpl. split; [constructor|]. split; [|split; [|done]].
    + intros r1 i1 r2 i2 (? & ? & ?). done.
    + intros g _ Hne. done.
  - rewrite fold_left_app. simpl. apply assign_row_ok; [done|].
    apply IH. by apply sorted_by_top_snoc in Hs as [? _].
Qed.

End RowFacts.

Section IndexFacts.

Lemma sorted_indices_elem (hbs : list HBucket) (item : nat * HBucket) :
  item ∈ Stage10.sorted_indices hbs <-> hbs !! item.1 = Some item.2.
Proof.
  unfold Stage10.sorted_indices. rewrite sorted_Permutation.
  rewrite elem_of_lookup_imap. split.
  - intros (i & b & -> & Hb). done.
  - intros H. exists item.1, item.2. split; [by destruct item|done].
Qed.

Lemma imap_pair_fst {A} (l : list A) : map fst (imap pair l) = seq 0 (length l).
Proof.
  apply list_eq. intros i. rewrite list_lookup_fmap, list_lookup_imap.
  destruct (l !! i) as [x|] eqn:Hi; simpl.
  - symmetry. apply lookup_seq. split; [done|]. by eapply lookup_lt_Some.
  - symmetry. apply lookup_seq_ge. by apply lookup_ge_None.
Qed.

Lemma sorted_indices_sorted (hbs : list HBucket) :
  Rows.sorted_by_top (Stage10.sorted_indices hbs).
Proof.
  intros p q a b Hpq Ha Hb. unfold Rows.top_of. rewrite Zle_Qle.
  apply (ascending_lookup (fun item : nat * HBucket => inject_Z (top_edge item.2))
           (Stage10.sorted_indices hbs) p q a b); [|done..].
  apply sorted_ascending.
Qed.

Lemma Forall2_fst_map ys (l : list (nat * HBucket)) :
  Forall2 (fun (row : nat * nat) item => row.1 = item.1) ys l ->
  map fst ys = map fst l.
Proof. induction 1 as [|? ? ? ? E _ IH]; simpl; [done|]. by rewrite E, IH. Qed.

End IndexFacts.

Section YGroups.

Lemma calculate_y_groups_state (hbs : list HBucket) (tolerance : Z) :
  (0 <= tolerance)%Z -> hbs <> [] ->
  exists gid anchor,
    Rows.state_ok tolerance (Stage10.sorted_indices hbs)
      (Stage10.calculate_y_groups hbs tolerance, gid, anchor).
Proof.
  intros Ht Hne.
  pose proof (fold_rows_ok tolerance Ht _ (sorted_indices_sorted hbs)) as Hok.
  unfold Stage10.calculate_y_groups. destruct hbs as [|b hbs]; [done|].
  destruct (fold_left _ _ _) as [[ys gid] anchor]. by exists gid, anchor.
Qed.

Lemma row_paired (hbs : list HBucket) ys i g b :
  Forall2 (fun (row : nat * nat) (item : nat * HBucket) => row.1 = item.1)
    ys (Stage10.sorted_indices hbs) ->
  (i, g) ∈ ys -> hbs !! i = Some b ->
  Rows.paired ys (Stage10.sorted_indices hbs) (i, g) (i, b).
Proof.
  intros HF Hin Hb. apply list_elem_of_lookup in Hin as [p Hp].
  destruct (Forall2_lookup_l _ _ _ _ _ HF Hp) as (item & Hitem & Ei).
  exists p. split; [done|]. rewrite Hitem. f_equal.
  assert (item ∈ Stage10.sorted_indices hbs) as Hi
    by by eapply list_elem_of_lookup_2.
  apply sorted_indices_elem in Hi. simpl in Ei. rewrite <- Ei in Hi.
  destruct item as [i' b']. simpl in *. congruence.
Qed.

Lemma rows_keys (hbs : list HBucket) (tolerance : Z) :
  (0 <= tolerance)%Z ->
  map fst (Stage10.calculate_y_groups hbs tolerance) ≡ₚ seq 0 (length hbs).
Proof.
  intros Ht. destruct (decide (hbs = [])) as [->|Hne]; [done|].
  destruct (calculate_y_groups_state hbs tolerance Ht Hne)
    as (gid & anchor & HF & _).
  rewrite (Forall2_fst_map _ _ HF). unfold Stage10.sorted_indices.
  rewrite <- (imap_pair_fst hbs).
  apply Permutation_map, sorted_Permutation.
Qed.

Lemma y_group_of_elem (ys : list (nat * nat)) i g :
  NoDup (map fst ys) -> (i, g) ∈ ys -> Stage10.y_group_of ys i = g.
Proof.
  intros Hnd Hin. unfold Stage10.y_group_of.
  destruct (list_find (fun item : nat * nat => item.1 = i) ys) as [[k x]|] eqn:Ef.
  - apply list_find_Some in Ef as (Hk & Ex & _).
    apply list_elem_of_lookup in Hin as [p Hp].
    assert (map fst ys !! k = Some i) as Hk1
      by (rewrite list_lookup_fmap, Hk; simpl; by rewrite Ex).
    assert (map fst ys !! p = Some i) as Hp1
      by (by rewrite list_lookup_fmap, Hp).
    assert (k = p) as -> by by eapply NoDup_lookup.
    rewrite Hk in Hp. by injection Hp as ->.
  - apply list_find_None in Ef. rewrite Forall_forall in Ef.
    by destruct (Ef _ Hin).
Qed.

End YGroups.

(** X28.  The rows of stage 10.  With a tolerance of at least 0,
    [calculate_y_groups] gives every Segment of the page exactly one row
    number, which is the one that [y_group_mapping.get(idx, 0)] reads.
    Two Segments with the same row number have [top_edge]s at most
    [tolerance] apart; a Segment with a smaller row number has a strictly
    smaller [top_edge] than one with a larger row number; and the row
    numbers in use are consecutive from 0. *)
Theorem y_groups_are_rows (horizontal_buckets : list HBucket) (tolerance : Z) :
  (0 <= tolerance)%Z ->
  map fst (Stage10.calculate_y_groups horizontal_buckets tolerance)
  ≡ₚ seq 0 (length horizontal_buckets)
  /\ (forall i g,
        (i, g) ∈ Stage10.calculate_y_groups horizontal_buckets tolerance ->
        Stage10.y_group_of
          (Stage10.calculate_y_groups horizontal_buckets tolerance) i = g)
  /\ (forall i j gi gj bi bj,
        (i, gi) ∈ Stage10.calculate_y_groups horizontal_buckets tolerance ->
        (j, gj) ∈ Stage10.calculate_y_groups horizontal_buckets tolerance ->
        horizontal_buckets !! i = Some bi -> horizontal_buckets !! j = Some bj ->
        (gi = gj -> (Z.abs (top_edge bi - top_edge bj) <= tolerance)%Z)
        /\ (gi < gj -> (top_edge bi < top_edge bj)%Z))
  /\ (forall i g g',
        (i, g) ∈ Stage10.calculate_y_groups horizontal_buckets tolerance ->
        g' <= g ->
        exists j, (j, g') ∈ Stage10.calculate_y_groups horizontal_buckets tolerance).
Proof.
  intros Ht. pose proof (rows_keys horizontal_buckets tolerance Ht) as Hkeys.
  split; [done|]. split.
  { intros i g. apply y_group_of_elem. rewrite Hkeys. apply NoDup_seq. }
  destruct (decide (horizontal_buckets = [])) as [->|Hne].
  { split; [intros i j gi gj bi bj Hi|intros i g g' Hi];
      by apply not_elem_of_nil in Hi. }
  destruct (calculate_y_groups_state horizontal_buckets tolerance Ht Hne)
    as (gid & anchor & HF & Hrows & Hcont & Hanchor).
  split.
  - intros i j gi gj bi bj Hi Hj Hbi Hbj.
    apply (Hrows (i, gi) (i, bi) (j, gj) (j, bj)); by apply row_paired.
  - intros i g g' Hi Hg.
    assert (Stage10.sorted_indices horizontal_buckets <> []) as Hne'.
    { intros He. rewrite He in HF. apply Forall2_nil_inv_r in HF.
      rewrite HF in Hi. by apply not_elem_of_nil in Hi. }
    destruct anchor as [a|]; [|by destruct Hanchor].
    destruct Hanchor as [_ Hall].
    apply list_elem_of_lookup in Hi as [p Hp].
    destruct (Forall2_lookup_l _ _ _ _ _ HF Hp) as (item & Hitem & _).
    destruct (Hall (i, g) item) as (Hle & _); [by exists p|]. simpl in Hle.
    destruct (Hcont g' ltac:(lia) Hne') as (row & it & Hpair & Hrow).
    exists row.1. apply paired_elem in Hpair as [Hin _].
    destruct row as [j gj]. simpl in *. by rewrite <- Hrow.
Qed.

Lemma y_groups_are_rows_witness :
  Stage10.calculate_y_groups Cases.three_rows Stage10.default_tolerance
  = [(0, 0); (1, 0); (2, 1)]
  /\ map fst (Stage10.calculate_y_groups Cases.three_rows Stage10.default_tolerance)
     ≡ₚ seq 0 3.
Proof.
  split; [vm_compute; reflexivity|].
  apply (y_groups_are_rows Cases.three_rows Stage10.default_tolerance).
  vm_compute. discriminate.
Defined.

(** X29.  The two categories that stage 10 derives from the edges of a
    Segment are not independent: on edges that are percentages
    ([0 <= left_edge <= right_edge <= 100], as stage 8 gives them on the
    reference page) a Segment of width category [wide] always has the
    position [center], so a Segment at position [left] or [right] is
    [narrow] or [medium]. *)
Theorem wide_segments_are_centred (s : HBucket) :
  Box.percent s ->
  Stage10.derive_width_category (left_edge s) (right_edge s) = "wide"%string ->
  Stage10.derive_position (left_edge s) (right_edge s) = "center"%string.
Proof.
  intros (H1 & H2 & H3 & _).
  unfold Stage10.derive_width_category, Stage10.derive_position.
  destruct (Z.ltb_spec (right_edge s - left_edge s) 40); [done|].
  destruct (Z.ltb_spec (right_edge s - left_edge s) 70); [done|]. intros _.
  assert (Py.Qltb (Py.div (left_edge s + right_edge s) 2) 33 = false) as ->.
  { apply Qltb_ge. unfold Py.div, Qle, Qdiv, Qmult, Qinv, inject_Z. simpl. lia. }
  assert (Py.Qltb (Py.div (left_edge s + right_edge s) 2) 67 = true) as ->.
  { apply Qltb_lt. unfold Py.div, Qlt, Qdiv, Qmult, Qinv, inject_Z. simpl. lia. }
  done.
Qed.

Lemma wide_segments_are_centred_witness :
  Stage10.derive_position 10 90 = "center"%string.
Proof.
  apply (wide_segments_are_centred (Examples.segment 2 10 90 60 80)).
  - repeat split; vm_compute; discriminate.
  - reflexivity.
Defined.
